(** * Trading platform: order store, balance store and matching engine

    A shallow embedding of the trading service (the [TradingService] class with
    its Kafka consumers), of the three persistence models it calls
    ([OrderModel], [TradeModel], [AccountModel]) and of the PostgreSQL schema
    they run against (tables, CHECK constraints and the triggers
    [lock_order_funds], [unlock_order_funds], [process_order_fill]).

    Conventions of the embedding:
    - a JavaScript [number] is an exact rational [Q]; a value of a
      [DECIMAL(30,10)] column or variable is a rational with at most ten
      decimals: what enters one from a parameter or from a product is rounded
      to ten decimals, half away from zero ([numeric_round]), while sums and
      differences of such values are exact; the bound of twenty integer
      digits is not modelled;
    - the driver hands a [DECIMAL] column to JavaScript as the text PostgreSQL
      prints ([numeric_out]) and [mapOrderFromDb] and [mapTradeFromDb] leave it
      so: a row keeps the rational, and where JavaScript compares or
      concatenates the field the operation is applied to that text, where it
      subtracts or multiplies, to the rational;
    - a [VARCHAR(n)] column or variable refuses a longer value unless the
      excess is blank;
    - [uuidv4()] and [uuid_generate_v4()] draw from one supply of pairwise
      distinct identifiers, the k-th draw being [k];
    - [NOW()], [CURRENT_TIMESTAMP] and [new Date()] read the [now] field of the
      world, which is fixed during one transaction;
    - an awaited call is a step of a state-and-exception monad over [World];
      the [while] loop of [matchOrders] is driven by fuel;
    - parameters are bound to a statement by position, and a statement is
      refused when the number of values differs from the number of its
      parameters. *)

From Stdlib Require Import List String Ascii Bool Arith ZArith NArith.
From Stdlib Require Import QArith Qround Qabs Lia Lqa.
From Stdlib Require Import DecimalString Permutation Sorted.
Import ListNotations.

Open Scope string_scope.
Open Scope list_scope.
Open Scope Q_scope.

(** ** Numbers and strings *)

Definition Qleb (a b : Q) : bool := Qle_bool a b.
Definition Qltb (a b : Q) : bool := negb (Qle_bool b a).
Definition Qgeb (a b : Q) : bool := Qle_bool b a.
Definition Qgtb (a b : Q) : bool := negb (Qle_bool a b).
Definition Qeqb (a b : Q) : bool := Qeq_bool a b.

(** [Math.min(a, b)]. *)
Definition Math_min (a b : Q) : Q := if Qleb a b then a else b.

(** [s.slice(0, -3)] and [s.slice(-3)]. *)
Definition slice_0_m3 (s : string) : string := substring 0 (length s - 3) s.
Definition slice_m3 (s : string) : string := substring (length s - 3) 3 s.

(** SQL [LEFT(s, n)] for a non-negative literal [n], and [RIGHT(s, n)] for an
    integer [n]: the last [n] characters, or all but the first [-n] when [n]
    is negative. *)
Definition sql_left (s : string) (n : nat) : string := substring 0 n s.
Definition sql_right (s : string) (n : Z) : string :=
  if (0 <=? n)%Z
  then substring (length s - Z.to_nat n) (Z.to_nat n) s
  else substring (Z.to_nat (- n)) (length s) s.

(** [x || null] on an optional string or number. *)
Definition or_null_string (x : option string) : option string :=
  match x with
  | Some s => if String.eqb s "" then None else Some s
  | None => None
  end.
Definition or_null_number (x : option Q) : option Q :=
  match x with
  | Some q => if Qeqb q 0 then None else Some q
  | None => None
  end.

(** *** [DECIMAL(30,10)] and [VARCHAR(n)] *)

(** The integer nearest to [x], ties away from zero: how [numeric] rounds. *)
Definition round_half_away (x : Q) : Z :=
  if Qle_bool 0 x then Qfloor (x + (1 # 2)) else (- Qfloor (- x + (1 # 2)))%Z.

(** [x] rounded to ten decimals, as a fraction in lowest terms: the value a
    [DECIMAL(30,10)] column or variable takes when [x] is assigned to it. *)
Definition numeric_round (x : Q) : Q :=
  Qred (round_half_away (x * inject_Z (10 ^ 10)) # 10 ^ 10).

(** Assignment to [VARCHAR(n)]: a longer value is refused unless the
    characters in excess are all spaces, which are cut off. *)
Fixpoint all_spaces (s : string) : bool :=
  match s with
  | EmptyString => true
  | String c s' => Ascii.eqb c " " && all_spaces s'
  end.
Definition varchar_fits (n : nat) (s : string) : bool :=
  (length s <=? n)%nat || all_spaces (substring n (length s - n) s).
Definition varchar_cut (n : nat) (s : string) : string :=
  if (length s <=? n)%nat then s else substring 0 n s.

(** *** Numbers as text, text as numbers *)

Definition N_to_string (n : N) : string := NilZero.string_of_uint (N.to_uint n).

Fixpoint zeros (n : nat) : string :=
  match n with
  | O => ""
  | S n' => String "0" (zeros n')
  end.

(** What PostgreSQL prints for a value of a [DECIMAL(30,10)] column: the
    integer part, a point and exactly ten decimals. *)
Definition numeric_out (x : Q) : string :=
  let z := round_half_away (x * inject_Z (10 ^ 10)) in
  let a := Z.abs_N z in
  let frac := N_to_string (a mod 10 ^ 10) in
  ((if (z <? 0)%Z then "-" else "")
   ++ N_to_string (a / 10 ^ 10) ++ "." ++ zeros (10 - length frac) ++ frac)%string.

(** [a = m / 10^e] with the least such [e]. A JavaScript number has a
    finite decimal expansion; the search is cut at [bound] places, which the
    ten decimals of the quantities printed here never reach. *)
Fixpoint decimal_of (bound : nat) (e : nat) (a : Q) : N * nat :=
  let scaled := a * inject_Z (10 ^ Z.of_nat e) in
  match bound with
  | O => (Z.to_N (Qfloor scaled), e)
  | S bound' =>
      if Qeqb (inject_Z (Qfloor scaled)) scaled then (Z.to_N (Qfloor scaled), e)
      else decimal_of bound' (S e) a
  end.

Fixpoint strip_zeros_right (s : string) : string :=
  match s with
  | EmptyString => EmptyString
  | String c s' =>
      match strip_zeros_right s' with
      | EmptyString => if Ascii.eqb c "0" then EmptyString else String c EmptyString
      | t => String c t
      end
  end.

(** [Number.prototype.toString()] of a finite number (ECMA-262,
    Number::toString with radix 10): the digits [s] without trailing zeros,
    [k] of them, and the position [n] of the point decide between the plain
    and the exponential form. *)
Definition Number_toString (x : Q) : string :=
  if Qeqb x 0 then "0"
  else
    let '(m, e) := decimal_of 40 0 (Qabs x) in
    let all := N_to_string m in
    let s := strip_zeros_right all in
    let k := Z.of_nat (length s) in
    let n := (Z.of_nat (length all) - Z.of_nat e)%Z in
    ((if Qltb x 0 then "-" else "")
     ++ (if ((k <=? n) && (n <=? 21))%Z then s ++ zeros (Z.to_nat (n - k))
         else if ((0 <? n) && (n <=? 21))%Z then
           substring 0 (Z.to_nat n) s ++ "." ++ substring (Z.to_nat n) (length s) s
         else if ((-6 <? n) && (n <=? 0))%Z then "0." ++ zeros (Z.to_nat (- n)) ++ s
         else
           let exponent := (n - 1)%Z in
           let tail := (if (exponent <? 0)%Z then "e-" else "e+")
                       ++ N_to_string (Z.abs_N exponent) in
           if (k =? 1)%Z then s ++ tail
           else substring 0 1 s ++ "." ++ substring 1 (length s) s ++ tail))%string.

Definition is_digit (c : ascii) : bool :=
  (48 <=? nat_of_ascii c)%nat && (nat_of_ascii c <=? 57)%nat.
Definition digit_value (c : ascii) : Z := Z.of_nat (nat_of_ascii c - 48).
Definition is_space (c : ascii) : bool :=
  let n := nat_of_ascii c in
  (n =? 32)%nat || ((9 <=? n)%nat && (n <=? 13)%nat).

Fixpoint skip_spaces (s : string) : string :=
  match s with
  | String c s' => if is_space c then skip_spaces s' else s
  | EmptyString => EmptyString
  end.

(** The digits at the head of [s] read onto [acc], their number, the rest. *)
Fixpoint read_digits (s : string) (acc : Z) (count : nat) : Z * nat * string :=
  match s with
  | String c s' =>
      if is_digit c then read_digits s' (acc * 10 + digit_value c)%Z (S count)
      else (acc, count, s)
  | EmptyString => (acc, count, s)
  end.

Definition read_sign (s : string) : bool * string :=
  match s with
  | String "-" s' => (true, s')
  | String "+" s' => (false, s')
  | _ => (false, s)
  end.

(** [10^e] as a rational, for an integer [e]. *)
Definition pow10 (e : Z) : Q :=
  if (0 <=? e)%Z then inject_Z (10 ^ e) else 1 / inject_Z (10 ^ (- e)).

(** The input function of [numeric] on decimal text: blanks, a sign, digits
    with at most one point and at least one digit, an exponent, blanks;
    [None] is "invalid input syntax for type numeric". The special values
    (NaN, the infinities) are no values of the model and are refused as
    well. *)
Definition numeric_in (text : string) : option Q :=
  let '(negative, s1) := read_sign (skip_spaces text) in
  let '(int_part, n_int, s2) := read_digits s1 0 0 in
  let '(mantissa, n_frac, s3) :=
    match s2 with
    | String "." s' => let '(m, c, r) := read_digits s' int_part 0 in (m, c, r)
    | _ => (int_part, 0%nat, s2)
    end in
  if ((n_int + n_frac) =? 0)%nat then None
  else
    let '(exponent, s4) :=
      match s3 with
      | String c s' =>
          if Ascii.eqb c "e" || Ascii.eqb c "E" then
            let '(eneg, s'') := read_sign s' in
            let '(ev, ec, r) := read_digits s'' 0 0 in
            if (ec =? 0)%nat then (None, s3)
            else (Some (if eneg then (- ev)%Z else ev), r)
          else (Some 0%Z, s3)
      | EmptyString => (Some 0%Z, s3)
      end in
    match exponent, skip_spaces s4 with
    | Some e, EmptyString =>
        let v := inject_Z mantissa * pow10 (e - Z.of_nat n_frac) in
        Some (Qred (if negative then - v else v))
    | _, _ => None
    end.

(** [a >= b] on two strings: the comparison of their code units. *)
Definition String_geb (a b : string) : bool := negb (String.ltb a b).

(** ** Data model *)

Definition Uuid := nat.
Definition UserId := string.
Definition Timestamp := nat.
Bind Scope nat_scope with Uuid Timestamp.

Inductive OrderType := MARKET | LIMIT | STOP | STOP_LIMIT.
Inductive OrderSide := BUY | SELL.
Inductive OrderStatus :=
  OPEN | PARTIALLY_FILLED | FILLED | CANCELLED | REJECTED | EXPIRED.
Inductive TimeInForce := GTC | IOC | FOK.
Inductive TransactionType := DEPOSIT | WITHDRAWAL.
Inductive TransactionStatus := TX_PENDING | TX_COMPLETED | TX_FAILED | TX_CANCELLED.

Definition OrderSide_eqb (a b : OrderSide) : bool :=
  match a, b with BUY, BUY | SELL, SELL => true | _, _ => false end.

Definition OrderStatus_eqb (a b : OrderStatus) : bool :=
  match a, b with
  | OPEN, OPEN | PARTIALLY_FILLED, PARTIALLY_FILLED | FILLED, FILLED
  | CANCELLED, CANCELLED | REJECTED, REJECTED | EXPIRED, EXPIRED => true
  | _, _ => false
  end.

(** The terminal states of the order lifecycle. *)
Definition terminal (s : OrderStatus) : bool :=
  match s with
  | FILLED | CANCELLED | REJECTED | EXPIRED => true
  | OPEN | PARTIALLY_FILLED => false
  end.

(** A row of [orders]; also the [Order] object [mapOrderFromDb] returns,
    whose [price], [stopPrice], [quantity], [filledQuantity] and
    [icebergQuantity] are the texts [numeric_out] of the fields here. *)
Module Order.
Record t := mk {
  id : Uuid;
  userId : UserId;
  clientOrderId : option string;
  symbol : string;
  type : OrderType;
  side : OrderSide;
  price : Q;
  stopPrice : option Q;
  quantity : Q;
  filledQuantity : Q;
  status : OrderStatus;
  timeInForce : TimeInForce;
  icebergQuantity : option Q;
  createdAt : Timestamp;
  updatedAt : Timestamp;
  closedAt : option Timestamp
}.
End Order.

(** [Omit<Order, 'id' | 'createdAt' | 'updatedAt' | 'status' | 'filledQuantity'>]. *)
Module OrderData.
Record t := mk {
  userId : UserId;
  clientOrderId : option string;
  symbol : string;
  type : OrderType;
  side : OrderSide;
  price : Q;
  stopPrice : option Q;
  quantity : Q;
  timeInForce : TimeInForce;
  icebergQuantity : option Q;
  closedAt : option Timestamp
}.
End OrderData.

(** A row of [trades]; also the [Trade] object [mapTradeFromDb] returns, with
    [price], [quantity] and [commission] as text. *)
Module Trade.
Record t := mk {
  id : Uuid;
  orderId : Uuid;
  userId : UserId;
  symbol : string;
  price : Q;
  quantity : Q;
  commission : Q;
  commissionAsset : string;
  isBuyer : bool;
  isMaker : bool;
  isBestMatch : bool;
  createdAt : Timestamp
}.
End Trade.

(** [Omit<Trade, 'id' | 'createdAt'>]. *)
Module TradeData.
Record t := mk {
  orderId : Uuid;
  userId : UserId;
  symbol : string;
  price : Q;
  quantity : Q;
  commission : Q;
  commissionAsset : string;
  isBuyer : bool;
  isMaker : bool;
  isBestMatch : option bool
}.
End TradeData.

(** A row of [account_balances]; also the [AccountBalance] interface. *)
Module Balance.
Record t := mk {
  id : Uuid;
  userId : UserId;
  asset : string;
  freeBalance : Q;
  lockedBalance : Q;
  updatedAt : Timestamp
}.
End Balance.

(** A row of [account_transactions]; also [AccountTransaction]. *)
Module Transaction.
Record t := mk {
  id : Uuid;
  userId : UserId;
  type : TransactionType;
  asset : string;
  amount : Q;
  fee : Q;
  address : option string;
  txHash : option string;
  status : TransactionStatus;
  createdAt : Timestamp;
  updatedAt : Timestamp
}.
End Transaction.

(** Argument of [AccountModel.createTransaction]: the interface without
    [id], [createdAt], [updatedAt]; callers pass a [status] all the same. *)
Module TransactionData.
Record t := mk {
  userId : UserId;
  type : TransactionType;
  asset : string;
  amount : Q;
  fee : Q;
  address : option string;
  txHash : option string;
  status : TransactionStatus
}.
End TransactionData.

(** ** The world the service runs in *)

(** The relational state. [users] keeps the primary keys only. *)
Record Db := mkDb {
  users : list UserId;
  orders : list Order.t;
  trades : list Trade.t;
  account_balances : list Balance.t;
  account_transactions : list Transaction.t
}.

(** One entry of [orderBooks : Map<string, { bids; asks }>]. *)
Record OrderBook := mkBook { bids : list Order.t; asks : list Order.t }.

(** Parsed Kafka payloads of the two consumed topics. *)
Inductive Message :=
| NewOrders (orderData : OrderData.t)
| CancelOrders (orderId : Uuid) (userId : UserId).

(** What leaves the service: Kafka records and WebSocket broadcasts. *)
Inductive Event :=
| SendNewOrder (orderData : OrderData.t)
| SendCancelOrder (orderId : Uuid) (userId : UserId)
| OrderUpdate (o : Order.t)
| NewTrade (t : Trade.t)
| TradingError (topic : string) (error : string).

Record World := mkWorld {
  db : Db;
  orderBooks : list (string * OrderBook);
  emitted : list Event;
  uuid : nat;
  now : Timestamp
}.

Definition with_db (w : World) (d : Db) : World :=
  mkWorld d (orderBooks w) (emitted w) (uuid w) (now w).
Definition with_orderBooks (w : World) (b : list (string * OrderBook)) : World :=
  mkWorld (db w) b (emitted w) (uuid w) (now w).

(** ** Computations: state, exceptions, fuel *)

Inductive outcome (A : Type) :=
| Returned (a : A) (w : World)
| Thrown (message : string) (w : World)
| OutOfFuel.
Arguments Returned {A} a w.
Arguments Thrown {A} message w.
Arguments OutOfFuel {A}.

Definition M (A : Type) : Type := World -> outcome A.

Definition ret {A} (a : A) : M A := fun w => Returned a w.
Definition throw {A} (message : string) : M A := fun w => Thrown message w.
Definition bind {A B} (m : M A) (k : A -> M B) : M B :=
  fun w =>
    match m w with
    | Returned a w' => k a w'
    | Thrown e w' => Thrown e w'
    | OutOfFuel => OutOfFuel
    end.

Notation "x <- m ;; k" := (bind m (fun x => k))
  (at level 61, m at next level, right associativity).
Notation "m ;;; k" := (bind m (fun _ => k))
  (at level 61, right associativity).

Definition get_db : M Db := fun w => Returned (db w) w.
Definition put_db (d : Db) : M unit := fun w => Returned tt (with_db w d).
Definition get_now : M Timestamp := fun w => Returned (now w) w.
Definition emit (e : Event) : M unit :=
  fun w => Returned tt (mkWorld (db w) (orderBooks w) (emitted w ++ [e]) (uuid w) (now w)).

(** [uuidv4()] (and the column default [uuid_generate_v4()]). *)
Definition uuidv4 : M Uuid :=
  fun w => Returned (uuid w) (mkWorld (db w) (orderBooks w) (emitted w) (S (uuid w)) (now w)).

(** [try { m } catch (error) { console.error(..); throw new Error(message) }]. *)
Definition rethrow_as {A} (message : string) (m : M A) : M A :=
  fun w =>
    match m w with
    | Thrown _ w' => Thrown message w'
    | r => r
    end.

(** ** The schema: tables, constraints and triggers *)

(** A bound parameter of a statement: text, or a number, which the driver
    sends as its [toString()] and the server reads back without loss. *)
Inductive SqlValue :=
| VText (s : string)
| VNumeric (q : Q).

(** [$k] of a value array. *)
Definition param (k : nat) (values : list SqlValue) : option SqlValue :=
  nth_error values (k - 1).

(** A parameter where the statement expects a [numeric]. *)
Definition as_numeric (v : SqlValue) : option Q :=
  match v with
  | VNumeric q => Some q
  | VText s => numeric_in s
  end.

Module Schema.

Definition value_too_long (n : nat) : string :=
  "value too long for type character varying(" ++ N_to_string (N.of_nat n) ++ ")".

Definition balance_is (user : UserId) (a : string) (b : Balance.t) : bool :=
  String.eqb (Balance.userId b) user && String.eqb (Balance.asset b) a.

(** [SELECT * INTO r FROM account_balances WHERE user_id = .. AND asset = ..];
    [None] is the record that [IS NULL]. *)
Definition select_balance (user : UserId) (a : string) (d : Db) : option Balance.t :=
  find (balance_is user a) (account_balances d).

(** [CONSTRAINT valid_balances CHECK (free_balance >= 0 AND locked_balance >= 0)]. *)
Definition valid_balances (b : Balance.t) : bool :=
  Qgeb (Balance.freeBalance b) 0 && Qgeb (Balance.lockedBalance b) 0.

(** [CONSTRAINT valid_quantity] and [CONSTRAINT valid_filled_quantity]. *)
Definition valid_quantity (o : Order.t) : bool := Qgtb (Order.quantity o) 0.
Definition valid_filled_quantity (o : Order.t) : bool :=
  Qgeb (Order.filledQuantity o) 0 && Qleb (Order.filledQuantity o) (Order.quantity o).

(** [CONSTRAINT valid_trade_quantity] and [CONSTRAINT valid_commission]. *)
Definition valid_trade_quantity (t : Trade.t) : bool := Qgtb (Trade.quantity t) 0.
Definition valid_commission (t : Trade.t) : bool := Qgeb (Trade.commission t) 0.

(** [CONSTRAINT valid_amount] and [CONSTRAINT valid_fee]. *)
Definition valid_amount (x : Transaction.t) : bool := Qgtb (Transaction.amount x) 0.
Definition valid_fee (x : Transaction.t) : bool := Qgeb (Transaction.fee x) 0.

Definition user_exists (user : UserId) (d : Db) : bool :=
  existsb (String.eqb user) (users d).
Definition order_exists (i : Uuid) (d : Db) : bool :=
  existsb (fun o => Order.id o =? i)%nat (orders d).

Definition set_balances (d : Db) (bs : list Balance.t) : Db :=
  mkDb (users d) (orders d) (trades d) bs (account_transactions d).
Definition set_orders (d : Db) (os : list Order.t) : Db :=
  mkDb (users d) os (trades d) (account_balances d) (account_transactions d).
Definition set_trades (d : Db) (ts : list Trade.t) : Db :=
  mkDb (users d) (orders d) ts (account_balances d) (account_transactions d).
Definition set_transactions (d : Db) (xs : list Transaction.t) : Db :=
  mkDb (users d) (orders d) (trades d) (account_balances d) xs.

(** The rows an INSERT forms from the values it is given: every value is
    brought to the type of its column. *)
Definition coerce_balance (row : Balance.t) : Balance.t :=
  Balance.mk (Balance.id row) (Balance.userId row)
    (varchar_cut 10 (Balance.asset row))
    (numeric_round (Balance.freeBalance row))
    (numeric_round (Balance.lockedBalance row))
    (Balance.updatedAt row).
Definition coerce_trade (row : Trade.t) : Trade.t :=
  Trade.mk (Trade.id row) (Trade.orderId row) (Trade.userId row)
    (varchar_cut 20 (Trade.symbol row))
    (numeric_round (Trade.price row))
    (numeric_round (Trade.quantity row))
    (numeric_round (Trade.commission row))
    (varchar_cut 10 (Trade.commissionAsset row))
    (Trade.isBuyer row) (Trade.isMaker row) (Trade.isBestMatch row)
    (Trade.createdAt row).
Definition coerce_order (row : Order.t) : Order.t :=
  Order.mk (Order.id row) (Order.userId row)
    (option_map (varchar_cut 255) (Order.clientOrderId row))
    (varchar_cut 20 (Order.symbol row))
    (Order.type row) (Order.side row)
    (numeric_round (Order.price row))
    (option_map numeric_round (Order.stopPrice row))
    (numeric_round (Order.quantity row))
    (Order.filledQuantity row)
    (Order.status row) (Order.timeInForce row)
    (option_map numeric_round (Order.icebergQuantity row))
    (Order.createdAt row) (Order.updatedAt row) (Order.closedAt row).
Definition coerce_transaction (row : Transaction.t) : Transaction.t :=
  Transaction.mk (Transaction.id row) (Transaction.userId row) (Transaction.type row)
    (varchar_cut 10 (Transaction.asset row))
    (numeric_round (Transaction.amount row))
    (numeric_round (Transaction.fee row))
    (Transaction.address row) (Transaction.txHash row) (Transaction.status row)
    (Transaction.createdAt row) (Transaction.updatedAt row).
Definition client_order_id_fits (row : Order.t) : bool :=
  match Order.clientOrderId row with
  | Some c => varchar_fits 255 c
  | None => true
  end.

(** [update_updated_at_column], the BEFORE UPDATE trigger of
    [account_balances]. *)
Definition touch_balance (t : Timestamp) (b : Balance.t) : Balance.t :=
  Balance.mk (Balance.id b) (Balance.userId b) (Balance.asset b)
    (Balance.freeBalance b) (Balance.lockedBalance b) t.

(** [UPDATE account_balances SET .. WHERE ..]: every row the condition
    selects is rewritten, stamped by the trigger and checked. *)
Definition update_account_balances
    (where_ : Balance.t -> bool) (set : Balance.t -> Balance.t) : M unit :=
  d <- get_db ;;
  t <- get_now ;;
  let rows := map (fun b => if where_ b then touch_balance t (set b) else b)
                  (account_balances d) in
  if forallb (fun b => negb (where_ b) || valid_balances (touch_balance t (set b)))
             (account_balances d)
  then put_db (set_balances d rows)
  else throw "new row for relation account_balances violates check constraint valid_balances".

(** The INSERT of a row into [account_balances]: the coercions, the CHECK
    constraint, the unique key, the foreign key. *)
Definition store_account_balance (row : Balance.t) : M Balance.t :=
  d <- get_db ;;
  if negb (varchar_fits 10 (Balance.asset row)) then throw (value_too_long 10)
  else
    let NEW := coerce_balance row in
    if negb (valid_balances NEW) then
      throw "new row for relation account_balances violates check constraint valid_balances"
    else if existsb (balance_is (Balance.userId NEW) (Balance.asset NEW))
                    (account_balances d) then
      throw "duplicate key value violates unique constraint account_balances_user_id_asset_key"
    else if negb (user_exists (Balance.userId NEW) d) then
      throw "insert or update on table account_balances violates foreign key constraint"
    else
      put_db (set_balances d (account_balances d ++ [NEW])) ;;;
      ret NEW.

(** [INSERT INTO account_balances (user_id, asset, free_balance,
    locked_balance) VALUES (..)], the key drawn by the column default. *)
Definition insert_account_balance (user : UserId) (a : string) (free locked : Q) : M Balance.t :=
  i <- uuidv4 ;;
  t <- get_now ;;
  store_account_balance (Balance.mk i user a free locked t).

(** [INSERT INTO trades (..) VALUES (..)] of a complete row. *)
Definition insert_trade (row : Trade.t) : M Trade.t :=
  d <- get_db ;;
  if negb (varchar_fits 20 (Trade.symbol row)) then throw (value_too_long 20)
  else if negb (varchar_fits 10 (Trade.commissionAsset row)) then throw (value_too_long 10)
  else
    let NEW := coerce_trade row in
    if negb (valid_trade_quantity NEW) then
      throw "new row for relation trades violates check constraint valid_trade_quantity"
    else if negb (valid_commission NEW) then
      throw "new row for relation trades violates check constraint valid_commission"
    else if existsb (fun t => Trade.id t =? Trade.id NEW)%nat (trades d) then
      throw "duplicate key value violates unique constraint trades_pkey"
    else if negb (order_exists (Trade.orderId NEW) d) then
      throw "insert or update on table trades violates foreign key constraint (order_id)"
    else if negb (user_exists (Trade.userId NEW) d) then
      throw "insert or update on table trades violates foreign key constraint (user_id)"
    else
      put_db (set_trades d (trades d ++ [NEW])) ;;;
      ret NEW.

(** The assets the triggers read off a symbol:
    [base_asset := RIGHT(symbol, LENGTH(symbol) - 3)] and
    [quote_asset := LEFT(symbol, 3)]; both variables are [VARCHAR(10)]. *)
Definition base_asset (symbol : string) : string :=
  sql_right symbol (Z.of_nat (length symbol) - 3).
Definition quote_asset (symbol : string) : string := sql_left symbol 3.
Definition assets_fit (symbol : string) : bool :=
  varchar_fits 10 (base_asset symbol) && varchar_fits 10 (quote_asset symbol).

(** [lock_order_funds()], BEFORE INSERT ON orders; [amount_to_lock] is a
    [DECIMAL(30,10)] variable. The exception block raises the error again. *)
Definition asset_to_lock (NEW : Order.t) : string :=
  varchar_cut 10
    match Order.side NEW with
    | BUY => quote_asset (Order.symbol NEW)
    | SELL => base_asset (Order.symbol NEW)
    end.
Definition amount_to_lock (NEW : Order.t) : Q :=
  match Order.side NEW with
  | BUY => numeric_round (Order.price NEW * Order.quantity NEW)
  | SELL => Order.quantity NEW
  end.

Definition lock_order_funds (NEW : Order.t) : M Order.t :=
  if negb (assets_fit (Order.symbol NEW)) then throw (value_too_long 10)
  else
    d <- get_db ;;
    let current_balance := select_balance (Order.userId NEW) (asset_to_lock NEW) d in
    match current_balance with
    | None => throw "Insufficient balance for order"
    | Some current =>
        if Qltb (Balance.freeBalance current) (amount_to_lock NEW) then
          throw "Insufficient balance for order"
        else
          update_account_balances
            (balance_is (Order.userId NEW) (asset_to_lock NEW))
            (fun b => Balance.mk (Balance.id b) (Balance.userId b) (Balance.asset b)
                        (Balance.freeBalance b - amount_to_lock NEW)
                        (Balance.lockedBalance b + amount_to_lock NEW)
                        (Balance.updatedAt b)) ;;;
          ret NEW
    end.

(** [INSERT INTO orders (..) VALUES (..)]: the coercions, the BEFORE INSERT
    trigger, then the constraints, then the row is stored. *)
Definition insert_order (row : Order.t) : M Order.t :=
  if negb (client_order_id_fits row) then throw (value_too_long 255)
  else if negb (varchar_fits 20 (Order.symbol row)) then throw (value_too_long 20)
  else
    NEW <- lock_order_funds (coerce_order row) ;;
    d <- get_db ;;
    if negb (valid_quantity NEW) then
      throw "new row for relation orders violates check constraint valid_quantity"
    else if negb (valid_filled_quantity NEW) then
      throw "new row for relation orders violates check constraint valid_filled_quantity"
    else if order_exists (Order.id NEW) d then
      throw "duplicate key value violates unique constraint orders_pkey"
    else if match Order.clientOrderId NEW with
            | Some c => existsb (fun o => match Order.clientOrderId o with
                                          | Some c' => String.eqb c c'
                                          | None => false
                                          end) (orders d)
            | None => false
            end then
      throw "duplicate key value violates unique constraint orders_client_order_id_key"
    else if negb (user_exists (Order.userId NEW) d) then
      throw "insert or update on table orders violates foreign key constraint"
    else
      put_db (set_orders d (orders d ++ [NEW])) ;;;
      ret NEW.

(** [unlock_order_funds()], BEFORE UPDATE ON orders
    WHEN (NEW.status = 'CANCELLED' AND OLD.status != 'CANCELLED');
    [remaining_quantity] and [amount_to_unlock] are [DECIMAL(30,10)]
    variables. Its exception block swallows every error, undoing the
    trigger's own work. *)
Definition asset_to_unlock (NEW : Order.t) : string :=
  varchar_cut 10
    match Order.side NEW with
    | BUY => quote_asset (Order.symbol NEW)
    | SELL => base_asset (Order.symbol NEW)
    end.
Definition remaining_quantity (NEW : Order.t) : Q :=
  Order.quantity NEW - Order.filledQuantity NEW.
Definition amount_to_unlock (NEW : Order.t) : Q :=
  match Order.side NEW with
  | BUY => numeric_round (Order.price NEW * remaining_quantity NEW)
  | SELL => remaining_quantity NEW
  end.

Definition unlock_order_funds (OLD NEW : Order.t) : M Order.t :=
  if negb (OrderStatus_eqb (Order.status NEW) CANCELLED)
     || OrderStatus_eqb (Order.status OLD) CANCELLED then ret NEW
  else if negb (assets_fit (Order.symbol NEW)) then ret NEW
  else if Qleb (remaining_quantity NEW) 0 then ret NEW
  else fun w =>
    match update_account_balances
            (balance_is (Order.userId NEW) (asset_to_unlock NEW))
            (fun b => Balance.mk (Balance.id b) (Balance.userId b) (Balance.asset b)
                        (Balance.freeBalance b + amount_to_unlock NEW)
                        (Balance.lockedBalance b - amount_to_unlock NEW)
                        (Balance.updatedAt b)) w with
    | Returned _ w' => Returned NEW w'
    | Thrown _ _ => Returned NEW w
    | OutOfFuel => OutOfFuel
    end.

(** [process_order_fill()], AFTER UPDATE OF filled_quantity ON orders
    WHEN (NEW.filled_quantity > OLD.filled_quantity); [trade_amount],
    [trade_value] and [commission_val] are [DECIMAL(30,10)] variables. What
    it assigns to [NEW] at the end is lost, the trigger running after the row
    is stored. The exception block raises the error again. *)
Definition process_order_fill (OLD NEW : Order.t) : M unit :=
  if Qeqb (Order.filledQuantity NEW) (Order.filledQuantity OLD) then ret tt
  else
    d <- get_db ;;
    t <- get_now ;;
    match find (fun o => Order.id o =? Order.id NEW)%nat (orders d) with
    | None => throw "null value in column user_id of relation trades violates not-null constraint"
    | Some o =>
        let user_id_val := Order.userId o in
        let symbol_val := Order.symbol o in
        let order_side_val := Order.side o in
        let price_val := Order.price o in
        if negb (assets_fit symbol_val) then throw (value_too_long 10)
        else
        let base_asset := varchar_cut 10 (base_asset symbol_val) in
        let quote_asset := varchar_cut 10 (quote_asset symbol_val) in
        let trade_amount := Order.filledQuantity NEW - Order.filledQuantity OLD in
        let trade_value := numeric_round (trade_amount * price_val) in
        let commission_asset_val := quote_asset in
        let commission_val := numeric_round (trade_value * 0.001) in
        let is_maker_val :=
          existsb (fun o' =>
                     String.eqb (Order.symbol o') symbol_val
                     && ((OrderSide_eqb (Order.side o') BUY && Qgeb (Order.price o') price_val)
                         || (OrderSide_eqb (Order.side o') SELL && Qleb (Order.price o') price_val))
                     && negb (Order.id o' =? Order.id NEW)%nat)
                  (orders d) in
        let is_buyer_val := OrderSide_eqb order_side_val BUY in
        trade_id_val <- uuidv4 ;;
        insert_trade (Trade.mk trade_id_val (Order.id NEW) user_id_val symbol_val price_val
                        trade_amount commission_val commission_asset_val
                        is_buyer_val is_maker_val true t) ;;;
        d' <- get_db ;;
        let base_balance := select_balance user_id_val base_asset d' in
        let quote_balance := select_balance user_id_val quote_asset d' in
        match order_side_val with
        | BUY =>
            match base_balance with
            | None =>
                insert_account_balance user_id_val base_asset (trade_amount - commission_val) 0 ;;;
                ret tt
            | Some _ =>
                update_account_balances (balance_is user_id_val base_asset)
                  (fun b => Balance.mk (Balance.id b) (Balance.userId b) (Balance.asset b)
                              (Balance.freeBalance b + trade_amount - commission_val)
                              (Balance.lockedBalance b) (Balance.updatedAt b))
            end ;;;
            match quote_balance with
            | None => throw "Insufficient quote balance"
            | Some _ =>
                update_account_balances
                  (fun b => balance_is user_id_val quote_asset b
                            && Qgeb (Balance.lockedBalance b) trade_value)
                  (fun b => Balance.mk (Balance.id b) (Balance.userId b) (Balance.asset b)
                              (Balance.freeBalance b)
                              (Balance.lockedBalance b - trade_value) (Balance.updatedAt b))
            end
        | SELL =>
            match quote_balance with
            | None =>
                insert_account_balance user_id_val quote_asset (trade_value - commission_val) 0 ;;;
                ret tt
            | Some _ =>
                update_account_balances (balance_is user_id_val quote_asset)
                  (fun b => Balance.mk (Balance.id b) (Balance.userId b) (Balance.asset b)
                              (Balance.freeBalance b + trade_value - commission_val)
                              (Balance.lockedBalance b) (Balance.updatedAt b))
            end ;;;
            match base_balance with
            | None => throw "Insufficient base balance"
            | Some _ =>
                update_account_balances
                  (fun b => balance_is user_id_val base_asset b
                            && Qgeb (Balance.lockedBalance b) trade_amount)
                  (fun b => Balance.mk (Balance.id b) (Balance.userId b) (Balance.asset b)
                              (Balance.freeBalance b)
                              (Balance.lockedBalance b - trade_amount) (Balance.updatedAt b))
            end
        end
    end.

(** [update_updated_at_column], the BEFORE UPDATE trigger of [orders]. *)
Definition touch_order (t : Timestamp) (o : Order.t) : Order.t :=
  Order.mk (Order.id o) (Order.userId o) (Order.clientOrderId o) (Order.symbol o)
    (Order.type o) (Order.side o) (Order.price o) (Order.stopPrice o)
    (Order.quantity o) (Order.filledQuantity o) (Order.status o)
    (Order.timeInForce o) (Order.icebergQuantity o) (Order.createdAt o) t
    (Order.closedAt o).

(** The row pass of [UPDATE orders SET .. WHERE ..]: for each selected row
    the BEFORE UPDATE triggers in name order ([unlock_order_funds_trigger],
    then [update_orders_updated_at]) and the CHECK constraints. Returns the
    new table and the (OLD, NEW) pairs of the rows written. *)
Fixpoint update_orders_rows (where_ : Order.t -> bool) (set : Order.t -> Order.t)
    (rows : list Order.t) : M (list Order.t * list (Order.t * Order.t)) :=
  match rows with
  | [] => ret ([], [])
  | OLD :: rest =>
      if where_ OLD then
        t <- get_now ;;
        NEW1 <- unlock_order_funds OLD (set OLD) ;;
        let NEW := touch_order t NEW1 in
        if negb (valid_quantity NEW) then
          throw "new row for relation orders violates check constraint valid_quantity"
        else if negb (valid_filled_quantity NEW) then
          throw "new row for relation orders violates check constraint valid_filled_quantity"
        else
          r <- update_orders_rows where_ set rest ;;
          ret (NEW :: fst r, (OLD, NEW) :: snd r)
      else
        r <- update_orders_rows where_ set rest ;;
        ret (OLD :: fst r, snd r)
  end.

Fixpoint after_update_of_filled_quantity (written : list (Order.t * Order.t)) : M unit :=
  match written with
  | [] => ret tt
  | (OLD, NEW) :: rest =>
      (if Qgtb (Order.filledQuantity NEW) (Order.filledQuantity OLD)
       then process_order_fill OLD NEW else ret tt) ;;;
      after_update_of_filled_quantity rest
  end.

(** [UPDATE orders SET .. WHERE .. RETURNING ..]; [set] gives the new row
    with the assigned values brought to the types of their columns;
    [of_filled_quantity] says whether [filled_quantity] is among the assigned
    columns, which is what arms [process_order_fill_trigger]. *)
Definition update_orders (of_filled_quantity : bool)
    (where_ : Order.t -> bool) (set : Order.t -> Order.t) : M (list Order.t) :=
  d <- get_db ;;
  r <- update_orders_rows where_ set (orders d) ;;
  d' <- get_db ;;
  put_db (set_orders d' (fst r)) ;;;
  (if of_filled_quantity then after_update_of_filled_quantity (snd r) else ret tt) ;;;
  ret (map snd (snd r)).

(** [INSERT INTO account_transactions (..) VALUES (uuid_generate_v4(), ..)]. *)
Definition insert_account_transaction (row : Transaction.t) : M Transaction.t :=
  d <- get_db ;;
  if negb (varchar_fits 10 (Transaction.asset row)) then throw (value_too_long 10)
  else
    let NEW := coerce_transaction row in
    if negb (valid_amount NEW) then
      throw "new row for relation account_transactions violates check constraint valid_amount"
    else if negb (valid_fee NEW) then
      throw "new row for relation account_transactions violates check constraint valid_fee"
    else if negb (user_exists (Transaction.userId NEW) d) then
      throw "insert or update on table account_transactions violates foreign key constraint"
    else
      put_db (set_transactions d (account_transactions d ++ [NEW])) ;;;
      ret NEW.

End Schema.

(** ** Persistence models *)

(** A stable insertion sort: [before a b] says that [a] must come strictly
    before [b]; elements neither of which is before the other keep their
    order. It stands for [Array.prototype.sort] and for [ORDER BY]. *)
Fixpoint insert_by {A} (before : A -> A -> bool) (x : A) (l : list A) : list A :=
  match l with
  | [] => [x]
  | y :: l' => if before y x then y :: insert_by before x l' else x :: y :: l'
  end.
Definition sort_by {A} (before : A -> A -> bool) (l : list A) : list A :=
  fold_right (insert_by before) [] l.

Module OrderModel.

(** [createOrder(orderData, client)]. *)
Definition createOrder (orderData : OrderData.t) : M Order.t :=
  i <- uuidv4 ;;
  t <- get_now ;;
  rethrow_as "Failed to create order"
    (Schema.insert_order
       (Order.mk i
          (OrderData.userId orderData)
          (or_null_string (OrderData.clientOrderId orderData))
          (OrderData.symbol orderData)
          (OrderData.type orderData)
          (OrderData.side orderData)
          (OrderData.price orderData)
          (or_null_number (OrderData.stopPrice orderData))
          (OrderData.quantity orderData)
          0
          OPEN
          (OrderData.timeInForce orderData)
          (or_null_number (OrderData.icebergQuantity orderData))
          t t None)).

(** [getOrderById(orderId, userId, client)]. *)
Definition getOrderById (orderId : Uuid) (userId : UserId) : M (option Order.t) :=
  d <- get_db ;;
  ret (find (fun o => (Order.id o =? orderId)%nat && String.eqb (Order.userId o) userId)
            (orders d)).

(** [cancelOrder(orderId, userId, client)]. *)
Definition cancelOrder (orderId : Uuid) (userId : UserId) : M (option Order.t) :=
  t <- get_now ;;
  rethrow_as "Failed to cancel order"
    (rows <- Schema.update_orders false
               (fun o => (Order.id o =? orderId)%nat
                         && String.eqb (Order.userId o) userId
                         && (OrderStatus_eqb (Order.status o) OPEN
                             || OrderStatus_eqb (Order.status o) PARTIALLY_FILLED))
               (fun o => Order.mk (Order.id o) (Order.userId o) (Order.clientOrderId o)
                           (Order.symbol o) (Order.type o) (Order.side o) (Order.price o)
                           (Order.stopPrice o) (Order.quantity o) (Order.filledQuantity o)
                           CANCELLED
                           (Order.timeInForce o) (Order.icebergQuantity o)
                           (Order.createdAt o) (Order.updatedAt o) (Some t)) ;;
     ret (hd_error rows)).

(** The assignments of [updateOrderFilledQuantity]'s statement, [$1] being
    [filledQuantity], a [numeric]: the column takes it rounded, the two CASE
    expressions compare it as it is. *)
Definition set_filled_quantity (filledQuantity : Q) (t : Timestamp) (o : Order.t) : Order.t :=
  Order.mk (Order.id o) (Order.userId o) (Order.clientOrderId o)
    (Order.symbol o) (Order.type o) (Order.side o) (Order.price o)
    (Order.stopPrice o) (Order.quantity o)
    (numeric_round filledQuantity)
    (if Qgeb filledQuantity (Order.quantity o) then FILLED
     else if Qgtb filledQuantity 0 then PARTIALLY_FILLED
     else Order.status o)
    (Order.timeInForce o) (Order.icebergQuantity o)
    (Order.createdAt o) (Order.updatedAt o)
    (if Qgeb filledQuantity (Order.quantity o) then Some t else Order.closedAt o).

(** [updateOrderFilledQuantity(orderId, filledQuantity, client)];
    [filledQuantity] is what the caller hands over, a number or a text. *)
Definition updateOrderFilledQuantity (orderId : Uuid) (filledQuantity : SqlValue)
    : M (option Order.t) :=
  t <- get_now ;;
  rethrow_as "Failed to update order filled quantity"
    (match as_numeric filledQuantity with
     | None => throw "invalid input syntax for type numeric"
     | Some q =>
         rows <- Schema.update_orders true
                   (fun o => (Order.id o =? orderId)%nat)
                   (set_filled_quantity q t) ;;
         ret (hd_error rows)
     end).

(** The [ORDER BY] of [getOpenOrdersBySymbol]:
    [CASE WHEN side = 'BUY' THEN price END DESC] (nulls first),
    [CASE WHEN side = 'SELL' THEN price END ASC] (nulls last),
    [created_at ASC]. *)
Definition open_orders_before (a b : Order.t) : bool :=
  match Order.side a, Order.side b with
  | SELL, BUY => true
  | BUY, SELL => false
  | BUY, BUY =>
      Qgtb (Order.price a) (Order.price b)
      || (Qeqb (Order.price a) (Order.price b)
          && (Order.createdAt a <? Order.createdAt b)%nat)
  | SELL, SELL =>
      Qltb (Order.price a) (Order.price b)
      || (Qeqb (Order.price a) (Order.price b)
          && (Order.createdAt a <? Order.createdAt b)%nat)
  end.

(** [getOpenOrdersBySymbol(symbol, limit, client)]. *)
Definition getOpenOrdersBySymbol (symbol : string) (limit : nat) : M (list Order.t) :=
  d <- get_db ;;
  ret (firstn limit
         (sort_by open_orders_before
            (filter (fun o => String.eqb (Order.symbol o) symbol
                              && (OrderStatus_eqb (Order.status o) OPEN
                                  || OrderStatus_eqb (Order.status o) PARTIALLY_FILLED))
                    (orders d)))).

End OrderModel.

Module TradeModel.

(** [createTrade(tradeData, client)]. *)
Definition createTrade (tradeData : TradeData.t) : M Trade.t :=
  i <- uuidv4 ;;
  t <- get_now ;;
  rethrow_as "Failed to create trade"
    (Schema.insert_trade
       (Trade.mk i
          (TradeData.orderId tradeData)
          (TradeData.userId tradeData)
          (TradeData.symbol tradeData)
          (TradeData.price tradeData)
          (TradeData.quantity tradeData)
          (TradeData.commission tradeData)
          (TradeData.commissionAsset tradeData)
          (TradeData.isBuyer tradeData)
          (TradeData.isMaker tradeData)
          (match TradeData.isBestMatch tradeData with Some b => b | None => true end)
          t)).

(** The [ORDER BY created_at DESC] of the trade queries; rows with equal
    timestamps keep the order of the table. *)
Definition newest_first (a b : Trade.t) : bool :=
  (Trade.createdAt b <? Trade.createdAt a)%nat.

(** [getTradesByOrderId(orderId, userId, client)]. *)
Definition getTradesByOrderId (orderId : Uuid) (userId : UserId) : M (list Trade.t) :=
  d <- get_db ;;
  ret (sort_by newest_first
         (filter (fun t => (Trade.orderId t =? orderId)%nat
                           && String.eqb (Trade.userId t) userId)
                 (trades d))).

(** [getTradesByUserId(userId, symbol, limit, client)]; an empty [symbol] is
    falsy and adds no condition. *)
Definition getTradesByUserId (userId : UserId) (symbol : option string) (limit : nat)
    : M (list Trade.t) :=
  d <- get_db ;;
  ret (firstn limit
         (sort_by newest_first
            (filter (fun t => String.eqb (Trade.userId t) userId
                              && match or_null_string symbol with
                                 | Some s => String.eqb (Trade.symbol t) s
                                 | None => true
                                 end)
                    (trades d)))).

(** [getTradesBySymbol(symbol, limit, client)]. *)
Definition getTradesBySymbol (symbol : string) (limit : nat) : M (list Trade.t) :=
  d <- get_db ;;
  ret (firstn limit
         (sort_by newest_first
            (filter (fun t => String.eqb (Trade.symbol t) symbol) (trades d)))).

End TradeModel.

Inductive BalanceColumn := free_balance | locked_balance.

Module AccountModel.

(** [getBalance(userId, asset, client)]. *)
Definition getBalance (userId : UserId) (asset : string) : M (option Balance.t) :=
  d <- get_db ;;
  ret (Schema.select_balance userId asset d).

(** One [column = $k] of the [DO UPDATE SET] list. *)
Definition assign (values : list SqlValue) (b : Balance.t)
    (u : BalanceColumn * nat) : Balance.t :=
  match option_map as_numeric (param (snd u) values) with
  | Some (Some q) =>
      match fst u with
      | free_balance =>
          Balance.mk (Balance.id b) (Balance.userId b) (Balance.asset b)
            (numeric_round q) (Balance.lockedBalance b) (Balance.updatedAt b)
      | locked_balance =>
          Balance.mk (Balance.id b) (Balance.userId b) (Balance.asset b)
            (Balance.freeBalance b) (numeric_round q) (Balance.updatedAt b)
      end
  | _ => b
  end.

(** The number of parameters of the statement of [updateBalance]: the
    highest placeholder it mentions, [$4] of the VALUES list or one of the
    SET list. *)
Definition placeholders (updatesSet : list (BalanceColumn * nat)) : nat :=
  fold_right Nat.max 4%nat (map snd updatesSet).

(** The statement of [updateBalance]:
    [INSERT INTO account_balances (user_id, asset, free_balance,
    locked_balance) VALUES ($1, $2, $3, $4) ON CONFLICT (user_id, asset)
    DO UPDATE SET <updatesSet>, updated_at = NOW() RETURNING ..]. The
    server refuses the values unless there is one for each parameter of the
    statement, no more and no fewer. The proposed row gets its key, is
    brought to the types of the columns and passes the CHECK constraint
    before the conflict is looked for. *)
Definition upsert_balance (updatesSet : list (BalanceColumn * nat))
    (values : list SqlValue) : M (list Balance.t) :=
  if negb (List.length values =? placeholders updatesSet)%nat then
    throw ("bind message supplies " ++ N_to_string (N.of_nat (List.length values))
           ++ " parameters, but prepared statement requires "
           ++ N_to_string (N.of_nat (placeholders updatesSet)))
  else
  match param 1 values, param 2 values,
        option_map as_numeric (param 3 values), option_map as_numeric (param 4 values) with
  | Some (VText user), Some (VText a), Some (Some free), Some (Some locked) =>
      i <- uuidv4 ;;
      t <- get_now ;;
      d <- get_db ;;
      if negb (varchar_fits 10 a) then throw (Schema.value_too_long 10)
      else
      let proposed := Schema.coerce_balance (Balance.mk i user a free locked t) in
      if negb (Schema.valid_balances proposed) then
        throw "new row for relation account_balances violates check constraint valid_balances"
      else if existsb (Schema.balance_is user (Balance.asset proposed)) (account_balances d) then
        Schema.update_account_balances (Schema.balance_is user (Balance.asset proposed))
          (fun b => fold_left (assign values) updatesSet b) ;;;
        d' <- get_db ;;
        ret (filter (Schema.balance_is user (Balance.asset proposed)) (account_balances d'))
      else
        row <- Schema.store_account_balance proposed ;;
        ret [row]
  | _, _, _, _ => throw "could not bind the parameters of the statement"
  end.

(** [updateBalance(userId, asset, updates, client)], [updates] being
    [{ freeBalance?, lockedBalance? }]. *)
Definition updateBalance (userId : UserId) (asset : string)
    (freeBalance lockedBalance : option SqlValue) : M Balance.t :=
  let updatesSet0 : list (BalanceColumn * nat) := [] in
  let values0 := [VText userId; VText asset] in
  let paramIndex0 := 3%nat in
  let '(updatesSet1, values1, paramIndex1) :=
    match freeBalance with
    | Some f => (updatesSet0 ++ [(free_balance, paramIndex0)],
                 values0 ++ [f], S paramIndex0)
    | None => (updatesSet0, values0, paramIndex0)
    end in
  let '(updatesSet2, values2, paramIndex2) :=
    match lockedBalance with
    | Some l => (updatesSet1 ++ [(locked_balance, paramIndex1)],
                 values1 ++ [l], S paramIndex1)
    | None => (updatesSet1, values1, paramIndex1)
    end in
  if (List.length updatesSet2 =? 0)%nat then throw "No updates provided"
  else
    let values3 := values2 ++ [match freeBalance with Some f => f | None => VNumeric 0 end] in
    let values4 := values3 ++ [match lockedBalance with Some l => l | None => VNumeric 0 end] in
    rethrow_as "Failed to update account balance"
      (rows <- upsert_balance updatesSet2 values4 ;;
       match rows with
       | [] => throw "Failed to update balance"
       | row :: _ => ret row
       end).

(** [createTransaction(transactionData, client)]; the row is stored as
    [PENDING] whatever [transactionData.status] says. *)
Definition createTransaction (transactionData : TransactionData.t) : M Transaction.t :=
  rethrow_as "Failed to create transaction"
    (i <- uuidv4 ;;
     t <- get_now ;;
     Schema.insert_account_transaction
       (Transaction.mk i
          (TransactionData.userId transactionData)
          (TransactionData.type transactionData)
          (TransactionData.asset transactionData)
          (TransactionData.amount transactionData)
          (if Qeqb (TransactionData.fee transactionData) 0 then 0
           else TransactionData.fee transactionData)
          (or_null_string (TransactionData.address transactionData))
          (or_null_string (TransactionData.txHash transactionData))
          TX_PENDING t t)).

End AccountModel.

(** ** The trading service *)

Module TradingService.

(** [this.orderBooks.get(symbol)] and [this.orderBooks.set(symbol, book)]. *)
Fixpoint Map_get (symbol : string) (m : list (string * OrderBook)) : option OrderBook :=
  match m with
  | [] => None
  | (k, v) :: m' => if String.eqb k symbol then Some v else Map_get symbol m'
  end.
Fixpoint Map_set (symbol : string) (book : OrderBook) (m : list (string * OrderBook))
    : list (string * OrderBook) :=
  match m with
  | [] => [(symbol, book)]
  | (k, v) :: m' =>
      if String.eqb k symbol then (k, book) :: m' else (k, v) :: Map_set symbol book m'
  end.

Definition get_orderBook (symbol : string) : M (option OrderBook) :=
  fun w => Returned (Map_get symbol (orderBooks w)) w.
Definition set_orderBook (symbol : string) (book : OrderBook) : M unit :=
  fun w => Returned tt (with_orderBooks w (Map_set symbol book (orderBooks w))).

(** [publishOrderUpdate(order)] and [publishTrade(trade)]: one record stands
    for the WebSocket broadcast and the Kafka message; failures are caught
    and logged by the method itself. *)
Definition publishOrderUpdate (order : Order.t) : M unit := emit (OrderUpdate order).
Definition publishTrade (trade : Trade.t) : M unit := emit (NewTrade trade).

(** [addToOrderBook(order, client)]. *)
Definition addToOrderBook (order : Order.t) : M unit :=
  has <- get_orderBook (Order.symbol order) ;;
  match has with
  | None =>
      openOrders <- OrderModel.getOpenOrdersBySymbol (Order.symbol order) 1000 ;;
      set_orderBook (Order.symbol order)
        (mkBook (filter (fun o => OrderSide_eqb (Order.side o) BUY) openOrders)
                (filter (fun o => OrderSide_eqb (Order.side o) SELL) openOrders))
  | Some _ => ret tt
  end ;;;
  got <- get_orderBook (Order.symbol order) ;;
  match got with
  | None => throw "Cannot read properties of undefined"
  | Some orderBook =>
      match Order.side order with
      | BUY =>
          set_orderBook (Order.symbol order)
            (mkBook (sort_by (fun a b => Qltb (Order.price b - Order.price a) 0)
                             (bids orderBook ++ [order]))
                    (asks orderBook))
      | SELL =>
          set_orderBook (Order.symbol order)
            (mkBook (bids orderBook)
                    (sort_by (fun a b => Qltb (Order.price a - Order.price b) 0)
                             (asks orderBook ++ [order])))
      end
  end.

(** [updateBalancesForTrade(trade, client)]; [trade.quantity] is the text
    of the column, the product a number. *)
Definition updateBalancesForTrade (trade : Trade.t) : M unit :=
  let baseAsset := slice_0_m3 (Trade.symbol trade) in
  let quoteAsset := slice_m3 (Trade.symbol trade) in
  AccountModel.updateBalance (Trade.userId trade) baseAsset
    (Some (VText (numeric_out (Trade.quantity trade)))) None ;;;
  AccountModel.updateBalance (Trade.userId trade) quoteAsset
    (Some (VNumeric (Trade.price trade * Trade.quantity trade))) None ;;;
  ret tt.

(** One pass through the body of the [while] loop of [matchOrders], for a
    book whose sides start with [bestBid] and [bestAsk] that cross. The
    fields of the two orders are texts: the differences and the products are
    numbers, [filledQuantity + quantity] is the text of the one followed by
    the text of the other, and the two tests before [shift()] compare
    texts. *)
Definition matchOrders_body (symbol : string) (bestBid bestAsk : Order.t) : M unit :=
  let quantity :=
    Math_min (Order.quantity bestBid - Order.filledQuantity bestBid)
             (Order.quantity bestAsk - Order.filledQuantity bestAsk) in
  let price := Order.price bestAsk in
  let trade :=
    TradeData.mk (Order.id bestBid) (Order.userId bestBid) symbol price quantity
      (quantity * price * 0.001) (slice_m3 symbol) true false (Some true) in
  createdTrade <- TradeModel.createTrade trade ;;
  OrderModel.updateOrderFilledQuantity (Order.id bestBid)
    (VText (numeric_out (Order.filledQuantity bestBid) ++ Number_toString quantity)) ;;;
  OrderModel.updateOrderFilledQuantity (Order.id bestAsk)
    (VText (numeric_out (Order.filledQuantity bestAsk) ++ Number_toString quantity)) ;;;
  updateBalancesForTrade createdTrade ;;;
  (if String_geb (numeric_out (Order.filledQuantity bestBid))
                 (numeric_out (Order.quantity bestBid)) then
     ob <- get_orderBook symbol ;;
     match ob with
     | Some b => set_orderBook symbol (mkBook (tl (bids b)) (asks b))
     | None => ret tt
     end
   else ret tt) ;;;
  (if String_geb (numeric_out (Order.filledQuantity bestAsk))
                 (numeric_out (Order.quantity bestAsk)) then
     ob <- get_orderBook symbol ;;
     match ob with
     | Some b => set_orderBook symbol (mkBook (bids b) (tl (asks b)))
     | None => ret tt
     end
   else ret tt) ;;;
  publishTrade createdTrade ;;;
  updatedBid <- OrderModel.getOrderById (Order.id bestBid) (Order.userId bestBid) ;;
  updatedAsk <- OrderModel.getOrderById (Order.id bestAsk) (Order.userId bestAsk) ;;
  match updatedBid with Some o => publishOrderUpdate o | None => ret tt end ;;;
  match updatedAsk with Some o => publishOrderUpdate o | None => ret tt end.

(** The [while] loop of [matchOrders]: the condition is tested first, and
    one unit of fuel pays for one pass through the body. The two prices are
    texts, and [>=] compares them as such. *)
Fixpoint matchOrders_loop (fuel : nat) (symbol : string) : M unit :=
  fun w =>
    match Map_get symbol (orderBooks w) with
    | None => Returned tt w
    | Some orderBook =>
        match bids orderBook, asks orderBook with
        | bestBid :: _, bestAsk :: _ =>
            if String_geb (numeric_out (Order.price bestBid))
                          (numeric_out (Order.price bestAsk)) then
              match fuel with
              | O => OutOfFuel
              | S fuel' =>
                  (matchOrders_body symbol bestBid bestAsk ;;;
                   matchOrders_loop fuel' symbol) w
              end
            else Returned tt w
        | _, _ => Returned tt w
        end
    end.

(** [matchOrders(symbol, client)]. *)
Definition matchOrders (fuel : nat) (symbol : string) : M unit :=
  ob <- get_orderBook symbol ;;
  match ob with
  | None => ret tt
  | Some _ => matchOrders_loop fuel symbol
  end.

(** [handleNewOrder(message, client)], the message already parsed. *)
Definition handleNewOrder (fuel : nat) (orderData : OrderData.t) : M unit :=
  order <- OrderModel.createOrder orderData ;;
  addToOrderBook order ;;;
  matchOrders fuel (Order.symbol order) ;;;
  publishOrderUpdate order.

(** [handleCancelOrder(message, client)], the message already parsed. *)
Definition handleCancelOrder (orderId : Uuid) (userId : UserId) : M bool :=
  cancelled <- OrderModel.cancelOrder orderId userId ;;
  match cancelled with
  | None => throw "Order not found or already cancelled"
  | Some cancelledOrder =>
      ob <- get_orderBook (Order.symbol cancelledOrder) ;;
      match ob with
      | Some orderBook =>
          match Order.side cancelledOrder with
          | BUY =>
              set_orderBook (Order.symbol cancelledOrder)
                (mkBook (filter (fun o => negb (Order.id o =? orderId)%nat) (bids orderBook))
                        (asks orderBook))
          | SELL =>
              set_orderBook (Order.symbol cancelledOrder)
                (mkBook (bids orderBook)
                        (filter (fun o => negb (Order.id o =? orderId)%nat) (asks orderBook)))
          end
      | None => ret tt
      end ;;;
      publishOrderUpdate cancelledOrder ;;;
      ret true
  end.

Definition topic_of (message : Message) : string :=
  match message with
  | NewOrders _ => "new-orders"
  | CancelOrders _ _ => "cancel-orders"
  end.

(** The [eachMessage] callback of [initializeConsumers]: the handler runs
    between BEGIN and COMMIT; when it throws, ROLLBACK restores the
    relational state (and nothing else) and the error is published. *)
Definition eachMessage (fuel : nat) (message : Message) : M unit :=
  fun w =>
    match
      (match message with
       | NewOrders orderData => handleNewOrder fuel orderData
       | CancelOrders orderId userId => handleCancelOrder orderId userId ;;; ret tt
       end) w
    with
    | Returned _ w' => Returned tt w'
    | Thrown error w' => emit (TradingError (topic_of message) error) (with_db w' (db w))
    | OutOfFuel => OutOfFuel
    end.

(** [createOrder(orderData)], the public entry point. *)
Definition createOrder (orderData : OrderData.t) : M Order.t :=
  emit (SendNewOrder orderData) ;;;
  i <- uuidv4 ;;
  t <- get_now ;;
  ret (Order.mk i
         (OrderData.userId orderData)
         (OrderData.clientOrderId orderData)
         (OrderData.symbol orderData)
         (OrderData.type orderData)
         (OrderData.side orderData)
         (OrderData.price orderData)
         (OrderData.stopPrice orderData)
         (OrderData.quantity orderData)
         0
         OPEN
         (OrderData.timeInForce orderData)
         (OrderData.icebergQuantity orderData)
         t t
         (OrderData.closedAt orderData)).

(** [cancelOrder(orderId, userId)], the public entry point. *)
Definition cancelOrder (orderId : Uuid) (userId : UserId) : M bool :=
  emit (SendCancelOrder orderId userId) ;;;
  ret true.

(** [depositFunds(userId, asset, amount)]: BEGIN, the two writes, COMMIT;
    on an exception ROLLBACK and the exception again. *)
Definition depositFunds (userId : UserId) (asset : string) (amount : Q)
    : M Transaction.t :=
  fun w =>
    match
      (transaction <- AccountModel.createTransaction
                        (TransactionData.mk userId DEPOSIT asset amount 0 None None
                           TX_COMPLETED) ;;
       AccountModel.updateBalance userId asset (Some (VNumeric amount)) None ;;;
       ret transaction) w
    with
    | Returned transaction w' => Returned transaction w'
    | Thrown error w' => Thrown error (with_db w' (db w))
    | OutOfFuel => OutOfFuel
    end.

(** [withdrawFunds(userId, asset, amount, address)]: BEGIN, the balance
    check, the two writes, COMMIT; on an exception ROLLBACK and the exception
    again. *)
Definition withdrawFunds (userId : UserId) (asset : string) (amount : Q) (address : string)
    : M Transaction.t :=
  fun w =>
    match
      (balance <- AccountModel.getBalance userId asset ;;
       match balance with
       | None => throw "Insufficient balance"
       | Some b =>
           if Qltb (Balance.freeBalance b) amount then throw "Insufficient balance"
           else
             transaction <- AccountModel.createTransaction
                              (TransactionData.mk userId WITHDRAWAL asset amount 0
                                 (Some address) None TX_PENDING) ;;
             AccountModel.updateBalance userId asset
               (Some (VNumeric (- amount))) (Some (VNumeric amount)) ;;;
             ret transaction
       end) w
    with
    | Returned transaction w' => Returned transaction w'
    | Thrown error w' => Thrown error (with_db w' (db w))
    | OutOfFuel => OutOfFuel
    end.

(** [getOrder(orderId, userId)] and [getTrades(userId, symbol, limit)]. *)
Definition getOrder (orderId : Uuid) (userId : UserId) : M (option Order.t) :=
  OrderModel.getOrderById orderId userId.
Definition getTrades (userId : UserId) (symbol : option string) (limit : nat)
    : M (list Trade.t) :=
  TradeModel.getTradesByUserId userId symbol limit.

End TradingService.

(** * Observations used in the statements *)

(** The row [OrderModel.createOrder] inserts for [orderData] under key [i] at
    time [t], with its values as the columns take them. *)
Definition created_row (orderData : OrderData.t) (i : Uuid) (t : Timestamp) : Order.t :=
  Schema.coerce_order
    (Order.mk i
       (OrderData.userId orderData)
       (or_null_string (OrderData.clientOrderId orderData))
       (OrderData.symbol orderData)
       (OrderData.type orderData)
       (OrderData.side orderData)
       (OrderData.price orderData)
       (or_null_number (OrderData.stopPrice orderData))
       (OrderData.quantity orderData)
       0 OPEN
       (OrderData.timeInForce orderData)
       (or_null_number (OrderData.icebergQuantity orderData))
       t t None).

(** The asset and the amount [lock_order_funds] reserves for a submission. *)
Definition lock_asset (orderData : OrderData.t) : string :=
  Schema.asset_to_lock (created_row orderData 0 0).
Definition lock_amount (orderData : OrderData.t) : Q :=
  Schema.amount_to_lock (created_row orderData 0 0).

(** The free balance of a user in an asset, [0] without a row. *)
Definition free_of (user : UserId) (asset : string) (d : Db) : Q :=
  match Schema.select_balance user asset d with
  | Some b => Balance.freeBalance b
  | None => 0
  end.
Definition locked_of (user : UserId) (asset : string) (d : Db) : Q :=
  match Schema.select_balance user asset d with
  | Some b => Balance.lockedBalance b
  | None => 0
  end.

(** The world after a consumer message failed: the relational state and the
    books as they were, the error on [trading-errors], [draws] identifiers
    used up. *)
Definition failed (w : World) (topic error : string) (draws : nat) : World :=
  mkWorld (db w) (orderBooks w) (emitted w ++ [TradingError topic error])
          (draws + uuid w)%nat (now w).

(** The world an outcome ends in, [w] when there is none. *)
Definition world_of {A} (w : World) (o : outcome A) : World :=
  match o with
  | Returned _ w' => w'
  | Thrown _ w' => w'
  | OutOfFuel => w
  end.

(** * Scenarios *)

Module Scenario.

(** Carol holds no BTC and an empty USDT row, and bids for one BTCUSDT. *)
Definition carol_world : World :=
  mkWorld (mkDb ["carol"] [] [] [Balance.mk 0 "carol" "USDT" 0 0 0] [])
          [] [] 1 10.
Definition carol_buys : OrderData.t :=
  OrderData.mk "carol" None "BTCUSDT" LIMIT BUY 30000 None 1 GTC None None.

(** Alice's order 5 was cancelled at time 3; the book of the symbol is
    loaded and empty. *)
Definition alice_cancelled : Order.t :=
  Order.mk 5 "alice" None "BTCUSDT" LIMIT SELL 100 None 1 0 CANCELLED GTC None
           1 3 (Some 3%nat).
Definition cancelled_world : World :=
  mkWorld (mkDb ["alice"] [alice_cancelled] []
                [Balance.mk 0 "alice" "USDT" 1 0 3] [])
          [("BTCUSDT", mkBook [] [])] [] 6 10.

(** Bob's open bid 7 for two BTCUSDT at 100, its funds locked in the row
    the lock trigger chose. *)
Definition bob_open : Order.t :=
  Order.mk 7 "bob" None "BTCUSDT" LIMIT BUY 100 None 2 0 OPEN GTC None 4 4 None.
Definition bob_world : World :=
  mkWorld (mkDb ["bob"] [bob_open] [] [Balance.mk 0 "bob" "BTC" 0 200 4] [])
          [] [] 8 10.

(** Dave's ask 9 for two BTCUSDT, one of them filled. *)
Definition dave_partial : Order.t :=
  Order.mk 9 "dave" None "BTCUSDT" LIMIT SELL 100 None 2 1 PARTIALLY_FILLED GTC None
           4 5 None.
Definition dave_world : World :=
  mkWorld (mkDb ["dave"] [dave_partial] []
                [Balance.mk 0 "dave" "USDT" 0 1 5; Balance.mk 1 "dave" "BTC" 99.9 0 5] [])
          [] [] 10 10.

(** Erin holds 50 free and 5 locked USDT. *)
Definition erin_world : World :=
  mkWorld (mkDb ["erin"] [] [] [Balance.mk 0 "erin" "USDT" 50 5 2] [])
          [] [] 1 10.

(** A market of two: Bob funds a bid and Alice an ask on BTCUSDT, each in
    the asset the lock trigger will debit. *)
Definition market_world : World :=
  mkWorld (mkDb ["alice"; "bob"] [] []
                [Balance.mk 0 "bob" "BTC" 101 0 0; Balance.mk 1 "alice" "USDT" 1 0 0] [])
          [] [] 2 10.
Definition bob_bids : OrderData.t :=
  OrderData.mk "bob" None "BTCUSDT" LIMIT BUY 101 None 1 GTC None None.
Definition alice_asks : OrderData.t :=
  OrderData.mk "alice" None "BTCUSDT" LIMIT SELL 99 None 1 GTC None None.

(** Bob's bid has been consumed and rests in the book. *)
Definition resting_world : World :=
  Eval vm_compute in
    world_of market_world (TradingService.eachMessage 0 (NewOrders bob_bids) market_world).

(** Alice asks 100 instead: as texts, Bob's 101 is not below it. Her ask
    has been stored and added to the book; the loop is about to start. *)
Definition alice_asks_100 : OrderData.t :=
  OrderData.mk "alice" None "BTCUSDT" LIMIT SELL 100 None 1 GTC None None.
Definition alice_order : Order.t :=
  Order.mk 3 "alice" None "BTCUSDT" LIMIT SELL 100 None 1 0 OPEN GTC None 10 10 None.
Definition bob_order : Order.t :=
  Order.mk 2 "bob" None "BTCUSDT" LIMIT BUY 101 None 1 0 OPEN GTC None 10 10 None.
Definition crossing_world : World :=
  Eval vm_compute in
    world_of resting_world
      ((order <- OrderModel.createOrder alice_asks_100 ;;
        TradingService.addToOrderBook order) resting_world).

(** The world the loop is thrown out in, on its first pass: the trade and
    the two filled quantities written, the settlement refused. *)
Definition before_settlement : World :=
  Eval vm_compute in
    world_of crossing_world (TradingService.matchOrders 1 "BTCUSDT" crossing_world).

(** The world once the consumer has dealt with Alice's ask at 100. *)
Definition rolled_back_world : World :=
  Eval vm_compute in
    world_of resting_world
      (TradingService.eachMessage 1 (NewOrders alice_asks_100) resting_world).

(** Carl holds 30000 USDT and 30000 BTC, all free, and bids for one BTCUSDT
    at 30000. *)
Definition carl_world : World :=
  mkWorld (mkDb ["carl"] [] []
                [Balance.mk 0 "carl" "USDT" 30000 0 0; Balance.mk 1 "carl" "BTC" 30000 0 0] [])
          [] [] 2 10.
Definition carl_buys : OrderData.t :=
  OrderData.mk "carl" None "BTCUSDT" LIMIT BUY 30000 None 1 GTC None None.

(** Zed holds 30000 BTC free and an empty USDT row, and bids for one
    BTCUSDT at 30000; Yan holds 30000 USDT free and no BTC, and bids the
    same. *)
Definition zed_world : World :=
  mkWorld (mkDb ["zed"] [] []
                [Balance.mk 0 "zed" "USDT" 0 0 0; Balance.mk 1 "zed" "BTC" 30000 0 0] [])
          [] [] 2 10.
Definition zed_buys : OrderData.t :=
  OrderData.mk "zed" None "BTCUSDT" LIMIT BUY 30000 None 1 GTC None None.
Definition yan_world : World :=
  mkWorld (mkDb ["yan"] [] [] [Balance.mk 0 "yan" "USDT" 30000 0 0] [])
          [] [] 1 10.
Definition yan_buys : OrderData.t :=
  OrderData.mk "yan" None "BTCUSDT" LIMIT BUY 30000 None 1 GTC None None.

(** Pat holds one BTC free and bids for 0.12345678 BTCUSDT at 0.123: the
    product has eleven decimals. *)
Definition pat_world : World :=
  mkWorld (mkDb ["pat"] [] [] [Balance.mk 0 "pat" "BTC" 1 0 0] [])
          [] [] 1 10.
Definition pat_buys : OrderData.t :=
  OrderData.mk "pat" None "BTCUSDT" LIMIT BUY 0.123 None 0.12345678 GTC None None.

(** Bob offers nothing: a bid for 0 BTCUSDT at 101 on the funded market. *)
Definition bob_bids_nothing : OrderData.t :=
  OrderData.mk "bob" None "BTCUSDT" LIMIT BUY 101 None 0 GTC None None.

(** A loaded book of BTCUSDT with bids at 101 and 100 and an ask at 105,
    and two newcomers: a bid at 100 and an ask at 105. *)
Definition bid_at (i : Uuid) (user : UserId) (p : Q) (t : Timestamp) : Order.t :=
  Order.mk i user None "BTCUSDT" LIMIT BUY p None 1 0 OPEN GTC None t t None.
Definition ask_at (i : Uuid) (user : UserId) (p : Q) (t : Timestamp) : Order.t :=
  Order.mk i user None "BTCUSDT" LIMIT SELL p None 1 0 OPEN GTC None t t None.
Definition loaded_world : World :=
  mkWorld (mkDb ["alice"; "bob"] [bid_at 1 "bob" 101 1; bid_at 2 "bob" 100 2;
                                  ask_at 3 "alice" 105 3] [] [] [])
          [("BTCUSDT", mkBook [bid_at 1 "bob" 101 1; bid_at 2 "bob" 100 2]
                              [ask_at 3 "alice" 105 3])]
          [] 6 10.

(** Bob's open bid 7 with the book of its symbol loaded. *)
Definition bob_booked_world : World :=
  mkWorld (mkDb ["bob"] [bob_open] [] [Balance.mk 0 "bob" "BTC" 0 200 4] [])
          [("BTCUSDT", mkBook [bob_open] [])] [] 8 10.

(** The same, but only 150 of the 200 BTC the bid needs are locked. *)
Definition bob_short_world : World :=
  mkWorld (mkDb ["bob"] [bob_open] [] [Balance.mk 0 "bob" "BTC" 50 150 4] [])
          [("BTCUSDT", mkBook [bob_open] [])] [] 8 10.

(** Bob's bid of the funded market stored, the books not yet loaded. *)
Definition stored_world : World :=
  Eval vm_compute in world_of market_world (OrderModel.createOrder bob_bids market_world).

End Scenario.

(** * Frames *)

(** [respects R m]: however [m] ends, by returning or by throwing, the world
    it leaves is [R]-related to the world it started in. *)
Definition respects (R : World -> World -> Prop) {A} (m : M A) : Prop :=
  forall w,
    match m w with
    | Returned _ w' => R w w'
    | Thrown _ w' => R w w'
    | OutOfFuel => True
    end.

Class Frame (R : World -> World -> Prop) : Prop := {
  frame_refl : forall w, R w w;
  frame_trans : forall a b c, R a b -> R b c -> R a c
}.

(** What no statement touches: the books, the clock, the users; and the
    supply of identifiers only moves forward. *)
Definition keeps_books (w w' : World) : Prop :=
  orderBooks w' = orderBooks w /\ now w' = now w /\ users (db w') = users (db w)
  /\ (uuid w <= uuid w')%nat.

(** What the balance and trade statements leave alone as well: the orders. *)
Definition keeps_orders (w w' : World) : Prop :=
  orders (db w') = orders (db w) /\ keeps_books w w'.

(** The table [UPDATE orders SET .. WHERE ..] leaves behind at time [t]. *)
Definition updated_orders (t : Timestamp) (where_ : Order.t -> bool)
    (set : Order.t -> Order.t) (rows : list Order.t) : list Order.t :=
  map (fun o => if where_ o then Schema.touch_order t (set o) else o) rows.

(** The row of [orders] with a given primary key. *)
Definition stored_order (i : Uuid) (d : Db) : option Order.t :=
  find (fun o => Order.id o =? i)%nat (orders d).

(** [ends_in o P Q]: if [o] returned, [P] holds of the value and the world;
    if it threw, [Q] holds of the world. *)
Definition ends_in {A} (o : outcome A) (P : A -> World -> Prop) (Q : World -> Prop) : Prop :=
  match o with
  | Returned a w' => P a w'
  | Thrown _ w' => Q w'
  | OutOfFuel => True
  end.

(** No stored order has identifier [n]. *)
Definition no_order (n : Uuid) (w : World) : Prop :=
  ~ In n (map Order.id (orders (db w))).

(** [avoids n]: the supply moves forward, and once it has passed [n] no step
    stores an order under [n]. *)
Definition avoids (n : Uuid) (w w' : World) : Prop :=
  (uuid w <= uuid w')%nat
  /\ ((n < uuid w)%nat -> no_order n w -> no_order n w').

(** [later w w']: the service got from [w] to [w'] by consuming messages and
    serving calls of its public entry points. *)
Inductive later : World -> World -> Prop :=
| later_now (w : World) : later w w
| later_message (w w1 w2 : World) (fuel : nat) (message : Message) :
    later w w1 ->
    TradingService.eachMessage fuel message w1 = Returned tt w2 ->
    later w w2
| later_createOrder (w w1 w2 : World) (orderData : OrderData.t) (o : Order.t) :
    later w w1 ->
    TradingService.createOrder orderData w1 = Returned o w2 ->
    later w w2
| later_cancelOrder (w w1 w2 : World) (orderId : Uuid) (userId : UserId) (b : bool) :
    later w w1 ->
    TradingService.cancelOrder orderId userId w1 = Returned b w2 ->
    later w w2
| later_deposit (w w1 : World) (userId : UserId) (asset : string) (amount : Q) :
    later w w1 ->
    later w (world_of w1 (TradingService.depositFunds userId asset amount w1)).

(** [in_order before l]: no element of [l] is strictly before its
    predecessor. *)
Definition in_order {A} (before : A -> A -> bool) (l : list A) : Prop :=
  Sorted (fun a b => before b a = false) l.

(** The row [cancelOrder] writes for [o] at time [t]. *)
Definition cancelled_row (t : Timestamp) (o : Order.t) : Order.t :=
  Schema.touch_order t
    (Order.mk (Order.id o) (Order.userId o) (Order.clientOrderId o)
       (Order.symbol o) (Order.type o) (Order.side o) (Order.price o)
       (Order.stopPrice o) (Order.quantity o) (Order.filledQuantity o)
       CANCELLED
       (Order.timeInForce o) (Order.icebergQuantity o)
       (Order.createdAt o) (Order.updatedAt o) (Some t)).

(** The assignments of the unlocking UPDATE, and the balances the unlock
    trigger leaves when order [o] is cancelled in world [w]: an asset name
    does not fit its variable and the trigger gives up, or nothing remains to
    unlock, or the rows are rewritten, or the CHECK constraint refuses and
    the trigger gives up. *)
Definition unlock_row (o : Order.t) (b : Balance.t) : Balance.t :=
  Balance.mk (Balance.id b) (Balance.userId b) (Balance.asset b)
    (Balance.freeBalance b + Schema.amount_to_unlock o)
    (Balance.lockedBalance b - Schema.amount_to_unlock o)
    (Balance.updatedAt b).
Definition balances_after_unlock (o : Order.t) (w : World) : list Balance.t :=
  if negb (Schema.assets_fit (Order.symbol o)) then account_balances (db w)
  else if Qleb (Schema.remaining_quantity o) 0 then account_balances (db w)
  else if forallb (fun b => negb (Schema.balance_is (Order.userId o) (Schema.asset_to_unlock o) b)
                            || Schema.valid_balances
                                 (Schema.touch_balance (now w) (unlock_row o b)))
                  (account_balances (db w))
  then map (fun b => if Schema.balance_is (Order.userId o) (Schema.asset_to_unlock o) b
                     then Schema.touch_balance (now w) (unlock_row o b) else b)
           (account_balances (db w))
  else account_balances (db w).

(** The book of a symbol without the orders of a given identifier on the
    side of a given order. *)
Definition book_without (o : Order.t) (book : OrderBook) : OrderBook :=
  match Order.side o with
  | BUY => mkBook (filter (fun x => negb (Order.id x =? Order.id o)%nat) (bids book))
                  (asks book)
  | SELL => mkBook (bids book)
                   (filter (fun x => negb (Order.id x =? Order.id o)%nat) (asks book))
  end.

(** What the locking UPDATE assigns to a balance row. *)
Definition lock_row (orderData : OrderData.t) (b : Balance.t) : Balance.t :=
  Balance.mk (Balance.id b) (Balance.userId b) (Balance.asset b)
    (Balance.freeBalance b - lock_amount orderData)
    (Balance.lockedBalance b + lock_amount orderData)
    (Balance.updatedAt b).

(** [preserves I]: a step that starts in a relational state satisfying [I]
    leaves one that satisfies it. *)
Definition preserves (I : Db -> Prop) (w w' : World) : Prop := I (db w) -> I (db w').

(** The CHECK constraints as properties of the tables. *)
Definition balances_ok (d : Db) : Prop :=
  Forall (fun b => 0 <= Balance.freeBalance b /\ 0 <= Balance.lockedBalance b)
         (account_balances d).
Definition orders_ok (d : Db) : Prop :=
  Forall (fun o => 0 < Order.quantity o
                   /\ 0 <= Order.filledQuantity o
                   /\ Order.filledQuantity o <= Order.quantity o)
         (orders d).

(** The book of a symbol with [o] pushed on its side and the side sorted, as
    [addToOrderBook] leaves it, and the exit test of the matching loop: the
    text of the best bid's price sorts before the text of the best ask's. *)
Definition book_with (o : Order.t) (book : OrderBook) : OrderBook :=
  match Order.side o with
  | BUY => mkBook (sort_by (fun a b => Qltb (Order.price b - Order.price a) 0)
                           (bids book ++ [o]))
                  (asks book)
  | SELL => mkBook (bids book)
                   (sort_by (fun a b => Qltb (Order.price a - Order.price b) 0)
                            (asks book ++ [o]))
  end.
Definition uncrossed (book : OrderBook) : Prop :=
  match bids book, asks book with
  | bestBid :: _, bestAsk :: _ =>
      String_geb (numeric_out (Order.price bestBid)) (numeric_out (Order.price bestAsk))
      = false
  | _, _ => True
  end.
Definition side_of (o : Order.t) (book : OrderBook) : list Order.t :=
  match Order.side o with
  | BUY => bids book
  | SELL => asks book
  end.

(** What the balance statements leave alone: the trades; and what a row
    pass of an UPDATE of [orders] leaves alone: the supply of identifiers. *)
Definition keeps_trades (w w' : World) : Prop := trades (db w') = trades (db w).
Definition keeps_supply (w w' : World) : Prop := uuid w' = uuid w.

(** Whether a computation came back with a value. *)
Definition has_returned {A} (o : outcome A) : bool :=
  match o with
  | Returned _ _ => true
  | _ => false
  end.

(** [finishes m]: from every world [m] comes back, with a value or with an
    exception. *)
Definition finishes {A} (m : M A) : Prop := forall w, m w <> OutOfFuel.

(** * Properties *)

(** ** Small facts about the state *)

Lemma set_orders_same (d : Db) : Schema.set_orders d (orders d) = d.
Proof. destruct d; reflexivity. Qed.

Lemma with_db_same (w : World) : with_db w (db w) = w.
Proof. destruct w; reflexivity. Qed.

Lemma terminal_not_open (s : OrderStatus) :
  terminal s = true ->
  OrderStatus_eqb s OPEN || OrderStatus_eqb s PARTIALLY_FILLED = false.
Proof. destruct s; simpl; congruence. Qed.

(** A primary key identifies its row. *)
Lemma primary_key_row (rows : list Order.t) (o o' : Order.t) :
  NoDup (map Order.id rows) -> In o rows -> In o' rows ->
  Order.id o' = Order.id o -> o' = o.
Proof.
  induction rows as [|r rows IH]; simpl; intros Hnd Ho Ho' Hid; [contradiction|].
  inversion Hnd as [|? ? Hnotin Hnd']; subst.
  destruct Ho as [->|Ho], Ho' as [->|Ho']; auto.
  - exfalso; apply Hnotin. rewrite <- Hid. now apply in_map.
  - exfalso; apply Hnotin. rewrite Hid. now apply in_map.
Qed.

(** An UPDATE whose condition selects no row writes nothing and runs no
    trigger. *)
Lemma update_orders_rows_none (where_ : Order.t -> bool) (set : Order.t -> Order.t)
    (rows : list Order.t) (w : World) :
  (forall o, In o rows -> where_ o = false) ->
  Schema.update_orders_rows where_ set rows w = Returned (rows, []) w.
Proof.
  induction rows as [|r rows IH]; simpl; intros H; [reflexivity|].
  rewrite (H r) by now left.
  unfold bind. rewrite IH by (intros; apply H; now right). reflexivity.
Qed.

Lemma update_orders_none (b : bool) (where_ : Order.t -> bool) (set : Order.t -> Order.t)
    (w : World) :
  (forall o, In o (orders (db w)) -> where_ o = false) ->
  Schema.update_orders b where_ set w = Returned [] w.
Proof.
  intros H. unfold Schema.update_orders, bind, get_db, put_db.
  rewrite update_orders_rows_none by assumption. simpl.
  rewrite set_orders_same, with_db_same.
  destruct b; reflexivity.
Qed.

(** ** Rounding to the scale of a column *)

Lemma round_half_away_comp (x y : Q) : x == y -> round_half_away x = round_half_away y.
Proof.
  intros H. unfold round_half_away. rewrite H.
  destruct (Qle_bool 0 y); [apply Qfloor_comp|f_equal; apply Qfloor_comp]; now rewrite H.
Qed.

(** Equal rationals round to the same fraction. *)
Lemma numeric_round_comp (x y : Q) : x == y -> numeric_round x = numeric_round y.
Proof.
  intros H. unfold numeric_round.
  rewrite (round_half_away_comp (x * inject_Z (10 ^ 10)) (y * inject_Z (10 ^ 10)));
    [reflexivity|now rewrite H].
Qed.

Lemma round_half_away_nonneg (x : Q) : 0 <= x -> (0 <= round_half_away x)%Z.
Proof.
  intros H. unfold round_half_away.
  apply Qle_bool_iff in H. rewrite H. apply Qle_bool_iff in H.
  change 0%Z with (Qfloor 0). apply Qfloor_resp_le. lra.
Qed.

Lemma numeric_round_nonneg (x : Q) : 0 <= x -> 0 <= numeric_round x.
Proof.
  intros H. unfold numeric_round. rewrite Qred_correct.
  unfold Qle; cbn [Qnum Qden]. rewrite Z.mul_1_r, Z.mul_0_l.
  apply round_half_away_nonneg.
  apply Qmult_le_0_compat; [exact H|]. unfold Qle; simpl; lia.
Qed.

Lemma Qfloor_unique (z : Z) (x : Q) :
  inject_Z z <= x -> x < inject_Z (z + 1) -> Qfloor x = z.
Proof.
  intros Hle Hlt.
  assert (H1 : (z <= Qfloor x)%Z).
  { rewrite <- (Qfloor_Z z). now apply Qfloor_resp_le. }
  assert (H2 : (Qfloor x < z + 1)%Z).
  { rewrite Zlt_Qlt. eapply Qle_lt_trans; [apply Qfloor_le|exact Hlt]. }
  lia.
Qed.

(** A rational with at most ten decimals is its own rounding. *)
Lemma round_half_away_inject (z : Z) : round_half_away (inject_Z z) = z.
Proof.
  unfold round_half_away.
  destruct (Qle_bool 0 (inject_Z z)) eqn:E.
  - apply Qfloor_unique.
    + lra.
    + rewrite inject_Z_plus. change (inject_Z 1) with 1. lra.
  - assert (Qfloor (- inject_Z z + (1 # 2)) = (- z)%Z) as ->; [|lia].
    apply Qfloor_unique.
    + rewrite inject_Z_opp. lra.
    + rewrite inject_Z_plus, inject_Z_opp. change (inject_Z 1) with 1. lra.
Qed.

Lemma numeric_round_decimal (z : Z) : numeric_round (z # 10 ^ 10) == z # 10 ^ 10.
Proof.
  unfold numeric_round. rewrite Qred_correct.
  rewrite (round_half_away_comp _ (inject_Z z)); [now rewrite round_half_away_inject|].
  unfold Qeq, Qmult, inject_Z; simpl. lia.
Qed.

Lemma numeric_round_idem (x : Q) : numeric_round (numeric_round x) = numeric_round x.
Proof.
  unfold numeric_round at 2.
  rewrite (numeric_round_comp _ (round_half_away (x * inject_Z (10 ^ 10)) # 10 ^ 10))
    by apply Qred_correct.
  unfold numeric_round at 1.
  rewrite (round_half_away_comp _ (inject_Z (round_half_away (x * inject_Z (10 ^ 10)))));
    [now rewrite round_half_away_inject|].
  unfold Qeq, Qmult, inject_Z; simpl. lia.
Qed.

(** ** Submitting without funds *)

(** The lock trigger reads the asset and the amount off the row alone. *)
Lemma asset_to_lock_created (orderData : OrderData.t) (i : Uuid) (t : Timestamp) :
  Schema.asset_to_lock (created_row orderData i t) = lock_asset orderData.
Proof. reflexivity. Qed.

Lemma amount_to_lock_created (orderData : OrderData.t) (i : Uuid) (t : Timestamp) :
  Schema.amount_to_lock (created_row orderData i t) = lock_amount orderData.
Proof. reflexivity. Qed.

(** The INSERT of a row whose owner lacks the funds raises, whatever else
    may be wrong with the row, and writes nothing. *)
Lemma insert_order_unfunded (row : Order.t) (w : World) :
  match Schema.select_balance (Order.userId row)
          (Schema.asset_to_lock (Schema.coerce_order row)) (db w) with
  | Some b => Balance.freeBalance b < Schema.amount_to_lock (Schema.coerce_order row)
  | None => True
  end ->
  exists message, Schema.insert_order row w = Thrown message w.
Proof.
  intros H. unfold Schema.insert_order.
  destruct (negb (Schema.client_order_id_fits row)); [eexists; reflexivity|].
  destruct (negb (varchar_fits 20 (Order.symbol row))); [eexists; reflexivity|].
  unfold bind, Schema.lock_order_funds.
  destruct (negb (Schema.assets_fit _)); [eexists; reflexivity|].
  unfold bind, get_db.
  change (Order.userId (Schema.coerce_order row)) with (Order.userId row).
  destruct (Schema.select_balance _ _ (db w)) as [b|]; [|eexists; reflexivity].
  unfold Qltb. destruct (Qle_bool _ _) eqn:E; [|eexists; reflexivity].
  apply Qle_bool_iff in E. exfalso. lra.
Qed.

(** X24: a submission is refused when its owner has no balance row for the
    asset the lock trigger debits, or a free balance below the amount the
    trigger locks: the consumer publishes "Failed to create order", nothing
    is stored, and neither a balance nor an order book changes. *)
Theorem unfunded_submission_is_refused
    (fuel : nat) (w : World) (orderData : OrderData.t) :
  match Schema.select_balance (OrderData.userId orderData) (lock_asset orderData) (db w) with
  | Some b => Balance.freeBalance b < lock_amount orderData
  | None => True
  end ->
  TradingService.eachMessage fuel (NewOrders orderData) w
  = Returned tt (failed w "new-orders" "Failed to create order" 1).
Proof.
  intros H.
  unfold TradingService.eachMessage, TradingService.handleNewOrder,
    OrderModel.createOrder, rethrow_as, bind, uuidv4, get_now.
  cbn [now].
  match goal with
  | |- context [Schema.insert_order ?row ?w'] =>
      destruct (insert_order_unfunded row w') as [message ->]; [exact H|]
  end.
  reflexivity.
Qed.

Lemma unfunded_submission_is_refused_witness :
  match Schema.select_balance "yan" (lock_asset Scenario.yan_buys) (db Scenario.yan_world) with
  | Some b => Balance.freeBalance b < lock_amount Scenario.yan_buys
  | None => True
  end
  /\ TradingService.eachMessage 0 (NewOrders Scenario.yan_buys) Scenario.yan_world
     = Returned tt (failed Scenario.yan_world "new-orders" "Failed to create order" 1).
Proof.
  split.
  - exact I.
  - apply (unfunded_submission_is_refused 0 Scenario.yan_world Scenario.yan_buys).
    exact I.
Defined.

(** C4 at its failing inputs. Zed holds no free USDT, the quote asset of
    BTCUSDT, and bids for one BTCUSDT at 30000: the bid needs 30000 USDT, yet
    it is accepted, stored OPEN and booked, and 30000 of his BTC are locked.
    Carol holds neither USDT nor BTC and bids the same: her bid is refused
    with "Failed to create order", and no order, REJECTED or other, is
    stored. *)
Theorem underfunded_bid_is_accepted_or_dropped :
  free_of "zed" "USDT" (db Scenario.zed_world)
    < OrderData.price Scenario.zed_buys * OrderData.quantity Scenario.zed_buys
  /\ (exists o w',
        TradingService.eachMessage 0 (NewOrders Scenario.zed_buys) Scenario.zed_world
        = Returned tt w'
        /\ orders (db w') = [o]
        /\ Order.userId o = "zed" /\ Order.status o = OPEN
        /\ TradingService.Map_get "BTCUSDT" (orderBooks w') = Some (mkBook [o; o] [])
        /\ emitted w' = [OrderUpdate o]
        /\ free_of "zed" "USDT" (db w') == 0
        /\ locked_of "zed" "USDT" (db w') == 0
        /\ free_of "zed" "BTC" (db w') == 0
        /\ locked_of "zed" "BTC" (db w') == 30000)
  /\ free_of "carol" "USDT" (db Scenario.carol_world)
       < OrderData.price Scenario.carol_buys * OrderData.quantity Scenario.carol_buys
  /\ TradingService.eachMessage 0 (NewOrders Scenario.carol_buys) Scenario.carol_world
     = Returned tt (failed Scenario.carol_world "new-orders" "Failed to create order" 1)
  /\ orders (db (failed Scenario.carol_world "new-orders" "Failed to create order" 1)) = []
  /\ emitted (failed Scenario.carol_world "new-orders" "Failed to create order" 1)
     = [TradingError "new-orders" "Failed to create order"].
Proof.
  split; [reflexivity|].
  split.
  { eexists. eexists. split; [vm_compute; reflexivity|].
    repeat split; try reflexivity. }
  split; [reflexivity|].
  split; [vm_compute; reflexivity|].
  split; reflexivity.
Qed.

(** ** Cancelling twice *)

(** C6, as amended: a cancel command for an order in a terminal state
    (FILLED, CANCELLED, REJECTED, EXPIRED), a second cancel included, fails
    with "Order not found or already cancelled"; the consumer publishes the
    error, and the order record, the balances and the order books are
    unchanged. *)
Theorem cancel_of_terminal_order_is_refused
    (fuel : nat) (w : World) (o : Order.t) (user : UserId) :
  NoDup (map Order.id (orders (db w))) ->
  In o (orders (db w)) ->
  terminal (Order.status o) = true ->
  TradingService.handleCancelOrder (Order.id o) user w
    = Thrown "Order not found or already cancelled" w
  /\ TradingService.eachMessage fuel (CancelOrders (Order.id o) user) w
     = Returned tt (failed w "cancel-orders" "Order not found or already cancelled" 0).
Proof.
  intros Hpk Hin Hterm.
  assert (Hcancel : OrderModel.cancelOrder (Order.id o) user w = Returned None w).
  { unfold OrderModel.cancelOrder, rethrow_as, bind, get_now.
    rewrite update_orders_none; [reflexivity|].
    intros o' Hin'.
    destruct (Nat.eqb_spec (Order.id o') (Order.id o)) as [Hid|]; [|reflexivity].
    rewrite (primary_key_row _ _ _ Hpk Hin Hin' Hid).
    rewrite (terminal_not_open _ Hterm). now rewrite andb_false_r. }
  assert (Hhandle : TradingService.handleCancelOrder (Order.id o) user w
                    = Thrown "Order not found or already cancelled" w).
  { unfold TradingService.handleCancelOrder, bind. now rewrite Hcancel. }
  split; [exact Hhandle|].
  unfold TradingService.eachMessage, bind. rewrite Hhandle.
  unfold emit, failed. simpl. reflexivity.
Qed.

Lemma cancel_of_terminal_order_is_refused_witness :
  TradingService.handleCancelOrder 5 "alice" Scenario.cancelled_world
    = Thrown "Order not found or already cancelled" Scenario.cancelled_world
  /\ TradingService.eachMessage 0 (CancelOrders 5 "alice") Scenario.cancelled_world
     = Returned tt (failed Scenario.cancelled_world "cancel-orders"
                      "Order not found or already cancelled" 0).
Proof.
  apply (cancel_of_terminal_order_is_refused 0 Scenario.cancelled_world
           Scenario.alice_cancelled "alice").
  - repeat constructor. simpl. tauto.
  - simpl. now left.
  - reflexivity.
Defined.

(** C6, as stated, fails: cancelling Alice's already cancelled order does not
    return success, it throws. *)
Lemma second_cancel_throws :
  Order.status Scenario.alice_cancelled = CANCELLED
  /\ In Scenario.alice_cancelled (orders (db Scenario.cancelled_world))
  /\ TradingService.handleCancelOrder 5 "alice" Scenario.cancelled_world
     = Thrown "Order not found or already cancelled" Scenario.cancelled_world.
Proof.
  split; [reflexivity|]. split; [simpl; now left|].
  vm_compute. reflexivity.
Qed.

(** ** Frame rules *)

Section FrameRules.
Context (R : World -> World -> Prop) `{Frame R}.

Lemma respects_ret {A} (a : A) : respects R (ret a).
Proof. intros w. apply frame_refl. Qed.

Lemma respects_throw {A} (e : string) : respects R (@throw A e).
Proof. intros w. apply frame_refl. Qed.

Lemma respects_get_db : respects R get_db.
Proof. intros w. apply frame_refl. Qed.

Lemma respects_get_now : respects R get_now.
Proof. intros w. apply frame_refl. Qed.

Lemma respects_bind {A B} (m : M A) (k : A -> M B) :
  respects R m -> (forall a, respects R (k a)) -> respects R (bind m k).
Proof.
  intros Hm Hk w. unfold bind. specialize (Hm w).
  destruct (m w) as [a w1|e w1|]; auto.
  specialize (Hk a w1). destruct (k a w1); auto; eapply frame_trans; eauto.
Qed.

Lemma respects_rethrow_as {A} (e : string) (m : M A) :
  respects R m -> respects R (rethrow_as e m).
Proof.
  intros Hm w. unfold rethrow_as. specialize (Hm w). destruct (m w); auto.
Qed.

Lemma respects_returned {A} (m : M A) (w w' : World) (a : A) :
  respects R m -> m w = Returned a w' -> R w w'.
Proof. intros Hm E. specialize (Hm w). now rewrite E in Hm. Qed.

Lemma respects_thrown {A} (m : M A) (w w' : World) (e : string) :
  respects R m -> m w = Thrown e w' -> R w w'.
Proof. intros Hm E. specialize (Hm w). now rewrite E in Hm. Qed.
End FrameRules.

Lemma respects_weaken (R R' : World -> World -> Prop) {A} (m : M A) :
  (forall w w', R w w' -> R' w w') -> respects R m -> respects R' m.
Proof.
  intros Hsub Hm w. specialize (Hm w). destruct (m w); auto.
Qed.

#[export] Instance keeps_books_frame : Frame keeps_books.
Proof.
  split; unfold keeps_books.
  - auto.
  - intros a b c (?&?&?&?) (?&?&?&?). repeat split; try congruence. lia.
Qed.

#[export] Instance keeps_orders_frame : Frame keeps_orders.
Proof.
  split; unfold keeps_orders.
  - intros; split; [reflexivity|apply frame_refl].
  - intros a b c [? ?] [? ?]. split; [congruence|eapply frame_trans; eauto].
Qed.

Create HintDb respects.

(** Splits a goal [respects R m] along the shape of [m]. *)
Ltac respects_step :=
  lazymatch goal with
  | |- respects _ (bind _ _) => apply respects_bind; [exact _| |intro]
  | |- respects _ (ret _) => apply respects_ret; exact _
  | |- respects _ (throw _) => apply respects_throw; exact _
  | |- respects _ get_db => apply respects_get_db; exact _
  | |- respects _ get_now => apply respects_get_now; exact _
  | |- respects _ (rethrow_as _ _) => apply respects_rethrow_as
  | |- respects _ (if ?b then _ else _) => destruct b
  | |- respects _ (match ?x with _ => _ end) => destruct x
  | |- respects _ _ => solve [auto with respects]
  end.
Ltac respects_auto := repeat respects_step.

(** *** What the balance and trade statements leave alone *)

Lemma keeps_orders_uuidv4 : respects keeps_orders uuidv4.
Proof. intros w. repeat split; simpl; auto. Qed.

Lemma keeps_orders_emit (e : Event) : respects keeps_orders (emit e).
Proof. intros w. repeat split; simpl; auto. Qed.

Lemma keeps_orders_update_account_balances where_ set :
  respects keeps_orders (Schema.update_account_balances where_ set).
Proof.
  intros w. unfold Schema.update_account_balances, bind, get_db, get_now, put_db, throw.
  destruct (forallb _ _); repeat split; simpl; auto.
Qed.

Lemma keeps_orders_store_account_balance row :
  respects keeps_orders (Schema.store_account_balance row).
Proof.
  intros w. unfold Schema.store_account_balance, bind, get_db, put_db, throw, ret.
  repeat (match goal with |- context [if ?b then _ else _] => destruct b end;
          [repeat split; simpl; auto|]).
  repeat split; simpl; auto.
Qed.

Lemma keeps_orders_insert_trade row : respects keeps_orders (Schema.insert_trade row).
Proof.
  intros w. unfold Schema.insert_trade, bind, get_db, put_db, throw, ret.
  repeat (match goal with |- context [if ?b then _ else _] => destruct b end;
          [repeat split; simpl; auto|]).
  repeat split; simpl; auto.
Qed.

#[export] Hint Resolve keeps_orders_uuidv4 keeps_orders_emit
  keeps_orders_update_account_balances keeps_orders_store_account_balance
  keeps_orders_insert_trade : respects.

Lemma keeps_orders_insert_account_balance user a free locked :
  respects keeps_orders (Schema.insert_account_balance user a free locked).
Proof. unfold Schema.insert_account_balance. respects_auto. Qed.
#[export] Hint Resolve keeps_orders_insert_account_balance : respects.

Lemma keeps_orders_process_order_fill OLD NEW :
  respects keeps_orders (Schema.process_order_fill OLD NEW).
Proof. unfold Schema.process_order_fill. respects_auto. Qed.
#[export] Hint Resolve keeps_orders_process_order_fill : respects.

Lemma keeps_orders_after_update written :
  respects keeps_orders (Schema.after_update_of_filled_quantity written).
Proof.
  induction written as [|[OLD NEW] rest IH]; simpl; respects_auto.
Qed.
#[export] Hint Resolve keeps_orders_after_update : respects.

(** [unlock_order_funds] hands back the row it was given. *)
Lemma unlock_order_funds_returned OLD NEW w :
  exists w', Schema.unlock_order_funds OLD NEW w = Returned NEW w' /\ keeps_orders w w'.
Proof.
  unfold Schema.unlock_order_funds.
  destruct (_ || _); [eexists; split; [reflexivity|apply frame_refl]|].
  destruct (negb (Schema.assets_fit _)); [eexists; split; [reflexivity|apply frame_refl]|].
  destruct (Qleb _ _); [eexists; split; [reflexivity|apply frame_refl]|].
  match goal with |- context [Schema.update_account_balances ?f ?g w] =>
    pose proof (keeps_orders_update_account_balances f g w) as Hk;
    destruct (Schema.update_account_balances f g w) as [[] w1|e w1|] eqn:E
  end.
  - eexists; split; [reflexivity|exact Hk].
  - eexists; split; [reflexivity|apply frame_refl].
  - exfalso. revert E.
    unfold Schema.update_account_balances, bind, get_db, get_now, put_db, throw.
    destruct (forallb _ _); discriminate.
Qed.

(** *** What an UPDATE of [orders] writes *)

Lemma update_orders_rows_returned where_ set rows :
  forall w r w',
    Schema.update_orders_rows where_ set rows w = Returned r w' ->
    fst r = updated_orders (now w) where_ set rows
    /\ snd r = map (fun o => (o, Schema.touch_order (now w) (set o))) (filter where_ rows)
    /\ keeps_orders w w'.
Proof.
  induction rows as [|OLD rest IH]; simpl; intros w r w' E.
  - inversion E; subst. refine (conj eq_refl (conj eq_refl _)). apply frame_refl.
  - destruct (where_ OLD) eqn:Hw.
    + unfold bind at 1 in E. unfold get_now in E.
      unfold bind at 1 in E.
      destruct (unlock_order_funds_returned OLD (set OLD) w) as (w1 & E1 & K1).
      rewrite E1 in E.
      destruct (negb (Schema.valid_quantity _)); [discriminate|].
      destruct (negb (Schema.valid_filled_quantity _)); [discriminate|].
      unfold bind in E.
      destruct (Schema.update_orders_rows where_ set rest w1) as [r1 w2| |] eqn:E2;
        try discriminate.
      inversion E; subst; clear E.
      destruct (IH _ _ _ E2) as (F & S & K2).
      assert (Hnow : now w1 = now w) by apply K1.
      rewrite Hnow in F, S. unfold updated_orders in *.
      cbn [fst snd map filter]. rewrite F, S.
      refine (conj eq_refl (conj eq_refl _)). eapply frame_trans; eauto.
    + unfold bind in E.
      destruct (Schema.update_orders_rows where_ set rest w) as [r1 w2| |] eqn:E2;
        try discriminate.
      inversion E; subst; clear E.
      destruct (IH _ _ _ E2) as (F & S & K2).
      unfold updated_orders in *.
      cbn [fst snd map filter]. rewrite F, S.
      exact (conj eq_refl (conj eq_refl K2)).
Qed.

Lemma update_orders_returned b where_ set w rows w' :
  Schema.update_orders b where_ set w = Returned rows w' ->
  orders (db w') = updated_orders (now w) where_ set (orders (db w))
  /\ rows = map (fun o => Schema.touch_order (now w) (set o)) (filter where_ (orders (db w)))
  /\ keeps_books w w'.
Proof.
  unfold Schema.update_orders. intros E.
  unfold bind at 1 in E. unfold get_db at 1 in E.
  unfold bind at 1 in E.
  destruct (Schema.update_orders_rows where_ set (orders (db w)) w) as [r w1| |] eqn:E1;
    try discriminate.
  destruct (update_orders_rows_returned _ _ _ _ _ _ E1) as (F & S & K1).
  unfold bind at 1 in E. unfold get_db at 1 in E.
  unfold bind at 1 in E. unfold put_db at 1 in E.
  set (w2 := with_db w1 (Schema.set_orders (db w1) (fst r))) in E.
  assert (K2 : orders (db w2) = fst r /\ keeps_books w w2).
  { split; [reflexivity|]. destruct K1 as (_ & ? & ? & ? & ?). repeat split; assumption. }
  unfold bind in E.
  match type of E with
  | context [(if b then ?m else _) w2] =>
      assert (Hm : respects keeps_orders (if b then m else ret tt))
        by (destruct b; respects_auto);
      specialize (Hm w2);
      destruct ((if b then m else ret tt) w2) as [[] w3|e w3|] eqn:E3; try discriminate
  end.
  inversion E; subst; clear E.
  destruct Hm as (Ho & Kb). destruct K2 as (Ho2 & Kb2).
  split; [congruence|]. split.
  - rewrite S, map_map. reflexivity.
  - eapply frame_trans; eauto.
Qed.

Lemma filter_primary_key (rows : list Order.t) (o : Order.t) :
  NoDup (map Order.id rows) -> In o rows ->
  filter (fun x => Order.id x =? Order.id o)%nat rows = [o].
Proof.
  induction rows as [|r rows IH]; simpl; intros Hnd Hin; [contradiction|].
  inversion Hnd as [|? ? Hnotin Hnd']; subst.
  destruct Hin as [->|Hin].
  - rewrite Nat.eqb_refl. f_equal.
    clear IH Hnd. induction rows as [|r rows IH]; simpl in *; [reflexivity|].
    destruct (Nat.eqb_spec (Order.id r) (Order.id o)) as [E|_].
    + exfalso. apply Hnotin. now left.
    + apply IH; [tauto|]. now inversion Hnd'.
  - destruct (Nat.eqb_spec (Order.id r) (Order.id o)) as [E|_].
    + exfalso. apply Hnotin. rewrite E. now apply in_map.
    + now apply IH.
Qed.

Lemma find_updated_order (t : Timestamp) (set : Order.t -> Order.t)
    (rows : list Order.t) (o : Order.t) :
  (forall x, Order.id (set x) = Order.id x) ->
  NoDup (map Order.id rows) -> In o rows ->
  find (fun x => Order.id x =? Order.id o)%nat
       (updated_orders t (fun x => Order.id x =? Order.id o)%nat set rows)
  = Some (Schema.touch_order t (set o)).
Proof.
  intros Hid. unfold updated_orders.
  induction rows as [|r rows IH]; simpl; intros Hnd Hin; [contradiction|].
  inversion Hnd as [|? ? Hnotin Hnd']; subst.
  destruct (Nat.eqb_spec (Order.id r) (Order.id o)) as [E|N].
  - simpl. rewrite Hid, E, Nat.eqb_refl.
    destruct Hin as [->|Hin]; [reflexivity|].
    exfalso. apply Hnotin. rewrite E. now apply in_map.
  - destruct (Nat.eqb_spec (Order.id r) (Order.id o)) as [E|_]; [contradiction|].
    destruct Hin as [->|Hin]; [contradiction|]. now apply IH.
Qed.

(** ** Recording a fill *)

(** What [updateOrderFilledQuantity] stores, whatever the order was. *)
Lemma updateOrderFilledQuantity_returned (w w' : World) (o : Order.t)
    (filledQuantity : SqlValue) (q : Q) (r : option Order.t) :
  NoDup (map Order.id (orders (db w))) ->
  In o (orders (db w)) ->
  as_numeric filledQuantity = Some q ->
  OrderModel.updateOrderFilledQuantity (Order.id o) filledQuantity w = Returned r w' ->
  let o' := Schema.touch_order (now w) (OrderModel.set_filled_quantity q (now w) o) in
  r = Some o' /\ stored_order (Order.id o) (db w') = Some o' /\ keeps_books w w'.
Proof.
  intros Hpk Hin Hq E o'.
  unfold OrderModel.updateOrderFilledQuantity, rethrow_as in E.
  rewrite Hq in E.
  unfold bind at 1 in E. unfold get_now at 1 in E.
  unfold bind in E.
  destruct (Schema.update_orders _ _ _ w) as [rows w1| |] eqn:E1; try discriminate.
  inversion E; subst; clear E.
  destruct (update_orders_returned _ _ _ _ _ _ E1) as (Ho & Hr & Hk).
  rewrite (filter_primary_key _ _ Hpk Hin) in Hr. subst rows.
  split; [reflexivity|]. split; [|exact Hk].
  unfold stored_order. rewrite Ho.
  now apply find_updated_order.
Qed.

(** C7, as amended: when [updateOrderFilledQuantity(id, q)] returns for a
    stored order that is OPEN, or PARTIALLY_FILLED with [q > 0], whose
    [closed_at] is unset, and [0 <= q <= quantity] with [q] of at most ten
    decimals, the stored order has filled quantity [q], is FILLED exactly when
    [q] equals the quantity, PARTIALLY_FILLED exactly when [0 < q < quantity],
    and its [closed_at] is stamped exactly when the resulting status is
    terminal. *)
Theorem update_fill_sets_status_of_open_order
    (w w' : World) (o : Order.t) (filledQuantity : SqlValue) (q : Q)
    (r : option Order.t) :
  NoDup (map Order.id (orders (db w))) ->
  In o (orders (db w)) ->
  Order.status o = OPEN \/ (Order.status o = PARTIALLY_FILLED /\ 0 < q) ->
  Order.closedAt o = None ->
  as_numeric filledQuantity = Some q ->
  0 <= q /\ q <= Order.quantity o ->
  numeric_round q == q ->
  OrderModel.updateOrderFilledQuantity (Order.id o) filledQuantity w = Returned r w' ->
  exists o',
    r = Some o'
    /\ stored_order (Order.id o) (db w') = Some o'
    /\ Order.filledQuantity o' == q
    /\ (Order.status o' = FILLED <-> q == Order.quantity o)
    /\ (Order.status o' = PARTIALLY_FILLED <-> 0 < q /\ q < Order.quantity o)
    /\ Order.closedAt o' = (if terminal (Order.status o') then Some (now w) else None).
Proof.
  intros Hpk Hin Hst Hclosed Hv [Hq0 Hq1] Hten E.
  destruct (updateOrderFilledQuantity_returned _ _ _ _ _ _ Hpk Hin Hv E) as (Hr & Hs & _).
  eexists; split; [exact Hr|]. split; [exact Hs|].
  cbn [Schema.touch_order OrderModel.set_filled_quantity Order.filledQuantity
       Order.status Order.closedAt Order.quantity].
  split; [exact Hten|].
  unfold Qgeb, Qgtb. rewrite Hclosed.
  destruct (Qle_bool (Order.quantity o) q) eqn:Ege.
  - apply Qle_bool_iff in Ege. simpl.
    split; [split; intros; [lra|reflexivity]|].
    split; [split; [discriminate|intros [_ ?]; exfalso; lra]|reflexivity].
  - assert (Hlt : q < Order.quantity o).
    { apply Qnot_le_lt. intros Hle. apply Qle_bool_iff in Hle. congruence. }
    destruct (Qle_bool q 0) eqn:Ele; simpl.
    + apply Qle_bool_iff in Ele.
      destruct Hst as [->|[_ Hpos]]; [|exfalso; lra].
      simpl. split; [split; [discriminate|intros; exfalso; lra]|].
      split; [split; [discriminate|intros [? _]; exfalso; lra]|reflexivity].
    + assert (Hpos : 0 < q).
      { apply Qnot_le_lt. intros Hle. apply Qle_bool_iff in Hle. congruence. }
      split; [split; [discriminate|intros; exfalso; lra]|].
      split; [split; [intros _; split; assumption|reflexivity]|reflexivity].
Qed.

Lemma update_fill_sets_status_of_open_order_witness :
  exists r w',
    OrderModel.updateOrderFilledQuantity 7 (VNumeric 1) Scenario.bob_world = Returned r w'
    /\ exists o',
         r = Some o'
         /\ stored_order 7 (db w') = Some o'
         /\ Order.filledQuantity o' == 1
         /\ (Order.status o' = FILLED <-> 1 == 2)
         /\ (Order.status o' = PARTIALLY_FILLED <-> 0 < 1 /\ 1 < 2)
         /\ Order.closedAt o' = (if terminal (Order.status o') then Some 10%nat else None).
Proof.
  eexists. eexists. split.
  - vm_compute. reflexivity.
  - apply (update_fill_sets_status_of_open_order Scenario.bob_world _ Scenario.bob_open
             (VNumeric 1) 1).
    + repeat constructor. simpl. tauto.
    + simpl. now left.
    + now left.
    + reflexivity.
    + reflexivity.
    + split; discriminate.
    + reflexivity.
    + vm_compute. reflexivity.
Defined.

(** C7, as stated, fails: recording a filled quantity of 0 on Dave's
    partially filled order satisfies [0 <= 0 <= quantity], and the stored order
    stays PARTIALLY_FILLED although its filled quantity is now 0. *)
Lemma zero_fill_stays_partially_filled :
  In Scenario.dave_partial (orders (db Scenario.dave_world))
  /\ 0 <= 0 /\ 0 <= Order.quantity Scenario.dave_partial
  /\ exists r w' o',
       OrderModel.updateOrderFilledQuantity 9 (VNumeric 0) Scenario.dave_world
       = Returned r w'
       /\ stored_order 9 (db w') = Some o'
       /\ Order.filledQuantity o' = 0
       /\ Order.status o' = PARTIALLY_FILLED
       /\ ~ (0 < Order.filledQuantity o').
Proof.
  split; [simpl; now left|]. split; [discriminate|]. split; [discriminate|].
  eexists. eexists. eexists.
  split; [vm_compute; reflexivity|].
  split; [vm_compute; reflexivity|].
  split; [reflexivity|]. split; [reflexivity|].
  simpl. intros H. discriminate H.
Qed.

(** The same call with a quantity below the scale of the column: on Bob's
    open order, [1e-11] is stored as 0 while the CASE, which compares the
    value as it was sent, sets PARTIALLY_FILLED; the stored filled quantity
    not having grown, the fill trigger does not run. *)
Lemma fill_below_the_scale_is_stored_as_zero :
  exists r w' o',
    OrderModel.updateOrderFilledQuantity 7 (VNumeric (1 # 10 ^ 11)) Scenario.bob_world
    = Returned r w'
    /\ stored_order 7 (db w') = Some o'
    /\ Order.filledQuantity o' = 0
    /\ Order.status o' = PARTIALLY_FILLED
    /\ trades (db w') = [].
Proof.
  eexists. eexists. eexists.
  split; [vm_compute; reflexivity|].
  split; [vm_compute; reflexivity|].
  repeat split; reflexivity.
Qed.

(** ** Finding a row *)

Lemma find_none_of_existsb {A} (p : A -> bool) (l : list A) :
  existsb p l = false -> find p l = None.
Proof.
  induction l as [|a l IH]; simpl; [reflexivity|].
  destruct (p a); simpl; [discriminate|exact IH].
Qed.

Lemma find_rewritten {A} (p : A -> bool) (f : A -> A) (l : list A) :
  (forall a, p (f a) = p a) ->
  find p (map (fun a => if p a then f a else a) l) = option_map f (find p l).
Proof.
  intros Hp. induction l as [|a l IH]; simpl; [reflexivity|].
  destruct (p a) eqn:E.
  - now rewrite Hp, E.
  - now rewrite E.
Qed.

(** ** Binding the values of [updateBalance] *)

(** X27: no call of [updateBalance] returns, and none writes. Without
    updates it throws "No updates provided"; with one the statement has four
    parameters and gets five values, with two it gets six, the server refuses
    to bind them, and the call throws "Failed to update account balance". *)
Theorem updateBalance_is_always_refused (user : UserId) (asset : string)
    (freeBalance lockedBalance : option SqlValue) (w : World) :
  exists message,
    AccountModel.updateBalance user asset freeBalance lockedBalance w = Thrown message w
    /\ (freeBalance <> None \/ lockedBalance <> None ->
        message = "Failed to update account balance").
Proof.
  destruct freeBalance as [f|], lockedBalance as [l|];
    eexists; (split; [reflexivity|]); try reflexivity.
  intros [H|H]; congruence.
Qed.

Lemma updateBalance_free_refused (user : UserId) (asset : string) (f : SqlValue)
    (l : option SqlValue) (w : World) :
  AccountModel.updateBalance user asset (Some f) l w
  = Thrown "Failed to update account balance" w.
Proof. destruct l; reflexivity. Qed.

(** Settlement stops at its first statement. *)
Lemma updateBalancesForTrade_refused (trade : Trade.t) (w : World) :
  TradingService.updateBalancesForTrade trade w
  = Thrown "Failed to update account balance" w.
Proof.
  unfold TradingService.updateBalancesForTrade, bind.
  now rewrite updateBalance_free_refused.
Qed.

(** ** Deposits *)

Lemma createTransaction_outcome (transactionData : TransactionData.t) (w : World) :
  (exists x w', AccountModel.createTransaction transactionData w = Returned x w'
                /\ orderBooks w' = orderBooks w /\ emitted w' = emitted w
                /\ uuid w' = S (uuid w) /\ now w' = now w)
  \/ AccountModel.createTransaction transactionData w
     = Thrown "Failed to create transaction"
         (mkWorld (db w) (orderBooks w) (emitted w) (S (uuid w)) (now w)).
Proof.
  unfold AccountModel.createTransaction, rethrow_as, Schema.insert_account_transaction,
    bind, uuidv4, get_now, get_db, put_db, throw, ret.
  cbn [db now].
  repeat (match goal with |- context [if ?b then _ else _] => destruct b end;
          [right; reflexivity|]).
  left. eexists. eexists. split; [reflexivity|]. repeat split.
Qed.



(** ** More frames *)

#[export] Instance avoids_frame (n : Uuid) : Frame (avoids n).
Proof.
  split; unfold avoids.
  - intros w. split; auto.
  - intros a b c [Hab Kab] [Hbc Kbc]. split; [lia|].
    intros Hn Ha. apply Kbc; [lia|]. now apply Kab.
Qed.

Lemma keeps_books_of_keeps_orders {A} (m : M A) :
  respects keeps_orders m -> respects keeps_books m.
Proof. apply respects_weaken. now intros w w' [_ ?]. Qed.

Lemma avoids_of_keeps_orders (n : Uuid) {A} (m : M A) :
  respects keeps_orders m -> respects (avoids n) m.
Proof.
  apply respects_weaken. intros w w' (Ho & _ & _ & _ & Hu).
  split; [exact Hu|]. unfold no_order. now rewrite Ho.
Qed.

#[export] Hint Resolve keeps_books_of_keeps_orders avoids_of_keeps_orders : respects.

Lemma keeps_orders_unlock_order_funds OLD NEW :
  respects keeps_orders (Schema.unlock_order_funds OLD NEW).
Proof.
  intros w. destruct (unlock_order_funds_returned OLD NEW w) as (w' & E & K).
  now rewrite E.
Qed.
#[export] Hint Resolve keeps_orders_unlock_order_funds : respects.

Lemma keeps_orders_update_orders_rows where_ set rows :
  respects keeps_orders (Schema.update_orders_rows where_ set rows).
Proof. induction rows as [|OLD rest IH]; simpl; respects_auto. Qed.
#[export] Hint Resolve keeps_orders_update_orders_rows : respects.

(** How an UPDATE of [orders] can end: it returned and wrote the rows, or it
    threw, before the write or after it. *)
Lemma update_orders_outcome b where_ set w :
  ends_in (Schema.update_orders b where_ set w)
    (fun _ w' => orders (db w') = updated_orders (now w) where_ set (orders (db w))
                 /\ keeps_books w w')
    (fun w' => (orders (db w') = orders (db w)
                \/ orders (db w') = updated_orders (now w) where_ set (orders (db w)))
               /\ keeps_books w w').
Proof.
  destruct (Schema.update_orders b where_ set w) as [rows w'|e w'|] eqn:E; simpl; auto.
  - destruct (update_orders_returned _ _ _ _ _ _ E) as (? & _ & ?). now split.
  - unfold Schema.update_orders in E.
    unfold bind at 1 in E. unfold get_db at 1 in E.
    unfold bind at 1 in E.
    pose proof (keeps_orders_update_orders_rows where_ set (orders (db w)) w) as K1.
    destruct (Schema.update_orders_rows where_ set (orders (db w)) w) as [r w1|e1 w1|] eqn:E1;
      try discriminate.
    + destruct (update_orders_rows_returned _ _ _ _ _ _ E1) as (F & _ & _).
      unfold bind at 1 in E. unfold get_db at 1 in E.
      unfold bind at 1 in E. unfold put_db at 1 in E.
      set (w2 := with_db w1 (Schema.set_orders (db w1) (fst r))) in E.
      unfold bind in E.
      match type of E with
      | context [(if b then ?m else _) w2] =>
          assert (Hm : respects keeps_orders (if b then m else ret tt))
            by (destruct b; respects_auto);
          specialize (Hm w2);
          destruct ((if b then m else ret tt) w2) as [[] w3|e3 w3|] eqn:E3; try discriminate
      end.
      inversion E; subst; clear E.
      destruct Hm as (Ho & Kb). destruct K1 as (_ & K1).
      split.
      * right. rewrite Ho. simpl. exact F.
      * eapply frame_trans; [|exact Kb].
        destruct K1 as (? & ? & ? & ?). repeat split; assumption.
    + inversion E; subst; clear E. destruct K1 as (Ho & Kb). split; auto.
Qed.

Lemma keeps_books_update_orders b where_ set :
  respects keeps_books (Schema.update_orders b where_ set).
Proof.
  intros w. pose proof (update_orders_outcome b where_ set w) as H.
  destruct (Schema.update_orders b where_ set w); simpl in H; tauto.
Qed.

Lemma updated_orders_ids t where_ set rows :
  (forall x, Order.id (set x) = Order.id x) ->
  map Order.id (updated_orders t where_ set rows) = map Order.id rows.
Proof.
  intros Hid. unfold updated_orders. rewrite map_map. apply map_ext.
  intros x. destruct (where_ x); [simpl; apply Hid|reflexivity].
Qed.

Lemma avoids_update_orders (n : Uuid) b where_ set :
  (forall x, Order.id (set x) = Order.id x) ->
  respects (avoids n) (Schema.update_orders b where_ set).
Proof.
  intros Hid w. pose proof (update_orders_outcome b where_ set w) as H.
  destruct (Schema.update_orders b where_ set w) as [rows w'|e w'|]; simpl in H; auto.
  - destruct H as (Ho & _ & _ & _ & Hu). split; [exact Hu|].
    unfold no_order. now rewrite Ho, updated_orders_ids.
  - destruct H as (Ho & _ & _ & _ & Hu). split; [exact Hu|].
    unfold no_order. destruct Ho as [-> | ->]; [auto|now rewrite updated_orders_ids].
Qed.

(** How the INSERT of an order can end. *)
Lemma insert_order_outcome row w :
  ends_in (Schema.insert_order row w)
    (fun r w' => r = Schema.coerce_order row
                 /\ orders (db w') = orders (db w) ++ [Schema.coerce_order row]
                 /\ keeps_books w w')
    (fun w' => keeps_orders w w').
Proof.
  unfold Schema.insert_order, Schema.lock_order_funds.
  destruct (negb (Schema.client_order_id_fits row)); [simpl; apply frame_refl|].
  destruct (negb (varchar_fits 20 (Order.symbol row))); [simpl; apply frame_refl|].
  unfold bind at 1.
  destruct (negb (Schema.assets_fit _)); [simpl; apply frame_refl|].
  unfold bind at 1. unfold get_db at 1.
  destruct (Schema.select_balance _ _ _) as [current|]; [|simpl; apply frame_refl].
  destruct (Qltb _ _); [simpl; apply frame_refl|].
  unfold bind at 1.
  match goal with |- context [Schema.update_account_balances ?f ?g w] =>
    pose proof (keeps_orders_update_account_balances f g w) as K;
    destruct (Schema.update_account_balances f g w) as [[] w1|e w1|]; simpl; auto
  end.
  unfold bind, get_db, put_db, throw, ret.
  repeat (match goal with |- context [if ?c then _ else _] => destruct c end;
          [simpl; exact K|]).
  simpl. destruct K as (Ho & ? & ? & ? & ?). rewrite Ho.
  repeat split; assumption.
Qed.

Lemma keeps_books_insert_order row : respects keeps_books (Schema.insert_order row).
Proof.
  intros w. pose proof (insert_order_outcome row w) as H.
  destruct (Schema.insert_order row w); simpl in H; [tauto|apply H|exact I].
Qed.

Lemma keeps_orders_insert_account_transaction row :
  respects keeps_orders (Schema.insert_account_transaction row).
Proof.
  intros w. unfold Schema.insert_account_transaction, bind, get_db, put_db, throw, ret.
  repeat (match goal with |- context [if ?b then _ else _] => destruct b end;
          [repeat split; simpl; auto|]).
  repeat split; simpl; auto.
Qed.

#[export] Hint Resolve keeps_books_update_orders keeps_books_insert_order
  keeps_orders_insert_account_transaction : respects.

(** *** The models and the service *)

Lemma keeps_orders_createTrade tradeData :
  respects keeps_orders (TradeModel.createTrade tradeData).
Proof. unfold TradeModel.createTrade. respects_auto. Qed.

Lemma keeps_orders_getOrderById orderId userId :
  respects keeps_orders (OrderModel.getOrderById orderId userId).
Proof. unfold OrderModel.getOrderById. respects_auto. Qed.

Lemma keeps_orders_getOpenOrdersBySymbol symbol limit :
  respects keeps_orders (OrderModel.getOpenOrdersBySymbol symbol limit).
Proof. unfold OrderModel.getOpenOrdersBySymbol. respects_auto. Qed.

Lemma keeps_orders_upsert_balance updatesSet values :
  respects keeps_orders (AccountModel.upsert_balance updatesSet values).
Proof. unfold AccountModel.upsert_balance. respects_auto. Qed.
#[export] Hint Resolve keeps_orders_createTrade keeps_orders_getOrderById
  keeps_orders_getOpenOrdersBySymbol keeps_orders_upsert_balance : respects.

Lemma keeps_orders_updateBalance userId asset freeBalance lockedBalance :
  respects keeps_orders (AccountModel.updateBalance userId asset freeBalance lockedBalance).
Proof.
  unfold AccountModel.updateBalance.
  destruct freeBalance, lockedBalance; simpl; respects_auto.
Qed.

Lemma keeps_orders_createTransaction transactionData :
  respects keeps_orders (AccountModel.createTransaction transactionData).
Proof. unfold AccountModel.createTransaction. respects_auto. Qed.
#[export] Hint Resolve keeps_orders_updateBalance keeps_orders_createTransaction : respects.

Lemma keeps_orders_updateBalancesForTrade trade :
  respects keeps_orders (TradingService.updateBalancesForTrade trade).
Proof. unfold TradingService.updateBalancesForTrade. respects_auto. Qed.

Lemma keeps_orders_publishTrade trade :
  respects keeps_orders (TradingService.publishTrade trade).
Proof. unfold TradingService.publishTrade. respects_auto. Qed.

Lemma keeps_orders_publishOrderUpdate order :
  respects keeps_orders (TradingService.publishOrderUpdate order).
Proof. unfold TradingService.publishOrderUpdate. respects_auto. Qed.
#[export] Hint Resolve keeps_orders_updateBalancesForTrade keeps_orders_publishTrade
  keeps_orders_publishOrderUpdate : respects.

Lemma keeps_books_updateOrderFilledQuantity orderId filledQuantity :
  respects keeps_books (OrderModel.updateOrderFilledQuantity orderId filledQuantity).
Proof. unfold OrderModel.updateOrderFilledQuantity. respects_auto. Qed.

Lemma keeps_books_cancelOrder orderId userId :
  respects keeps_books (OrderModel.cancelOrder orderId userId).
Proof. unfold OrderModel.cancelOrder. respects_auto. Qed.

Lemma keeps_books_createOrder orderData :
  respects keeps_books (OrderModel.createOrder orderData).
Proof. unfold OrderModel.createOrder. respects_auto. Qed.
#[export] Hint Resolve keeps_books_updateOrderFilledQuantity keeps_books_cancelOrder
  keeps_books_createOrder : respects.

(** ** How the scenario of the crossing submission is reached *)

Lemma resting_world_reached :
  TradingService.eachMessage 0 (NewOrders Scenario.bob_bids) Scenario.market_world
  = Returned tt Scenario.resting_world.
Proof. vm_compute. reflexivity. Qed.

Lemma crossing_world_reached :
  (order <- OrderModel.createOrder Scenario.alice_asks_100 ;;
   TradingService.addToOrderBook order ;;; ret order) Scenario.resting_world
  = Returned Scenario.alice_order Scenario.crossing_world.
Proof. vm_compute. reflexivity. Qed.

Lemma crossing_world_book :
  TradingService.Map_get "BTCUSDT" (orderBooks Scenario.crossing_world)
  = Some (mkBook [Scenario.bob_order; Scenario.bob_order] [Scenario.alice_order]).
Proof. reflexivity. Qed.

Lemma matching_is_thrown_out :
  TradingService.matchOrders 1 "BTCUSDT" Scenario.crossing_world
  = Thrown "Failed to update account balance" Scenario.before_settlement.
Proof. vm_compute. reflexivity. Qed.

(** ** Coming back *)

Lemma finishes_ret {A} (a : A) : finishes (ret a).
Proof. intros w. discriminate. Qed.

Lemma finishes_throw {A} (e : string) : finishes (@throw A e).
Proof. intros w. discriminate. Qed.

Lemma finishes_get_db : finishes get_db.
Proof. intros w. discriminate. Qed.

Lemma finishes_get_now : finishes get_now.
Proof. intros w. discriminate. Qed.

Lemma finishes_put_db d : finishes (put_db d).
Proof. intros w. discriminate. Qed.

Lemma finishes_uuidv4 : finishes uuidv4.
Proof. intros w. discriminate. Qed.

Lemma finishes_emit e : finishes (emit e).
Proof. intros w. discriminate. Qed.

Lemma finishes_get_orderBook symbol : finishes (TradingService.get_orderBook symbol).
Proof. intros w. discriminate. Qed.

Lemma finishes_set_orderBook symbol book :
  finishes (TradingService.set_orderBook symbol book).
Proof. intros w. discriminate. Qed.

Lemma finishes_bind {A B} (m : M A) (k : A -> M B) :
  finishes m -> (forall a, finishes (k a)) -> finishes (bind m k).
Proof.
  intros Hm Hk w. unfold bind. specialize (Hm w).
  destruct (m w) as [a w1|e w1|]; [apply Hk|discriminate|contradiction].
Qed.

Lemma finishes_rethrow_as {A} (e : string) (m : M A) :
  finishes m -> finishes (rethrow_as e m).
Proof.
  intros Hm w. unfold rethrow_as. specialize (Hm w).
  destruct (m w); [discriminate|discriminate|contradiction].
Qed.

Create HintDb finishes.
#[export] Hint Resolve finishes_put_db finishes_uuidv4 finishes_emit
  finishes_get_orderBook finishes_set_orderBook : finishes.

(** Splits a goal [finishes m] along the shape of [m]. *)
Ltac finishes_step :=
  lazymatch goal with
  | |- finishes (bind _ _) => apply finishes_bind; [|intro]
  | |- finishes (ret _) => apply finishes_ret
  | |- finishes (throw _) => apply finishes_throw
  | |- finishes get_db => apply finishes_get_db
  | |- finishes get_now => apply finishes_get_now
  | |- finishes (rethrow_as _ _) => apply finishes_rethrow_as
  | |- finishes (if ?b then _ else _) => destruct b
  | |- finishes (match ?x with _ => _ end) => destruct x
  | |- finishes _ => solve [auto with finishes]
  end.
Ltac finishes_auto := repeat finishes_step.

Lemma finishes_update_account_balances where_ set :
  finishes (Schema.update_account_balances where_ set).
Proof. unfold Schema.update_account_balances. finishes_auto. Qed.

Lemma finishes_store_account_balance row : finishes (Schema.store_account_balance row).
Proof. unfold Schema.store_account_balance. finishes_auto. Qed.

Lemma finishes_insert_trade row : finishes (Schema.insert_trade row).
Proof. unfold Schema.insert_trade. finishes_auto. Qed.

Lemma finishes_insert_account_transaction row :
  finishes (Schema.insert_account_transaction row).
Proof. unfold Schema.insert_account_transaction. finishes_auto. Qed.
#[export] Hint Resolve finishes_update_account_balances finishes_store_account_balance
  finishes_insert_trade finishes_insert_account_transaction : finishes.

Lemma finishes_insert_account_balance user a free locked :
  finishes (Schema.insert_account_balance user a free locked).
Proof. unfold Schema.insert_account_balance. finishes_auto. Qed.
#[export] Hint Resolve finishes_insert_account_balance : finishes.

Lemma finishes_lock_order_funds NEW : finishes (Schema.lock_order_funds NEW).
Proof. unfold Schema.lock_order_funds. finishes_auto. Qed.

Lemma finishes_unlock_order_funds OLD NEW : finishes (Schema.unlock_order_funds OLD NEW).
Proof.
  intros w. destruct (unlock_order_funds_returned OLD NEW w) as (w' & -> & _).
  discriminate.
Qed.

Lemma finishes_process_order_fill OLD NEW : finishes (Schema.process_order_fill OLD NEW).
Proof. unfold Schema.process_order_fill. finishes_auto. Qed.
#[export] Hint Resolve finishes_lock_order_funds finishes_unlock_order_funds
  finishes_process_order_fill : finishes.

Lemma finishes_insert_order row : finishes (Schema.insert_order row).
Proof. unfold Schema.insert_order. finishes_auto. Qed.

Lemma finishes_update_orders_rows where_ set rows :
  finishes (Schema.update_orders_rows where_ set rows).
Proof. induction rows as [|OLD rest IH]; simpl; finishes_auto. Qed.

Lemma finishes_after_update written :
  finishes (Schema.after_update_of_filled_quantity written).
Proof. induction written as [|[OLD NEW] rest IH]; simpl; finishes_auto. Qed.
#[export] Hint Resolve finishes_insert_order finishes_update_orders_rows
  finishes_after_update : finishes.

Lemma finishes_update_orders b where_ set : finishes (Schema.update_orders b where_ set).
Proof. unfold Schema.update_orders. finishes_auto. Qed.
#[export] Hint Resolve finishes_update_orders : finishes.

Lemma finishes_createOrder orderData : finishes (OrderModel.createOrder orderData).
Proof. unfold OrderModel.createOrder. finishes_auto. Qed.

Lemma finishes_cancelOrder orderId userId : finishes (OrderModel.cancelOrder orderId userId).
Proof. unfold OrderModel.cancelOrder. finishes_auto. Qed.

Lemma finishes_updateOrderFilledQuantity orderId filledQuantity :
  finishes (OrderModel.updateOrderFilledQuantity orderId filledQuantity).
Proof. unfold OrderModel.updateOrderFilledQuantity. finishes_auto. Qed.

Lemma finishes_getOpenOrdersBySymbol symbol limit :
  finishes (OrderModel.getOpenOrdersBySymbol symbol limit).
Proof. unfold OrderModel.getOpenOrdersBySymbol. finishes_auto. Qed.

Lemma finishes_createTrade tradeData : finishes (TradeModel.createTrade tradeData).
Proof. unfold TradeModel.createTrade. finishes_auto. Qed.
#[export] Hint Resolve finishes_createOrder finishes_cancelOrder
  finishes_updateOrderFilledQuantity finishes_getOpenOrdersBySymbol
  finishes_createTrade : finishes.

Lemma finishes_addToOrderBook order : finishes (TradingService.addToOrderBook order).
Proof. unfold TradingService.addToOrderBook. finishes_auto. Qed.

Lemma finishes_publishOrderUpdate order : finishes (TradingService.publishOrderUpdate order).
Proof. unfold TradingService.publishOrderUpdate. finishes_auto. Qed.
#[export] Hint Resolve finishes_addToOrderBook finishes_publishOrderUpdate : finishes.

Lemma finishes_handleCancelOrder orderId userId :
  finishes (TradingService.handleCancelOrder orderId userId).
Proof. unfold TradingService.handleCancelOrder. finishes_auto. Qed.
#[export] Hint Resolve finishes_handleCancelOrder : finishes.

(** ** The matching loop *)

(** No pass through the body of the loop completes: when the trade and the
    two filled quantities have been written, the settlement throws. The books
    are as they were. *)
Lemma matchOrders_body_thrown (symbol : string) (bestBid bestAsk : Order.t) (w : World) :
  exists message w',
    TradingService.matchOrders_body symbol bestBid bestAsk w = Thrown message w'
    /\ keeps_books w w'.
Proof.
  unfold TradingService.matchOrders_body.
  unfold bind at 1.
  match goal with |- context [TradeModel.createTrade ?d w] =>
    pose proof (keeps_orders_createTrade d w) as K1;
    pose proof (finishes_createTrade d w) as F1;
    destruct (TradeModel.createTrade d w) as [t w1|e w1|]; [|..]
  end.
  2: { eexists; eexists; split; [reflexivity|apply K1]. }
  2: { contradiction. }
  unfold bind at 1.
  match goal with |- context [OrderModel.updateOrderFilledQuantity ?i ?v w1] =>
    pose proof (keeps_books_updateOrderFilledQuantity i v w1) as K2;
    pose proof (finishes_updateOrderFilledQuantity i v w1) as F2;
    destruct (OrderModel.updateOrderFilledQuantity i v w1) as [r2 w2|e w2|]; [|..]
  end.
  2: { eexists; eexists; split; [reflexivity|].
       eapply frame_trans; [apply K1|exact K2]. }
  2: { contradiction. }
  unfold bind at 1.
  match goal with |- context [OrderModel.updateOrderFilledQuantity ?i ?v w2] =>
    pose proof (keeps_books_updateOrderFilledQuantity i v w2) as K3;
    pose proof (finishes_updateOrderFilledQuantity i v w2) as F3;
    destruct (OrderModel.updateOrderFilledQuantity i v w2) as [r3 w3|e w3|]; [|..]
  end.
  2: { eexists; eexists; split; [reflexivity|].
       eapply frame_trans; [apply K1|]. eapply frame_trans; [exact K2|exact K3]. }
  2: { contradiction. }
  unfold bind at 1. rewrite updateBalancesForTrade_refused.
  eexists; eexists; split; [reflexivity|].
  eapply frame_trans; [apply K1|]. eapply frame_trans; [exact K2|exact K3].
Qed.

(** With fuel for one pass the loop comes back: it leaves at once when a
    side is empty or the text of the best bid's price sorts before the text of
    the best ask's, and is thrown out of its first pass otherwise. *)
Lemma matchOrders_loop_outcome (fuel : nat) (symbol : string) (w : World) :
  TradingService.matchOrders_loop (S fuel) symbol w = Returned tt w
  \/ exists message w',
       TradingService.matchOrders_loop (S fuel) symbol w = Thrown message w'
       /\ keeps_books w w'.
Proof.
  cbn [TradingService.matchOrders_loop].
  destruct (TradingService.Map_get symbol (orderBooks w)) as [[[|b bs] [|a as_]]|];
    try (left; reflexivity).
  cbn [bids asks]. destruct (String_geb _ _); [|left; reflexivity].
  right. unfold bind.
  destruct (matchOrders_body_thrown symbol b a w) as (message & w' & -> & K).
  eauto.
Qed.

Lemma matchOrders_outcome (fuel : nat) (symbol : string) (w : World) :
  TradingService.matchOrders (S fuel) symbol w = Returned tt w
  \/ exists message w',
       TradingService.matchOrders (S fuel) symbol w = Thrown message w'
       /\ keeps_books w w'.
Proof.
  unfold TradingService.matchOrders, bind, TradingService.get_orderBook.
  destruct (TradingService.Map_get symbol (orderBooks w)); [|left; reflexivity].
  apply matchOrders_loop_outcome.
Qed.

Lemma finishes_matchOrders (fuel : nat) (symbol : string) :
  finishes (TradingService.matchOrders (S fuel) symbol).
Proof.
  intros w. destruct (matchOrders_outcome fuel symbol w) as [-> | (m & w' & -> & _)];
    discriminate.
Qed.
#[export] Hint Resolve finishes_matchOrders : finishes.

Lemma finishes_handleNewOrder (fuel : nat) orderData :
  finishes (TradingService.handleNewOrder (S fuel) orderData).
Proof. unfold TradingService.handleNewOrder. finishes_auto. Qed.

(** The consumer always comes back, the error of its handler published. *)
Lemma eachMessage_returns (fuel : nat) (message : Message) (w : World) :
  exists w', TradingService.eachMessage (S fuel) message w = Returned tt w'.
Proof.
  unfold TradingService.eachMessage.
  match goal with |- context [match ?h w with _ => _ end] =>
    assert (F : finishes h)
      by (destruct message;
          [apply finishes_handleNewOrder
          |apply finishes_bind; [apply finishes_handleCancelOrder|intro; apply finishes_ret]]);
    specialize (F w); destruct (h w) as [[] w'|e w'|]
  end.
  - eauto.
  - unfold emit. eauto.
  - contradiction.
Qed.

(** ** Locking *)

(** C5 at its failing input: for a BUY on BTCUSDT the lock trigger takes the
    first three letters, BTC, for the asset to debit (and the remaining four,
    USDT, for a SELL); Carl's bid for 1 at 30000 moves 30000 of his BTC from
    free to locked and leaves his USDT alone. *)
Theorem buy_lock_debits_the_leading_asset :
  lock_asset Scenario.carl_buys = "BTC"
  /\ Schema.base_asset "BTCUSDT" = "USDT"
  /\ Schema.quote_asset "BTCUSDT" = "BTC"
  /\ exists o w',
       OrderModel.createOrder Scenario.carl_buys Scenario.carl_world = Returned o w'
       /\ free_of "carl" "USDT" (db w') == 30000
       /\ locked_of "carl" "USDT" (db w') == 0
       /\ free_of "carl" "BTC" (db w') == 0
       /\ locked_of "carl" "BTC" (db w') == 30000.
Proof.
  split; [reflexivity|]. split; [reflexivity|]. split; [reflexivity|].
  eexists. eexists. split; [vm_compute; reflexivity|].
  repeat split; reflexivity.
Qed.

(** ** Identifiers *)

Lemma avoids_uuidv4 (n : Uuid) : respects (avoids n) uuidv4.
Proof. auto with respects. Qed.

Lemma avoids_get_orderBook (n : Uuid) symbol :
  respects (avoids n) (TradingService.get_orderBook symbol).
Proof. intros w. apply frame_refl. Qed.

Lemma avoids_set_orderBook (n : Uuid) symbol book :
  respects (avoids n) (TradingService.set_orderBook symbol book).
Proof. intros w. simpl. split; auto. Qed.
#[export] Hint Resolve avoids_get_orderBook avoids_set_orderBook : respects.

(** How [OrderModel.createOrder] can end: the row it returns is keyed by the
    identifier it drew. *)
Lemma createOrder_outcome orderData w :
  ends_in (OrderModel.createOrder orderData w)
    (fun o w' => Order.id o = uuid w
                 /\ orders (db w') = orders (db w) ++ [o]
                 /\ (uuid w < uuid w')%nat)
    (fun w' => orders (db w') = orders (db w) /\ (uuid w < uuid w')%nat).
Proof.
  unfold OrderModel.createOrder, rethrow_as.
  unfold bind at 1. unfold uuidv4 at 1.
  unfold bind at 1. unfold get_now at 1. cbn [now].
  match goal with |- context [Schema.insert_order ?row ?w0] =>
    pose proof (insert_order_outcome row w0) as H;
    destruct (Schema.insert_order row w0) as [r w'|e w'|]; simpl in *; auto
  end.
  - destruct H as (-> & Ho & _ & _ & _ & Hu). simpl in *. repeat split; [exact Ho|lia].
  - destruct H as (Ho & _ & _ & _ & Hu). simpl in *. split; [exact Ho|lia].
Qed.

Lemma avoids_createOrder (n : Uuid) orderData :
  respects (avoids n) (OrderModel.createOrder orderData).
Proof.
  intros w. pose proof (createOrder_outcome orderData w) as H.
  destruct (OrderModel.createOrder orderData w) as [o w'|e w'|]; simpl in H; auto.
  - destruct H as (Hid & Ho & Hu). split; [lia|].
    unfold no_order. intros Hn Hno. rewrite Ho, map_app, in_app_iff. simpl.
    intros [Hin|[Heq|[]]]; [auto|lia].
  - destruct H as (Ho & Hu). split; [lia|]. unfold no_order. now rewrite Ho.
Qed.

Lemma avoids_updateOrderFilledQuantity (n : Uuid) orderId filledQuantity :
  respects (avoids n) (OrderModel.updateOrderFilledQuantity orderId filledQuantity).
Proof.
  unfold OrderModel.updateOrderFilledQuantity. respects_auto.
  apply avoids_update_orders. reflexivity.
Qed.

Lemma avoids_cancelOrder (n : Uuid) orderId userId :
  respects (avoids n) (OrderModel.cancelOrder orderId userId).
Proof.
  unfold OrderModel.cancelOrder. respects_auto.
  apply avoids_update_orders. reflexivity.
Qed.
#[export] Hint Resolve avoids_createOrder avoids_updateOrderFilledQuantity
  avoids_cancelOrder : respects.

Lemma avoids_addToOrderBook (n : Uuid) order :
  respects (avoids n) (TradingService.addToOrderBook order).
Proof. unfold TradingService.addToOrderBook. respects_auto. Qed.

Lemma avoids_matchOrders_body (n : Uuid) symbol bestBid bestAsk :
  respects (avoids n) (TradingService.matchOrders_body symbol bestBid bestAsk).
Proof. unfold TradingService.matchOrders_body. respects_auto. Qed.
#[export] Hint Resolve avoids_addToOrderBook avoids_matchOrders_body : respects.

Lemma avoids_matchOrders_loop (n : Uuid) fuel symbol :
  respects (avoids n) (TradingService.matchOrders_loop fuel symbol).
Proof.
  induction fuel as [|fuel IH]; intros w; simpl.
  - destruct (TradingService.Map_get _ _) as [[[|b bs] [|a as_]]|];
      try apply frame_refl.
    cbn [bids asks]. destruct (String_geb _ _); [exact I|apply frame_refl].
  - destruct (TradingService.Map_get _ _) as [[[|b bs] [|a as_]]|];
      try apply frame_refl.
    cbn [bids asks]. destruct (String_geb _ _); [|apply frame_refl].
    apply (respects_bind (avoids n)); auto with respects.
Qed.
#[export] Hint Resolve avoids_matchOrders_loop : respects.

Lemma avoids_handleNewOrder (n : Uuid) fuel orderData :
  respects (avoids n) (TradingService.handleNewOrder fuel orderData).
Proof.
  unfold TradingService.handleNewOrder, TradingService.matchOrders. respects_auto.
Qed.

Lemma avoids_handleCancelOrder (n : Uuid) orderId userId :
  respects (avoids n) (TradingService.handleCancelOrder orderId userId).
Proof. unfold TradingService.handleCancelOrder. respects_auto. Qed.

Lemma avoids_eachMessage (n : Uuid) fuel message :
  respects (avoids n) (TradingService.eachMessage fuel message).
Proof.
  intros w. unfold TradingService.eachMessage.
  match goal with |- context [match ?h w with _ => _ end] =>
    assert (H : respects (avoids n) h)
      by (destruct message;
          [apply avoids_handleNewOrder
          |apply (respects_bind (avoids n));
           [apply avoids_handleCancelOrder|intro; apply respects_ret; exact _]]);
    specialize (H w); destruct (h w) as [[] w'|e w'|]; auto
  end.
  simpl. destruct H as [Hu _]. split; [exact Hu|].
  unfold no_order. simpl. auto.
Qed.

Lemma avoids_depositFunds (n : Uuid) userId asset amount :
  respects (avoids n) (TradingService.depositFunds userId asset amount).
Proof.
  intros w. unfold TradingService.depositFunds.
  match goal with |- context [match ?h w with _ => _ end] =>
    assert (H : respects (avoids n) h) by respects_auto;
    specialize (H w); destruct (h w) as [x w'|e w'|]; auto
  end.
  destruct H as [Hu _]. split; [exact Hu|]. unfold no_order. simpl. auto.
Qed.

Lemma later_avoids (n : Uuid) (w w' : World) : later w w' -> avoids n w w'.
Proof.
  induction 1 as [w|w w1 w2 fuel message _ IH E|w w1 w2 d o _ IH E
                  |w w1 w2 i u b _ IH E|w w1 u a q _ IH].
  - apply frame_refl.
  - eapply frame_trans; [exact IH|].
    eapply (respects_returned (avoids n)); [apply avoids_eachMessage|exact E].
  - eapply frame_trans; [exact IH|].
    unfold TradingService.createOrder, bind, emit, uuidv4, get_now, ret in E.
    inversion E; subst. split; simpl; auto.
  - eapply frame_trans; [exact IH|].
    unfold TradingService.cancelOrder, bind, emit, ret in E.
    inversion E; subst. split; simpl; auto.
  - eapply frame_trans; [exact IH|].
    pose proof (avoids_depositFunds n u a q w1) as H.
    destruct (TradingService.depositFunds u a q w1); simpl; auto. apply frame_refl.
Qed.

Lemma no_order_not_stored (n : Uuid) (w : World) :
  no_order n w -> stored_order n (db w) = None.
Proof.
  unfold no_order, stored_order.
  induction (orders (db w)) as [|o rows IH]; simpl; intros H; [reflexivity|].
  destruct (Nat.eqb_spec (Order.id o) n) as [E|_]; [tauto|].
  apply IH. tauto.
Qed.

(** C10: the snapshot [TradingService.createOrder] returns is OPEN with
    filled quantity 0 and carries a freshly drawn identifier; whatever the
    service does later, no stored order has that identifier, and the engine
    persists orders, this one included, under other identifiers. *)
Theorem returned_snapshot_id_is_never_stored (orderData : OrderData.t) (w : World) :
  Forall (fun o => (Order.id o < uuid w)%nat) (orders (db w)) ->
  exists snap w1,
    TradingService.createOrder orderData w = Returned snap w1
    /\ Order.status snap = OPEN
    /\ Order.filledQuantity snap = 0
    /\ Order.id snap = uuid w
    /\ forall w2,
         later w1 w2 ->
         stored_order (Order.id snap) (db w2) = None
         /\ forall d o w3,
              OrderModel.createOrder d w2 = Returned o w3 ->
              In o (orders (db w3))
              /\ Order.id o <> Order.id snap
              /\ stored_order (Order.id snap) (db w3) = None.
Proof.
  intros Hsupply.
  eexists. eexists. split; [reflexivity|].
  split; [reflexivity|]. split; [reflexivity|]. split; [reflexivity|].
  cbn [Order.id].
  intros w2 Hlater.
  assert (Hno : no_order (uuid w) w).
  { unfold no_order. intros Hin. apply in_map_iff in Hin. destruct Hin as (o & Hid & Hin).
    rewrite Forall_forall in Hsupply. specialize (Hsupply o Hin). lia. }
  destruct (later_avoids (uuid w) _ _ Hlater) as [Hu Hkeep]. cbn [uuid] in Hu, Hkeep.
  assert (Hno2 : no_order (uuid w) w2).
  { apply Hkeep; [lia|exact Hno]. }
  split; [cbn [uuid]; now apply no_order_not_stored|].
  intros d o w3 E.
  pose proof (createOrder_outcome d w2) as Ho. rewrite E in Ho.
  destruct Ho as (Hid & Hstored & _).
  split; [rewrite Hstored; apply in_or_app; right; now left|].
  split; [cbn [uuid]; lia|].
  cbn [uuid]. apply no_order_not_stored.
  pose proof (avoids_createOrder (uuid w) d w2) as Ha. rewrite E in Ha.
  apply Ha; [lia|exact Hno2].
Qed.

Lemma returned_snapshot_id_is_never_stored_witness :
  Forall (fun o => (Order.id o < uuid Scenario.resting_world)%nat)
         (orders (db Scenario.resting_world))
  /\ exists snap w1,
       TradingService.createOrder Scenario.alice_asks Scenario.resting_world
       = Returned snap w1
       /\ Order.status snap = OPEN
       /\ Order.filledQuantity snap = 0
       /\ Order.id snap = uuid Scenario.resting_world
       /\ forall w2,
            later w1 w2 ->
            stored_order (Order.id snap) (db w2) = None
            /\ forall d o w3,
                 OrderModel.createOrder d w2 = Returned o w3 ->
                 In o (orders (db w3))
                 /\ Order.id o <> Order.id snap
                 /\ stored_order (Order.id snap) (db w3) = None.
Proof.
  split.
  - repeat constructor.
  - apply (returned_snapshot_id_is_never_stored Scenario.alice_asks Scenario.resting_world).
    repeat constructor.
Defined.

(** ** What a submission that is stored has done *)

(** Everything a returning [OrderModel.createOrder] has done. *)
Lemma createOrder_returned (orderData : OrderData.t) (w w' : World) (o : Order.t) :
  OrderModel.createOrder orderData w = Returned o w' ->
  o = created_row orderData (uuid w) (now w)
  /\ orders (db w') = orders (db w) ++ [o]
  /\ account_balances (db w')
     = map (fun b => if Schema.balance_is (OrderData.userId orderData) (lock_asset orderData) b
                     then Schema.touch_balance (now w) (lock_row orderData b) else b)
           (account_balances (db w))
  /\ trades (db w') = trades (db w)
  /\ users (db w') = users (db w)
  /\ now w' = now w
  /\ orderBooks w' = orderBooks w
  /\ emitted w' = emitted w
  /\ Schema.order_exists (uuid w) (db w) = false
  /\ Schema.user_exists (OrderData.userId orderData) (db w) = true
  /\ Schema.valid_quantity o = true
  /\ Schema.valid_filled_quantity o = true
  /\ Schema.assets_fit (Order.symbol o) = true
  /\ uuid w' = S (uuid w)
  /\ exists b,
       Schema.select_balance (OrderData.userId orderData) (lock_asset orderData) (db w)
       = Some b
       /\ lock_amount orderData <= Balance.freeBalance b.
Proof.
  unfold OrderModel.createOrder, rethrow_as.
  unfold bind at 1. unfold uuidv4 at 1.
  unfold bind at 1. unfold get_now at 1. cbn [now].
  unfold Schema.insert_order.
  fold (created_row orderData (uuid w) (now w)).
  destruct (negb (Schema.client_order_id_fits _)); [discriminate|].
  destruct (negb (varchar_fits 20 _)); [discriminate|].
  unfold Schema.lock_order_funds.
  unfold bind at 1.
  destruct (negb (Schema.assets_fit _)) eqn:Efit; [discriminate|].
  unfold bind at 1. unfold get_db at 1.
  rewrite asset_to_lock_created, amount_to_lock_created.
  change (Order.userId (created_row orderData (uuid w) (now w)))
    with (OrderData.userId orderData).
  cbn [db].
  destruct (Schema.select_balance _ _ (db w)) as [b|] eqn:Eb; [|discriminate].
  destruct (Qltb _ _) eqn:Elt; [discriminate|].
  unfold bind at 1.
  unfold Schema.update_account_balances at 1.
  unfold bind at 1. unfold get_db at 1. unfold bind at 1. unfold get_now at 1.
  cbn [db now account_balances].
  fold (lock_row orderData).
  destruct (forallb _ _); [|discriminate].
  unfold put_db at 1. unfold ret at 1.
  unfold bind, get_db, put_db, throw, ret.
  cbn [db with_db Schema.set_balances orders].
  destruct (negb (Schema.valid_quantity _)) eqn:E1; [discriminate|].
  destruct (negb (Schema.valid_filled_quantity _)) eqn:E2; [discriminate|].
  destruct (Schema.order_exists _ _) eqn:E3; [discriminate|].
  match goal with |- context [if ?c then _ else _] => destruct c end; [discriminate|].
  destruct (negb (Schema.user_exists _ _)) eqn:E5; [discriminate|].
  intros E; inversion E; subst; clear E.
  apply negb_false_iff in E1, E2, E5, Efit.
  cbn [db with_db Schema.set_balances Schema.set_orders orders account_balances trades users
       now orderBooks emitted uuid].
  repeat (split; [first [assumption|reflexivity]|]).
  exists b. split; [reflexivity|].
  unfold Qltb in Elt. apply negb_false_iff in Elt. now apply Qle_bool_iff in Elt.
Qed.

(** X16: what the lock does move: when [createOrder] returns, the row of the user
    in the asset the trigger chose has lost the lock amount, for a BUY the
    product of price and quantity rounded to ten decimals, from its free
    balance and gained it in its locked balance. *)
Theorem lock_moves_amount (orderData : OrderData.t) (w w' : World) (o : Order.t) :
  OrderModel.createOrder orderData w = Returned o w' ->
  exists b b',
    Schema.select_balance (OrderData.userId orderData) (lock_asset orderData) (db w) = Some b
    /\ Schema.select_balance (OrderData.userId orderData) (lock_asset orderData) (db w') = Some b'
    /\ Balance.freeBalance b' = Balance.freeBalance b - lock_amount orderData
    /\ Balance.lockedBalance b' = Balance.lockedBalance b + lock_amount orderData.
Proof.
  intros E.
  destruct (createOrder_returned _ _ _ _ E)
    as (_ & _ & Hbal & _ & _ & _ & _ & _ & _ & _ & _ & _ & _ & _ & b & Eb & _).
  exists b. eexists. split; [exact Eb|].
  unfold Schema.select_balance in *. rewrite Hbal.
  rewrite (find_rewritten _
             (fun b0 => Schema.touch_balance (now w) (lock_row orderData b0)))
    by reflexivity.
  rewrite Eb. simpl. repeat split; reflexivity.
Qed.

Lemma lock_moves_amount_witness :
  exists b b',
    Schema.select_balance "pat" "BTC" (db Scenario.pat_world) = Some b
    /\ Schema.select_balance "pat" "BTC"
         (db (world_of Scenario.pat_world
                (OrderModel.createOrder Scenario.pat_buys Scenario.pat_world))) = Some b'
    /\ Balance.freeBalance b' = Balance.freeBalance b - lock_amount Scenario.pat_buys
    /\ Balance.lockedBalance b' = Balance.lockedBalance b + lock_amount Scenario.pat_buys.
Proof.
  apply (lock_moves_amount Scenario.pat_buys Scenario.pat_world
           (world_of Scenario.pat_world
              (OrderModel.createOrder Scenario.pat_buys Scenario.pat_world))
           (created_row Scenario.pat_buys 1 10)).
  vm_compute. reflexivity.
Defined.

(** Pat's bid locks 0.0151851839, the product 0.01518518394 rounded. *)
Lemma lock_amount_is_rounded :
  OrderData.price Scenario.pat_buys * OrderData.quantity Scenario.pat_buys
    == 0.01518518394
  /\ lock_amount Scenario.pat_buys == 0.0151851839.
Proof. split; reflexivity. Qed.

(** ** The consumer and the loop *)

Lemma addToOrderBook_db (order : Order.t) (w : World) :
  ends_in (TradingService.addToOrderBook order w)
    (fun _ w' => db w' = db w) (fun w' => db w' = db w).
Proof.
  unfold TradingService.addToOrderBook, bind, TradingService.get_orderBook,
    TradingService.set_orderBook, OrderModel.getOpenOrdersBySymbol, get_db, ret, throw.
  unfold bind.
  repeat match goal with
         | |- context [TradingService.Map_get ?s ?b] =>
             destruct (TradingService.Map_get s b); cbn [orderBooks with_orderBooks]
         end;
    destruct (Order.side order); reflexivity.
Qed.

Lemma handleNewOrder_returned (fuel : nat) (orderData : OrderData.t) (w w' : World) :
  TradingService.handleNewOrder (S fuel) orderData w = Returned tt w' ->
  exists o w1,
    OrderModel.createOrder orderData w = Returned o w1
    /\ db w' = db w1.
Proof.
  unfold TradingService.handleNewOrder.
  unfold bind at 1.
  destruct (OrderModel.createOrder orderData w) as [o w1|e w1|]; try discriminate.
  unfold bind at 1.
  pose proof (addToOrderBook_db o w1) as Hadd.
  destruct (TradingService.addToOrderBook o w1) as [[] w2|e w2|]; try discriminate.
  simpl in Hadd.
  unfold bind at 1.
  destruct (matchOrders_outcome fuel (Order.symbol o) w2) as [-> | (m & w3 & -> & _)];
    [|discriminate].
  unfold TradingService.publishOrderUpdate, emit.
  intros E; inversion E; subst; clear E.
  exists o, w1. split; [reflexivity|]. exact Hadd.
Qed.

Lemma handleCancelOrder_returned (orderId : Uuid) (userId : UserId) (w w' : World) (b : bool) :
  TradingService.handleCancelOrder orderId userId w = Returned b w' ->
  exists r w1,
    OrderModel.cancelOrder orderId userId w = Returned r w1
    /\ db w' = db w1.
Proof.
  unfold TradingService.handleCancelOrder.
  unfold bind at 1.
  destruct (OrderModel.cancelOrder orderId userId w) as [[c|] w1|e w1|]; try discriminate.
  unfold bind, TradingService.get_orderBook, TradingService.set_orderBook,
    TradingService.publishOrderUpdate, emit, ret.
  intros E. exists (Some c), w1. split; [reflexivity|].
  destruct (TradingService.Map_get _ _); [destruct (Order.side c)|];
    inversion E; subst; reflexivity.
Qed.

(** Cancelling rewrites the status and the closing time only. *)
Lemma cancelOrder_keeps_filled (orderId : Uuid) (userId : UserId) (w w' : World)
    (r : option Order.t) :
  OrderModel.cancelOrder orderId userId w = Returned r w' ->
  map Order.filledQuantity (orders (db w')) = map Order.filledQuantity (orders (db w)).
Proof.
  unfold OrderModel.cancelOrder, rethrow_as.
  unfold bind at 1. unfold get_now at 1. unfold bind.
  destruct (Schema.update_orders _ _ _ w) as [rows w1| |] eqn:E1; try discriminate.
  intros E; inversion E; subst; clear E.
  destruct (update_orders_returned _ _ _ _ _ _ E1) as (-> & _ & _).
  unfold updated_orders. rewrite map_map. apply map_ext.
  intros o. destruct (_ && _); reflexivity.
Qed.


(** ** The crossing submission *)

Lemma crossing_submission_consumed :
  TradingService.eachMessage 1 (NewOrders Scenario.alice_asks_100) Scenario.resting_world
  = Returned tt Scenario.rolled_back_world.
Proof. vm_compute. reflexivity. Qed.

(** C1 at its failing input. Settlement stops at its first statement,
    whatever the trade: [updateBalance] hands five values to a statement of
    four parameters, and no balance is written. For the fill of 1 BTCUSDT at
    100 between Bob, the buyer, and Alice, the seller, the pass is thrown out
    of the settlement with the balances it started with, the consumer rolls
    back, and every balance is what it was before Alice's submission: Bob's
    lock is still in place and nobody has been credited. *)
Theorem settlement_writes_no_balance :
  (forall trade w,
     TradingService.updateBalancesForTrade trade w
     = Thrown "Failed to update account balance" w)
  /\ TradingService.matchOrders 1 "BTCUSDT" Scenario.crossing_world
     = Thrown "Failed to update account balance" Scenario.before_settlement
  /\ account_balances (db Scenario.before_settlement)
     = account_balances (db Scenario.crossing_world)
  /\ TradingService.eachMessage 1 (NewOrders Scenario.alice_asks_100) Scenario.resting_world
     = Returned tt Scenario.rolled_back_world
  /\ account_balances (db Scenario.rolled_back_world)
     = account_balances (db Scenario.resting_world)
  /\ account_balances (db Scenario.resting_world)
     = [Balance.mk 0 "bob" "BTC" 0 101 10; Balance.mk 1 "alice" "USDT" 1 0 0]
  /\ emitted Scenario.rolled_back_world
     = emitted Scenario.resting_world
         ++ [TradingError "new-orders" "Failed to update account balance"].
Proof.
  split; [exact updateBalancesForTrade_refused|].
  split; [exact matching_is_thrown_out|].
  split; [reflexivity|].
  split; [exact crossing_submission_consumed|].
  repeat split; reflexivity.
Qed.

(** C3 at its failing input. Bob's bid at 101 rests in the book when Alice's
    ask at 100 comes in. The pass takes the price of the ask: the trade it
    inserts is priced 100, not 101, the limit of the order that was resting.
    The settlement then throws, and the consumer rolls the trade back. *)
Theorem fill_is_priced_at_the_incoming_ask :
  TradingService.Map_get "BTCUSDT" (orderBooks Scenario.resting_world)
  = Some (mkBook [Scenario.bob_order; Scenario.bob_order] [])
  /\ (order <- OrderModel.createOrder Scenario.alice_asks_100 ;;
      TradingService.addToOrderBook order ;;; ret order) Scenario.resting_world
     = Returned Scenario.alice_order Scenario.crossing_world
  /\ Order.price Scenario.bob_order == 101
  /\ Order.price Scenario.alice_order == 100
  /\ TradingService.matchOrders 1 "BTCUSDT" Scenario.crossing_world
     = Thrown "Failed to update account balance" Scenario.before_settlement
  /\ (exists t, trades (db Scenario.before_settlement) = [t]
                /\ Trade.price t == 100
                /\ ~ Trade.price t == Order.price Scenario.bob_order)
  /\ TradingService.eachMessage 1 (NewOrders Scenario.alice_asks_100) Scenario.resting_world
     = Returned tt Scenario.rolled_back_world
  /\ trades (db Scenario.rolled_back_world) = [].
Proof.
  split; [reflexivity|].
  split; [exact crossing_world_reached|].
  split; [reflexivity|]. split; [reflexivity|].
  split; [exact matching_is_thrown_out|].
  split.
  { eexists. split; [reflexivity|]. split; [reflexivity|]. intros H. discriminate H. }
  split; [exact crossing_submission_consumed|reflexivity].
Qed.

(** C8 at its failing input: the one record the pass inserts for the fill
    between Bob's resting bid and Alice's incoming ask carries the order and
    the user of the bid only, as buyer, and is not marked as maker although
    Bob's order was the one resting; Alice is not named, and no second record
    is written. The settlement then throws, and the consumer rolls the record
    back. *)
Theorem fill_record_names_the_buyer_and_is_not_maker :
  TradingService.Map_get "BTCUSDT" (orderBooks Scenario.resting_world)
  = Some (mkBook [Scenario.bob_order; Scenario.bob_order] [])
  /\ Order.userId Scenario.bob_order = "bob"
  /\ Order.userId Scenario.alice_order = "alice"
  /\ TradingService.matchOrders 1 "BTCUSDT" Scenario.crossing_world
     = Thrown "Failed to update account balance" Scenario.before_settlement
  /\ (exists t, trades (db Scenario.before_settlement) = [t]
                /\ Trade.orderId t = Order.id Scenario.bob_order
                /\ Trade.userId t = "bob"
                /\ Trade.isBuyer t = true
                /\ Trade.isMaker t = false)
  /\ TradingService.eachMessage 1 (NewOrders Scenario.alice_asks_100) Scenario.resting_world
     = Returned tt Scenario.rolled_back_world
  /\ trades (db Scenario.rolled_back_world) = [].
Proof.
  split; [reflexivity|]. split; [reflexivity|]. split; [reflexivity|].
  split; [exact matching_is_thrown_out|].
  split; [eexists; repeat split; reflexivity|].
  split; [exact crossing_submission_consumed|reflexivity].
Qed.

(** * Further properties of the code *)

(** ** Submissions the schema refuses *)

Lemma round_half_away_nonpos (x : Q) : x <= 0 -> (round_half_away x <= 0)%Z.
Proof.
  intros H. unfold round_half_away.
  destruct (Qle_bool 0 x) eqn:E.
  - apply Qle_bool_iff in E.
    rewrite (Qfloor_comp (x + (1 # 2)) (1 # 2)) by lra. discriminate.
  - assert (0 <= Qfloor (- x + (1 # 2)))%Z; [|lia].
    change 0%Z with (Qfloor 0). apply Qfloor_resp_le. lra.
Qed.

Lemma numeric_round_nonpos (x : Q) : x <= 0 -> numeric_round x <= 0.
Proof.
  intros H. unfold numeric_round. rewrite Qred_correct.
  unfold Qle; cbn [Qnum Qden]. rewrite Z.mul_1_r, Z.mul_0_l.
  apply round_half_away_nonpos.
  setoid_replace 0 with (0 * inject_Z (10 ^ 10)) by ring.
  apply Qmult_le_compat_r; [exact H|]. unfold Qle; simpl; lia.
Qed.

(** The lock trigger hands back the row it was given. *)
Lemma lock_order_funds_returned (NEW r : Order.t) (w w' : World) :
  Schema.lock_order_funds NEW w = Returned r w' -> r = NEW.
Proof.
  unfold Schema.lock_order_funds, Schema.update_account_balances,
    bind, get_db, get_now, put_db, throw, ret.
  repeat match goal with
         | |- context [if ?c then _ else _] => destruct c
         | |- context [match ?x with Some _ => _ | None => _ end] => destruct x
         end; intros E; inversion E; reflexivity.
Qed.

(** An INSERT into [orders] that throws has drawn no identifier and
    published nothing. *)
Lemma insert_order_thrown_world (row : Order.t) (w : World) (e : string) (w' : World) :
  Schema.insert_order row w = Thrown e w' ->
  orderBooks w' = orderBooks w /\ emitted w' = emitted w
  /\ uuid w' = uuid w /\ now w' = now w.
Proof.
  unfold Schema.insert_order, Schema.lock_order_funds, Schema.update_account_balances,
    bind, get_db, get_now, put_db, throw, ret.
  repeat match goal with
         | |- context [if ?c then _ else _] => destruct c
         | |- context [match ?x with Some _ => _ | None => _ end] => destruct x
         end; intros E; inversion E; subst; repeat split; reflexivity.
Qed.

Lemma insert_order_without_quantity (row : Order.t) (w : World) :
  Order.quantity row <= 0 ->
  has_returned (Schema.insert_order row w) = false.
Proof.
  intros Hq. unfold Schema.insert_order.
  destruct (negb (Schema.client_order_id_fits row)); [reflexivity|].
  destruct (negb (varchar_fits 20 (Order.symbol row))); [reflexivity|].
  unfold bind at 1.
  destruct (Schema.lock_order_funds _ w) as [r w1|e w1|] eqn:E; [|reflexivity|reflexivity].
  apply lock_order_funds_returned in E. subst r.
  unfold bind, get_db.
  assert (Hv : Schema.valid_quantity (Schema.coerce_order row) = false).
  { unfold Schema.valid_quantity, Qgtb. cbn [Schema.coerce_order Order.quantity].
    apply numeric_round_nonpos in Hq. apply Qle_bool_iff in Hq. now rewrite Hq. }
  rewrite Hv. reflexivity.
Qed.

(** X1: a submission whose quantity is not positive is refused whatever
    the funds: the consumer publishes "Failed to create order", and the
    relational state and the books are as before. *)
Theorem submission_without_quantity_is_refused
    (fuel : nat) (w : World) (orderData : OrderData.t) :
  OrderData.quantity orderData <= 0 ->
  TradingService.eachMessage fuel (NewOrders orderData) w
  = Returned tt (failed w "new-orders" "Failed to create order" 1).
Proof.
  intros Hq.
  unfold TradingService.eachMessage, TradingService.handleNewOrder,
    OrderModel.createOrder, rethrow_as.
  unfold bind at 1. unfold bind at 1. unfold uuidv4 at 1.
  unfold bind at 1. unfold get_now at 1. cbn [now].
  match goal with |- context [Schema.insert_order ?row ?w0] =>
    pose proof (insert_order_without_quantity row w0 Hq) as Hr;
    pose proof (finishes_insert_order row w0) as Hf;
    pose proof (insert_order_thrown_world row w0) as Ht;
    destruct (Schema.insert_order row w0) as [r w'|e w'|]; [discriminate| |contradiction]
  end.
  destruct (Ht e w' eq_refl) as (Hb & He & Hu & Hn). cbn in Hb, He, Hu, Hn.
  unfold emit, failed, with_db. cbn [db orderBooks emitted uuid now].
  now rewrite Hb, He, Hu, Hn.
Qed.

Lemma submission_without_quantity_is_refused_witness :
  OrderData.quantity Scenario.bob_bids_nothing <= 0
  /\ TradingService.eachMessage 0 (NewOrders Scenario.bob_bids_nothing) Scenario.market_world
     = Returned tt (failed Scenario.market_world "new-orders" "Failed to create order" 1).
Proof.
  split; [discriminate|].
  apply (submission_without_quantity_is_refused 0 Scenario.market_world
           Scenario.bob_bids_nothing).
  discriminate.
Defined.

(** ** Cancelling what is not one's own *)

(** X2: a cancel command naming an order the user does not own, or no
    stored order at all, is refused with "Order not found or already
    cancelled"; the relational state and the books are as before. *)
Theorem cancel_of_foreign_order_is_refused
    (fuel : nat) (w : World) (orderId : Uuid) (user : UserId) :
  (forall o, In o (orders (db w)) -> Order.id o = orderId -> Order.userId o <> user) ->
  TradingService.eachMessage fuel (CancelOrders orderId user) w
  = Returned tt (failed w "cancel-orders" "Order not found or already cancelled" 0).
Proof.
  intros Hforeign.
  assert (Hcancel : OrderModel.cancelOrder orderId user w = Returned None w).
  { unfold OrderModel.cancelOrder, rethrow_as, bind, get_now.
    rewrite update_orders_none; [reflexivity|].
    intros o Hin.
    destruct (Nat.eqb_spec (Order.id o) orderId) as [Hid|]; [|reflexivity].
    destruct (String.eqb_spec (Order.userId o) user) as [Hu|]; [|reflexivity].
    exfalso. exact (Hforeign o Hin Hid Hu). }
  unfold TradingService.eachMessage, TradingService.handleCancelOrder.
  unfold bind at 1. unfold bind at 1. rewrite Hcancel.
  unfold throw, emit, failed. simpl. reflexivity.
Qed.

Lemma cancel_of_foreign_order_is_refused_witness :
  (forall o, In o (orders (db Scenario.bob_world)) -> Order.id o = 7%nat ->
             Order.userId o <> "mallory")
  /\ TradingService.eachMessage 0 (CancelOrders 7 "mallory") Scenario.bob_world
     = Returned tt (failed Scenario.bob_world "cancel-orders"
                      "Order not found or already cancelled" 0).
Proof.
  assert (H : forall o, In o (orders (db Scenario.bob_world)) -> Order.id o = 7%nat ->
                        Order.userId o <> "mallory").
  { simpl. intros o [<-|[]] _. discriminate. }
  split; [exact H|].
  apply (cancel_of_foreign_order_is_refused 0 Scenario.bob_world 7 "mallory" H).
Defined.

(** ** Withdrawals *)

(** X3: [withdrawFunds] never returns. Either the free balance does not cover
    the amount, or the transaction row is refused, or the write of
    [{ freeBalance: -amount, lockedBalance: amount }] hands six values to a
    statement of four parameters; in every case it throws and the relational
    state is rolled back. *)
Theorem withdrawFunds_always_throws
    (user : UserId) (asset : string) (amount : Q) (address : string) (w : World) :
  exists error w',
    TradingService.withdrawFunds user asset amount address w = Thrown error w'
    /\ db w' = db w
    /\ orderBooks w' = orderBooks w.
Proof.
  unfold TradingService.withdrawFunds, AccountModel.getBalance.
  unfold bind at 1. unfold bind at 1. unfold get_db at 1. unfold ret at 1.
  destruct (Schema.select_balance user asset (db w)) as [b|];
    [|do 2 eexists; split; [reflexivity|split; reflexivity]].
  destruct (Qltb _ _); [do 2 eexists; split; [reflexivity|split; reflexivity]|].
  unfold bind at 1.
  pose proof (keeps_orders_createTransaction
                (TransactionData.mk user WITHDRAWAL asset amount 0 (Some address) None
                   TX_PENDING) w) as K1.
  destruct (AccountModel.createTransaction _ w) as [x w1|e w1|] eqn:E1.
  - destruct K1 as (_ & Hb1 & _).
    unfold bind. rewrite updateBalance_free_refused.
    do 2 eexists. split; [reflexivity|]. split; [reflexivity|].
    simpl. exact Hb1.
  - destruct K1 as (_ & Hb1 & _).
    do 2 eexists. split; [reflexivity|]. split; [reflexivity|]. simpl. exact Hb1.
  - exfalso. revert E1.
    unfold AccountModel.createTransaction, rethrow_as, Schema.insert_account_transaction,
      bind, uuidv4, get_now, get_db, put_db, throw, ret. simpl.
    repeat (match goal with |- context [if ?c then _ else _] => destruct c end;
            try discriminate).
Qed.

(** ** Sorting *)

Section SortBy.
Context {A : Type} (before : A -> A -> bool).

Lemma insert_by_perm (x : A) (l : list A) :
  Permutation (insert_by before x l) (x :: l).
Proof.
  induction l as [|y l IH]; simpl; [reflexivity|].
  destruct (before y x); [|reflexivity].
  rewrite IH. apply perm_swap.
Qed.

Lemma sort_by_perm (l : list A) : Permutation (sort_by before l) l.
Proof.
  induction l as [|x l IH]; simpl; [reflexivity|].
  unfold sort_by in *. simpl. rewrite insert_by_perm. now constructor.
Qed.

Lemma sort_by_in (l : list A) (a : A) : In a (sort_by before l) <-> In a l.
Proof.
  split; apply Permutation_in; [|symmetry]; apply sort_by_perm.
Qed.

Hypothesis before_asym : forall a b, before a b = true -> before b a = false.

Lemma insert_by_in_order (x : A) (l : list A) :
  in_order before l -> in_order before (insert_by before x l).
Proof.
  unfold in_order. induction l as [|y l IH]; simpl; intros Hs.
  - repeat constructor.
  - inversion Hs as [|? ? Hs' Hhd]; subst.
    destruct (before y x) eqn:E.
    + constructor; [now apply IH|].
      destruct l as [|z l]; simpl.
      * constructor. now apply before_asym.
      * destruct (before z x) eqn:E'.
        -- constructor. now inversion Hhd.
        -- constructor. now apply before_asym.
    + constructor; [exact Hs|]. constructor. exact E.
Qed.

Lemma sort_by_in_order (l : list A) : in_order before (sort_by before l).
Proof.
  induction l as [|x l IH]; [constructor|].
  unfold sort_by in *. simpl. now apply insert_by_in_order.
Qed.

(** Where a new last element lands in a list that was in order: behind
    everything it is not strictly before. *)
Hypothesis before_cut :
  forall a b c, before a c = true -> before a b = true \/ before b c = true.

Lemma sort_by_app_last (old : list A) (x : A) :
  StronglySorted (fun a b => before b a = false) old ->
  exists l1 l2,
    old = l1 ++ l2
    /\ sort_by before (old ++ [x]) = l1 ++ x :: l2
    /\ (forall y, In y l1 -> before x y = false)
    /\ (forall y, In y l2 -> before x y = true).
Proof.
  unfold sort_by. rewrite fold_right_app. simpl.
  induction old as [|o old IH]; intros Hs.
  - exists [], []. simpl. repeat split; intros y [].
  - inversion Hs as [|? ? Hs' Hall]; subst.
    destruct (IH Hs') as (l1 & l2 & Hold & Hsort & H1 & H2).
    simpl. rewrite Hsort.
    rewrite Forall_forall in Hall.
    destruct l1 as [|y l1].
    + simpl in *. subst old.
      destruct (before x o) eqn:E.
      * exists [], (o :: l2). simpl.
        assert (Hins : insert_by before o l2 = o :: l2).
        { destruct l2 as [|z l2]; simpl; [reflexivity|].
          rewrite (Hall z) by now left. reflexivity. }
        rewrite Hins. repeat split.
        -- intros y [].
        -- intros y [<-|Hy]; [exact E|now apply H2].
      * exists [o], l2. simpl. repeat split.
        -- intros y [<-|[]]. exact E.
        -- exact H2.
    + subst old. simpl.
      rewrite (Hall y) by now left.
      exists (o :: y :: l1), l2. simpl. repeat split.
      * intros z [Hz|Hz]; [subst z|now apply H1].
        destruct (before x o) eqn:E; [|reflexivity].
        destruct (before_cut x y o E) as [Hxy|Hyz].
        -- rewrite (H1 y) in Hxy by now left. discriminate.
        -- rewrite (Hall y) in Hyz by now left. discriminate.
      * exact H2.
Qed.

End SortBy.

(** ** Joining the book *)

Lemma Qltb_minus_spec (a b : Q) : Qltb (a - b) 0 = true <-> a < b.
Proof.
  unfold Qltb. split.
  - intros H. apply Qnot_le_lt. intros Hle.
    assert (Hb : Qle_bool 0 (a - b) = true) by (apply Qle_bool_iff; lra).
    rewrite Hb in H. discriminate.
  - intros H. destruct (Qle_bool 0 (a - b)) eqn:E; [|reflexivity].
    apply Qle_bool_iff in E. exfalso. lra.
Qed.

Lemma Qltb_minus_false (a b : Q) : Qltb (a - b) 0 = false <-> b <= a.
Proof.
  split.
  - intros H. apply Qnot_lt_le. intros Hlt. apply Qltb_minus_spec in Hlt. congruence.
  - intros H. destruct (Qltb (a - b) 0) eqn:E; [|reflexivity].
    apply Qltb_minus_spec in E. exfalso. lra.
Qed.

Lemma Map_get_set (symbol : string) (book : OrderBook) (m : list (string * OrderBook)) :
  TradingService.Map_get symbol (TradingService.Map_set symbol book m) = Some book.
Proof.
  induction m as [|[k v] m IH]; simpl.
  - now rewrite String.eqb_refl.
  - destruct (String.eqb k symbol) eqn:E; simpl; rewrite E; [reflexivity|exact IH].
Qed.

Lemma Map_get_set_other (symbol other : string) (book : OrderBook)
    (m : list (string * OrderBook)) :
  other <> symbol ->
  TradingService.Map_get other (TradingService.Map_set symbol book m)
  = TradingService.Map_get other m.
Proof.
  intros Hne. induction m as [|[k v] m IH]; simpl.
  - destruct (String.eqb_spec symbol other); [congruence|reflexivity].
  - destruct (String.eqb_spec k symbol) as [->|]; simpl.
    + destruct (String.eqb_spec symbol other); [congruence|reflexivity].
    + destruct (String.eqb k other); [reflexivity|exact IH].
Qed.

(** X6: on a loaded book whose bids run from the highest price down, a
    new bid is placed behind every bid priced at least as high and ahead of
    every bid priced lower; the bids already there keep their order, the asks
    and the relational state are untouched. *)
Theorem bid_joins_behind_bids_priced_no_lower (order : Order.t) (w : World) (book : OrderBook) :
  TradingService.Map_get (Order.symbol order) (orderBooks w) = Some book ->
  Order.side order = BUY ->
  StronglySorted (fun a b => Order.price b <= Order.price a) (bids book) ->
  exists l1 l2 w',
    TradingService.addToOrderBook order w = Returned tt w'
    /\ db w' = db w
    /\ bids book = l1 ++ l2
    /\ TradingService.Map_get (Order.symbol order) (orderBooks w')
       = Some (mkBook (l1 ++ order :: l2) (asks book))
    /\ (forall y, In y l1 -> Order.price order <= Order.price y)
    /\ (forall y, In y l2 -> Order.price y < Order.price order).
Proof.
  intros Hbook Hside Hsorted.
  destruct (sort_by_app_last (fun a b => Qltb (Order.price b - Order.price a) 0)
              (fun a b c H =>
                 match Qlt_le_dec (Order.price b) (Order.price a) with
                 | left Hlt => or_introl (proj2 (Qltb_minus_spec _ _) Hlt)
                 | right Hle =>
                     or_intror (proj2 (Qltb_minus_spec _ _)
                                  (Qlt_le_trans _ _ _ (proj1 (Qltb_minus_spec _ _) H) Hle))
                 end)
              (bids book) order) as (l1 & l2 & Hold & Hsort & H1 & H2).
  { eapply StronglySorted_ind with (P := StronglySorted _); [constructor| |exact Hsorted].
    intros a l _ IH Hall. constructor; [exact IH|].
    eapply Forall_impl; [|exact Hall]. intros b Hb. now apply Qltb_minus_false. }
  exists l1, l2. eexists.
  unfold TradingService.addToOrderBook, bind, TradingService.get_orderBook,
    TradingService.set_orderBook. rewrite Hbook. simpl. rewrite Hbook, Hside. simpl.
  rewrite Hsort.
  split; [reflexivity|]. split; [reflexivity|]. split; [exact Hold|].
  split; [apply Map_get_set|]. split.
  - intros y Hy. apply Qltb_minus_false. now apply H1.
  - intros y Hy. apply Qltb_minus_spec. now apply H2.
Qed.

Lemma bid_joins_behind_bids_priced_no_lower_witness :
  exists l1 l2 w',
    TradingService.addToOrderBook (Scenario.bid_at 4 "alice" 100 4) Scenario.loaded_world
    = Returned tt w'
    /\ db w' = db Scenario.loaded_world
    /\ [Scenario.bid_at 1 "bob" 101 1; Scenario.bid_at 2 "bob" 100 2] = l1 ++ l2
    /\ TradingService.Map_get "BTCUSDT" (orderBooks w')
       = Some (mkBook (l1 ++ Scenario.bid_at 4 "alice" 100 4 :: l2)
                      [Scenario.ask_at 3 "alice" 105 3])
    /\ (forall y, In y l1 -> 100 <= Order.price y)
    /\ (forall y, In y l2 -> Order.price y < 100).
Proof.
  apply (bid_joins_behind_bids_priced_no_lower (Scenario.bid_at 4 "alice" 100 4)
           Scenario.loaded_world
           (mkBook [Scenario.bid_at 1 "bob" 101 1; Scenario.bid_at 2 "bob" 100 2]
                   [Scenario.ask_at 3 "alice" 105 3])).
  - reflexivity.
  - reflexivity.
  - repeat constructor; simpl; discriminate.
Defined.

(** X7: on a loaded book whose asks run from the lowest price up, a new
    ask is placed behind every ask priced at most as high and ahead of every
    ask priced higher; the asks already there keep their order, the bids and
    the relational state are untouched. *)
Theorem ask_joins_behind_asks_priced_no_higher (order : Order.t) (w : World) (book : OrderBook) :
  TradingService.Map_get (Order.symbol order) (orderBooks w) = Some book ->
  Order.side order = SELL ->
  StronglySorted (fun a b => Order.price a <= Order.price b) (asks book) ->
  exists l1 l2 w',
    TradingService.addToOrderBook order w = Returned tt w'
    /\ db w' = db w
    /\ asks book = l1 ++ l2
    /\ TradingService.Map_get (Order.symbol order) (orderBooks w')
       = Some (mkBook (bids book) (l1 ++ order :: l2))
    /\ (forall y, In y l1 -> Order.price y <= Order.price order)
    /\ (forall y, In y l2 -> Order.price order < Order.price y).
Proof.
  intros Hbook Hside Hsorted.
  destruct (sort_by_app_last (fun a b => Qltb (Order.price a - Order.price b) 0)
              (fun a b c H =>
                 match Qlt_le_dec (Order.price a) (Order.price b) with
                 | left Hlt => or_introl (proj2 (Qltb_minus_spec _ _) Hlt)
                 | right Hle =>
                     or_intror (proj2 (Qltb_minus_spec _ _)
                                  (Qle_lt_trans _ _ _ Hle (proj1 (Qltb_minus_spec _ _) H)))
                 end)
              (asks book) order) as (l1 & l2 & Hold & Hsort & H1 & H2).
  { eapply StronglySorted_ind with (P := StronglySorted _); [constructor| |exact Hsorted].
    intros a l _ IH Hall. constructor; [exact IH|].
    eapply Forall_impl; [|exact Hall]. intros b Hb. now apply Qltb_minus_false. }
  exists l1, l2. eexists.
  unfold TradingService.addToOrderBook, bind, TradingService.get_orderBook,
    TradingService.set_orderBook. rewrite Hbook. simpl. rewrite Hbook, Hside. simpl.
  rewrite Hsort.
  split; [reflexivity|]. split; [reflexivity|]. split; [exact Hold|].
  split; [apply Map_get_set|]. split.
  - intros y Hy. apply Qltb_minus_false. now apply H1.
  - intros y Hy. apply Qltb_minus_spec. now apply H2.
Qed.

Lemma ask_joins_behind_asks_priced_no_higher_witness :
  exists l1 l2 w',
    TradingService.addToOrderBook (Scenario.ask_at 4 "bob" 105 4) Scenario.loaded_world
    = Returned tt w'
    /\ db w' = db Scenario.loaded_world
    /\ [Scenario.ask_at 3 "alice" 105 3] = l1 ++ l2
    /\ TradingService.Map_get "BTCUSDT" (orderBooks w')
       = Some (mkBook [Scenario.bid_at 1 "bob" 101 1; Scenario.bid_at 2 "bob" 100 2]
                      (l1 ++ Scenario.ask_at 4 "bob" 105 4 :: l2))
    /\ (forall y, In y l1 -> Order.price y <= 105)
    /\ (forall y, In y l2 -> 105 < Order.price y).
Proof.
  apply (ask_joins_behind_asks_priced_no_higher (Scenario.ask_at 4 "bob" 105 4)
           Scenario.loaded_world
           (mkBook [Scenario.bid_at 1 "bob" 101 1; Scenario.bid_at 2 "bob" 100 2]
                   [Scenario.ask_at 3 "alice" 105 3])).
  - reflexivity.
  - reflexivity.
  - repeat constructor.
Defined.

(** ** Queries *)

Lemma in_order_firstn {A} (before : A -> A -> bool) (n : nat) (l : list A) :
  in_order before l -> in_order before (firstn n l).
Proof.
  unfold in_order. revert l. induction n as [|n IH]; intros l Hs; simpl; [constructor|].
  destruct l as [|a l]; [constructor|].
  inversion Hs as [|? ? Hs' Hhd]; subst. constructor; [now apply IH|].
  destruct l as [|b l]; destruct n; simpl; constructor. now inversion Hhd.
Qed.

Lemma firstn_in {A} (n : nat) (l : list A) (a : A) : In a (firstn n l) -> In a l.
Proof.
  revert l. induction n as [|n IH]; intros [|b l]; simpl; try tauto.
  intros [->|H]; [now left|right; now apply IH].
Qed.

Lemma open_orders_before_asym (a b : Order.t) :
  OrderModel.open_orders_before a b = true -> OrderModel.open_orders_before b a = false.
Proof.
  unfold OrderModel.open_orders_before, Qgtb, Qltb, Qeqb.
  destruct (Order.side a), (Order.side b); try congruence; intros H.
  - apply orb_true_iff in H. apply orb_false_iff.
    destruct H as [H|H].
    + apply negb_true_iff in H.
      assert (Hlt : Order.price b < Order.price a).
      { apply Qnot_le_lt. intros Hle. apply Qle_bool_iff in Hle. congruence. }
      split.
      * apply negb_false_iff. apply Qle_bool_iff. lra.
      * apply andb_false_iff. left.
        destruct (Qeq_bool _ _) eqn:E; [|reflexivity].
        apply Qeq_bool_iff in E. exfalso. lra.
    + apply andb_true_iff in H. destruct H as [He Hc].
      apply Qeq_bool_iff in He. apply Nat.ltb_lt in Hc. split.
      * apply negb_false_iff. apply Qle_bool_iff. lra.
      * apply andb_false_iff. right. apply Nat.ltb_ge. lia.
  - apply orb_true_iff in H. apply orb_false_iff.
    destruct H as [H|H].
    + apply negb_true_iff in H.
      assert (Hlt : Order.price a < Order.price b).
      { apply Qnot_le_lt. intros Hle. apply Qle_bool_iff in Hle. congruence. }
      split.
      * apply negb_false_iff. apply Qle_bool_iff. lra.
      * apply andb_false_iff. left.
        destruct (Qeq_bool _ _) eqn:E; [|reflexivity].
        apply Qeq_bool_iff in E. exfalso. lra.
    + apply andb_true_iff in H. destruct H as [He Hc].
      apply Qeq_bool_iff in He. apply Nat.ltb_lt in Hc. split.
      * apply negb_false_iff. apply Qle_bool_iff. lra.
      * apply andb_false_iff. right. apply Nat.ltb_ge. lia.
Qed.

(** X8: [getOpenOrdersBySymbol] leaves the world alone and returns at
    most [limit] orders, each of them a stored order of the symbol that is
    OPEN or PARTIALLY_FILLED; they come in the order of the query (asks from
    the lowest price, then bids from the highest, older first at a price), and
    when the open orders of the symbol number at most [limit] none is left
    out. *)
Theorem open_orders_of_symbol (symbol : string) (limit : nat) (w : World) :
  exists os,
    OrderModel.getOpenOrdersBySymbol symbol limit w = Returned os w
    /\ (List.length os <= limit)%nat
    /\ (forall o, In o os ->
                  In o (orders (db w))
                  /\ Order.symbol o = symbol
                  /\ (Order.status o = OPEN \/ Order.status o = PARTIALLY_FILLED))
    /\ in_order OrderModel.open_orders_before os
    /\ ((List.length (filter (fun o => String.eqb (Order.symbol o) symbol
                                   && (OrderStatus_eqb (Order.status o) OPEN
                                       || OrderStatus_eqb (Order.status o) PARTIALLY_FILLED))
                         (orders (db w))) <= limit)%nat ->
        forall o, In o (orders (db w)) -> Order.symbol o = symbol ->
                  Order.status o = OPEN \/ Order.status o = PARTIALLY_FILLED ->
                  In o os).
Proof.
  eexists. split; [reflexivity|].
  split; [apply firstn_le_length|].
  split; [|split].
  - intros o Hin. apply firstn_in in Hin. apply sort_by_in in Hin.
    apply filter_In in Hin. destruct Hin as [Hin Hc].
    apply andb_true_iff in Hc. destruct Hc as [Hs Hst].
    apply String.eqb_eq in Hs. repeat split; try assumption.
    destruct (Order.status o); simpl in Hst; try discriminate; auto.
  - apply in_order_firstn. apply sort_by_in_order. apply open_orders_before_asym.
  - intros Hlen o Hin Hs Hst.
    rewrite firstn_all2.
    + apply sort_by_in. apply filter_In. split; [exact Hin|].
      apply andb_true_iff. split; [now apply String.eqb_eq|].
      destruct Hst as [-> | ->]; reflexivity.
    + rewrite (Permutation_length (sort_by_perm _ _)). exact Hlen.
Qed.

Lemma newest_first_asym (a b : Trade.t) :
  TradeModel.newest_first a b = true -> TradeModel.newest_first b a = false.
Proof.
  unfold TradeModel.newest_first. intros H.
  apply Nat.ltb_lt in H. apply Nat.ltb_ge. lia.
Qed.

(** X9: [getTrades] (through [getTradesByUserId]) leaves the world alone
    and returns at most [limit] trades, each a stored trade of that user, and
    of the symbol when a non-empty one is given, no trade ahead of a newer
    one. *)
Theorem trades_of_user (user : UserId) (symbol : option string) (limit : nat) (w : World) :
  exists ts,
    TradingService.getTrades user symbol limit w = Returned ts w
    /\ (List.length ts <= limit)%nat
    /\ (forall t, In t ts ->
                  In t (trades (db w))
                  /\ Trade.userId t = user
                  /\ (forall s, symbol = Some s -> s <> "" -> Trade.symbol t = s))
    /\ Sorted (fun a b => (Trade.createdAt b <= Trade.createdAt a)%nat) ts.
Proof.
  eexists. split; [reflexivity|].
  split; [apply firstn_le_length|]. split.
  - intros t Hin. apply firstn_in in Hin. apply sort_by_in in Hin.
    apply filter_In in Hin. destruct Hin as [Hin Hc].
    apply andb_true_iff in Hc. destruct Hc as [Hu Hs].
    apply String.eqb_eq in Hu. repeat split; try assumption.
    intros s -> Hne. simpl in Hs.
    destruct (String.eqb_spec s ""); [contradiction|]. now apply String.eqb_eq.
  - match goal with |- Sorted _ (firstn _ (sort_by _ ?l)) =>
      pose proof (in_order_firstn TradeModel.newest_first limit _
                    (sort_by_in_order TradeModel.newest_first newest_first_asym l)) as H
    end.
    unfold in_order in H.
    eapply Sorted_ind with (P := Sorted _); [constructor| |exact H].
    intros a l _ IH Hhd. constructor; [exact IH|].
    destruct Hhd as [|b l' Hb]; constructor.
    unfold TradeModel.newest_first in Hb. apply Nat.ltb_ge in Hb. exact Hb.
Qed.

(** X10: [getOrder] leaves the world alone and hands out an order only to
    the user who owns it: what it returns is a stored order with the
    identifier and the user asked for, and for a stored order of another user
    it returns nothing. *)
Theorem order_is_shown_to_its_owner_only (orderId : Uuid) (user : UserId) (w : World) :
  exists r,
    TradingService.getOrder orderId user w = Returned r w
    /\ (forall o, r = Some o ->
                  In o (orders (db w)) /\ Order.id o = orderId /\ Order.userId o = user)
    /\ ((forall o, In o (orders (db w)) -> Order.id o = orderId -> Order.userId o <> user) ->
        r = None).
Proof.
  eexists. split; [reflexivity|]. split.
  - intros o Hr. apply find_some in Hr. destruct Hr as [Hin Hc].
    apply andb_true_iff in Hc. destruct Hc as [Hi Hu].
    apply Nat.eqb_eq in Hi. apply String.eqb_eq in Hu. auto.
  - intros Hforeign.
    destruct (find _ _) as [o|] eqn:E; [|reflexivity].
    apply find_some in E. destruct E as [Hin Hc].
    apply andb_true_iff in Hc. destruct Hc as [Hi Hu].
    apply Nat.eqb_eq in Hi. apply String.eqb_eq in Hu.
    exfalso. exact (Hforeign o Hin Hi Hu).
Qed.

(** ** Cancelling an open order *)

Lemma set_balances_same (d : Db) : Schema.set_balances d (account_balances d) = d.
Proof. destruct d; reflexivity. Qed.

Lemma open_not_cancelled (s : OrderStatus) :
  s = OPEN \/ s = PARTIALLY_FILLED -> OrderStatus_eqb s CANCELLED = false.
Proof. intros [-> | ->]; reflexivity. Qed.

(** What the unlock trigger does when an order that was not cancelled
    becomes CANCELLED. *)
Lemma unlock_order_funds_on_cancel (OLD NEW : Order.t) (w : World) :
  Order.status NEW = CANCELLED ->
  OrderStatus_eqb (Order.status OLD) CANCELLED = false ->
  Schema.unlock_order_funds OLD NEW w
  = Returned NEW (with_db w (Schema.set_balances (db w) (balances_after_unlock NEW w))).
Proof.
  intros HN HO. unfold Schema.unlock_order_funds, balances_after_unlock.
  rewrite HN, HO. simpl.
  destruct (negb (Schema.assets_fit _)); [now rewrite set_balances_same, with_db_same|].
  destruct (Qleb _ _); [now rewrite set_balances_same, with_db_same|].
  unfold Schema.update_account_balances, bind, get_db, get_now, put_db, throw.
  fold (unlock_row NEW).
  destruct (forallb _ _); [reflexivity|].
  now rewrite set_balances_same, with_db_same.
Qed.

(** The row pass of an UPDATE that selects one row, [o], which passes the
    constraints. *)
Lemma update_orders_rows_one (where_ : Order.t -> bool) (set : Order.t -> Order.t)
    (o : Order.t) (rows : list Order.t) (w : World) :
  NoDup (map Order.id rows) ->
  In o rows ->
  where_ o = true ->
  (forall x, where_ x = true -> Order.id x = Order.id o) ->
  Schema.valid_quantity (Schema.touch_order (now w) (set o)) = true ->
  Schema.valid_filled_quantity (Schema.touch_order (now w) (set o)) = true ->
  exists w1,
    Schema.unlock_order_funds o (set o) w = Returned (set o) w1
    /\ Schema.update_orders_rows where_ set rows w
       = Returned (updated_orders (now w) where_ set rows,
                   [(o, Schema.touch_order (now w) (set o))]) w1.
Proof.
  intros Hpk Hin Hw Hone Hv1 Hv2.
  destruct (unlock_order_funds_returned o (set o) w) as (w1 & E1 & K1).
  exists w1. split; [exact E1|].
  induction rows as [|r rows IH]; simpl in *; [contradiction|].
  inversion Hpk as [|? ? Hnotin Hpk']; subst.
  destruct Hin as [->|Hin].
  - rewrite Hw. unfold bind at 1. unfold get_now at 1.
    unfold bind at 1. rewrite E1.
    rewrite Hv1, Hv2. simpl.
    assert (Hnone : forall x, In x rows -> where_ x = false).
    { intros x Hx. destruct (where_ x) eqn:E; [|reflexivity].
      exfalso. apply Hnotin. rewrite <- (Hone x E). now apply in_map. }
    unfold bind. rewrite (update_orders_rows_none _ _ _ _ Hnone). simpl.
    unfold updated_orders.
    rewrite (map_ext_in _ (fun x => x)), map_id; [reflexivity|].
    intros x Hx. now rewrite (Hnone x Hx).
  - assert (Hr : where_ r = false).
    { destruct (where_ r) eqn:E; [|reflexivity].
      exfalso. apply Hnotin. rewrite (Hone r E). now apply in_map. }
    rewrite Hr. unfold bind. rewrite (IH Hpk' Hin). reflexivity.
Qed.

Lemma find_updated_order_where (t : Timestamp) (where_ : Order.t -> bool)
    (set : Order.t -> Order.t) (rows : list Order.t) (o : Order.t) :
  (forall x, Order.id (set x) = Order.id x) ->
  NoDup (map Order.id rows) -> In o rows -> where_ o = true ->
  find (fun x => Order.id x =? Order.id o)%nat (updated_orders t where_ set rows)
  = Some (Schema.touch_order t (set o)).
Proof.
  intros Hid Hpk Hin Hw. unfold updated_orders.
  induction rows as [|r rows IH]; simpl; [contradiction|].
  inversion Hpk as [|? ? Hnotin Hpk']; subst.
  destruct (Nat.eqb_spec (Order.id r) (Order.id o)) as [E|N].
  - assert (r = o) as ->.
    { destruct Hin as [->|Hin]; [reflexivity|].
      exfalso. apply Hnotin. rewrite E. now apply in_map. }
    rewrite Hw. simpl. now rewrite Hid, Nat.eqb_refl.
  - destruct Hin as [->|Hin]; [contradiction|].
    assert (Hskip : (Order.id (if where_ r then Schema.touch_order t (set r) else r)
                     =? Order.id o)%nat = false).
    { destruct (where_ r); simpl; [rewrite Hid|]; now apply Nat.eqb_neq. }
    rewrite Hskip. now apply IH.
Qed.

(** What [OrderModel.cancelOrder] does to an order its owner may cancel. *)
Lemma cancelOrder_of_open_order (w : World) (o : Order.t) :
  NoDup (map Order.id (orders (db w))) ->
  In o (orders (db w)) ->
  Order.status o = OPEN \/ Order.status o = PARTIALLY_FILLED ->
  Schema.valid_quantity o = true ->
  Schema.valid_filled_quantity o = true ->
  exists w',
    OrderModel.cancelOrder (Order.id o) (Order.userId o) w
    = Returned (Some (cancelled_row (now w) o)) w'
    /\ stored_order (Order.id o) (db w') = Some (cancelled_row (now w) o)
    /\ orders (db w')
       = map (fun x => if (Order.id x =? Order.id o)%nat then cancelled_row (now w) o else x)
             (orders (db w))
    /\ account_balances (db w') = balances_after_unlock o w
    /\ trades (db w') = trades (db w)
    /\ orderBooks w' = orderBooks w
    /\ emitted w' = emitted w
    /\ now w' = now w.
Proof.
  intros Hpk Hin Hst Hv1 Hv2.
  set (where_ := fun x : Order.t =>
                   (Order.id x =? Order.id o)%nat
                   && String.eqb (Order.userId x) (Order.userId o)
                   && (OrderStatus_eqb (Order.status x) OPEN
                       || OrderStatus_eqb (Order.status x) PARTIALLY_FILLED)).
  set (set := fun x : Order.t =>
                Order.mk (Order.id x) (Order.userId x) (Order.clientOrderId x)
                  (Order.symbol x) (Order.type x) (Order.side x) (Order.price x)
                  (Order.stopPrice x) (Order.quantity x) (Order.filledQuantity x)
                  CANCELLED
                  (Order.timeInForce x) (Order.icebergQuantity x)
                  (Order.createdAt x) (Order.updatedAt x) (Some (now w))).
  assert (Hw : where_ o = true).
  { unfold where_. rewrite Nat.eqb_refl, String.eqb_refl.
    destruct Hst as [-> | ->]; reflexivity. }
  assert (Hone : forall x, where_ x = true -> Order.id x = Order.id o).
  { unfold where_. intros x Hx. apply andb_true_iff in Hx. destruct Hx as [Hx _].
    apply andb_true_iff in Hx. destruct Hx as [Hx _]. now apply Nat.eqb_eq. }
  destruct (update_orders_rows_one where_ set o (orders (db w)) w Hpk Hin Hw Hone Hv1 Hv2)
    as (w1 & E1 & Erows).
  rewrite (unlock_order_funds_on_cancel o (set o) w eq_refl (open_not_cancelled _ Hst)) in E1.
  inversion E1 as [Hw1]. clear E1.
  assert (Hbal : balances_after_unlock (set o) w = balances_after_unlock o w) by reflexivity.
  rewrite Hbal in Hw1.
  eexists. split.
  - unfold OrderModel.cancelOrder, rethrow_as.
    unfold bind at 1. unfold get_now at 1.
    unfold Schema.update_orders.
    unfold bind at 1. unfold bind at 1. unfold get_db at 1.
    unfold bind at 1. fold where_. fold set. rewrite Erows.
    unfold bind, get_db, put_db, ret. cbn [fst snd map hd_error].
    reflexivity.
  - subst w1. cbn [db with_db Schema.set_orders Schema.set_balances orders account_balances
                   trades orderBooks emitted now].
    split.
    { unfold stored_order. cbn [orders].
      apply (find_updated_order_where (now w) where_ set (orders (db w)) o); auto. }
    split.
    { unfold updated_orders. apply map_ext_in. intros y Hiny.
      destruct (Nat.eqb_spec (Order.id y) (Order.id o)) as [Hid|Hid].
      - rewrite (primary_key_row _ _ _ Hpk Hin Hiny Hid), Hw. reflexivity.
      - destruct (where_ y) eqn:E; [|reflexivity].
        exfalso. apply Hid. now apply Hone. }
    repeat split; reflexivity.
Qed.

(** X11: a cancel command of its owner for a stored order that is OPEN or
    PARTIALLY_FILLED returns true; the stored order becomes CANCELLED with
    [closed_at] and [updated_at] stamped and its filled quantity kept, the
    table of orders is the old one with that row replaced and every other row
    as it was, the orders of that identifier leave its side of the book of the
    symbol, and the cancelled row is published. *)
Theorem cancel_of_open_order_takes_it_off_the_book (w : World) (o : Order.t) :
  NoDup (map Order.id (orders (db w))) ->
  In o (orders (db w)) ->
  Order.status o = OPEN \/ Order.status o = PARTIALLY_FILLED ->
  Schema.valid_quantity o = true ->
  Schema.valid_filled_quantity o = true ->
  exists w' o',
    TradingService.handleCancelOrder (Order.id o) (Order.userId o) w = Returned true w'
    /\ stored_order (Order.id o) (db w') = Some o'
    /\ Order.status o' = CANCELLED
    /\ Order.closedAt o' = Some (now w)
    /\ Order.updatedAt o' = now w
    /\ Order.filledQuantity o' = Order.filledQuantity o
    /\ orders (db w')
       = map (fun x => if (Order.id x =? Order.id o)%nat then o' else x) (orders (db w))
    /\ (forall book,
          TradingService.Map_get (Order.symbol o) (orderBooks w) = Some book ->
          TradingService.Map_get (Order.symbol o) (orderBooks w')
          = Some (book_without o book))
    /\ (TradingService.Map_get (Order.symbol o) (orderBooks w) = None ->
        orderBooks w' = orderBooks w)
    /\ emitted w' = emitted w ++ [OrderUpdate o'].
Proof.
  intros Hpk Hin Hst Hv1 Hv2.
  destruct (cancelOrder_of_open_order w o Hpk Hin Hst Hv1 Hv2)
    as (w1 & E & Hstored & Hothers & _ & _ & Hbooks & Hem & _).
  unfold TradingService.handleCancelOrder.
  unfold bind at 1. rewrite E.
  change (Order.symbol (cancelled_row (now w) o)) with (Order.symbol o).
  change (Order.side (cancelled_row (now w) o)) with (Order.side o).
  unfold bind at 1. unfold bind at 1. unfold TradingService.get_orderBook at 1.
  rewrite Hbooks.
  destruct (TradingService.Map_get (Order.symbol o) (orderBooks w)) as [book|] eqn:Eb.
  - destruct (Order.side o) eqn:Es;
      unfold TradingService.set_orderBook, bind, TradingService.publishOrderUpdate, emit, ret;
      cbn [db orderBooks emitted with_orderBooks];
      (do 2 eexists; split; [reflexivity|]);
      cbn [db orderBooks emitted];
      (split; [exact Hstored|]);
      (split; [reflexivity|]); (split; [reflexivity|]); (split; [reflexivity|]);
      (split; [reflexivity|]); (split; [exact Hothers|]);
      (split; [intros book' Hb'; inversion Hb'; subst book';
               rewrite Hbooks, Map_get_set; unfold book_without; rewrite Es; reflexivity|]);
      (split; [discriminate|]); now rewrite Hem.
  - unfold bind, TradingService.publishOrderUpdate, emit, ret.
    do 2 eexists. split; [reflexivity|].
    cbn [db orderBooks emitted].
    split; [exact Hstored|].
    split; [reflexivity|]. split; [reflexivity|]. split; [reflexivity|].
    split; [reflexivity|]. split; [exact Hothers|].
    split; [discriminate|]. split; [intros _; exact Hbooks|]. now rewrite Hem.
Qed.

Lemma cancel_of_open_order_takes_it_off_the_book_witness :
  exists w' o',
    TradingService.handleCancelOrder 7 "bob" Scenario.bob_booked_world = Returned true w'
    /\ stored_order 7 (db w') = Some o'
    /\ Order.status o' = CANCELLED
    /\ Order.closedAt o' = Some 10%nat
    /\ Order.updatedAt o' = 10%nat
    /\ Order.filledQuantity o' = 0
    /\ orders (db w')
       = map (fun x => if (Order.id x =? 7)%nat then o' else x)
             (orders (db Scenario.bob_booked_world))
    /\ (forall book,
          TradingService.Map_get "BTCUSDT" (orderBooks Scenario.bob_booked_world) = Some book ->
          TradingService.Map_get "BTCUSDT" (orderBooks w')
          = Some (book_without Scenario.bob_open book))
    /\ (TradingService.Map_get "BTCUSDT" (orderBooks Scenario.bob_booked_world) = None ->
        orderBooks w' = orderBooks Scenario.bob_booked_world)
    /\ emitted w' = emitted Scenario.bob_booked_world ++ [OrderUpdate o'].
Proof.
  apply (cancel_of_open_order_takes_it_off_the_book Scenario.bob_booked_world
           Scenario.bob_open).
  - repeat constructor. simpl. tauto.
  - simpl. now left.
  - now left.
  - reflexivity.
  - reflexivity.
Defined.

Lemma handleCancelOrder_balances (w : World) (o : Order.t) :
  NoDup (map Order.id (orders (db w))) ->
  In o (orders (db w)) ->
  Order.status o = OPEN \/ Order.status o = PARTIALLY_FILLED ->
  Schema.valid_quantity o = true ->
  Schema.valid_filled_quantity o = true ->
  exists w',
    TradingService.handleCancelOrder (Order.id o) (Order.userId o) w = Returned true w'
    /\ account_balances (db w') = balances_after_unlock o w
    /\ option_map Order.status (stored_order (Order.id o) (db w')) = Some CANCELLED.
Proof.
  intros Hpk Hin Hst Hv1 Hv2.
  destruct (cancelOrder_of_open_order w o Hpk Hin Hst Hv1 Hv2)
    as (w1 & E & Hstored & _ & Hbal & _).
  unfold TradingService.handleCancelOrder.
  unfold bind at 1. rewrite E.
  unfold bind, TradingService.get_orderBook, TradingService.set_orderBook,
    TradingService.publishOrderUpdate, emit, ret.
  destruct (TradingService.Map_get _ _); [destruct (Order.side _)|];
    (eexists; split; [reflexivity|]); unfold with_orderBooks; cbn [db];
    rewrite Hstored; split; auto.
Qed.

Lemma select_after_unlock (w : World) (o : Order.t) (b : Balance.t) :
  Schema.assets_fit (Order.symbol o) = true ->
  Order.filledQuantity o < Order.quantity o ->
  Schema.select_balance (Order.userId o) (Schema.asset_to_unlock o) (db w) = Some b ->
  (forall x, In x (account_balances (db w)) ->
             Schema.balance_is (Order.userId o) (Schema.asset_to_unlock o) x = true ->
             Schema.amount_to_unlock o <= Balance.lockedBalance x
             /\ 0 <= Balance.freeBalance x + Schema.amount_to_unlock o) ->
  find (Schema.balance_is (Order.userId o) (Schema.asset_to_unlock o))
       (balances_after_unlock o w)
  = Some (Schema.touch_balance (now w) (unlock_row o b)).
Proof.
  intros Hfit Hrem Hsel Hrows.
  unfold Schema.select_balance in *. unfold balances_after_unlock.
  rewrite Hfit. cbn [negb].
  assert (Hq : Qleb (Schema.remaining_quantity o) 0 = false).
  { unfold Qleb, Schema.remaining_quantity. destruct (Qle_bool _ _) eqn:Eq; [|reflexivity].
    apply Qle_bool_iff in Eq. exfalso. lra. }
  rewrite Hq.
  assert (Hall : forallb (fun x => negb (Schema.balance_is (Order.userId o)
                                           (Schema.asset_to_unlock o) x)
                                   || Schema.valid_balances
                                        (Schema.touch_balance (now w) (unlock_row o x)))
                         (account_balances (db w)) = true).
  { apply forallb_forall. intros x Hx.
    destruct (Schema.balance_is _ _ x) eqn:Ex; [|reflexivity]. simpl.
    destruct (Hrows x Hx Ex) as [Hl Hf].
    unfold Schema.valid_balances, Qgeb. simpl.
    apply andb_true_iff. split; apply Qle_bool_iff; lra. }
  rewrite Hall.
  rewrite (find_rewritten _ (fun x => Schema.touch_balance (now w) (unlock_row o x)))
    by reflexivity.
  now rewrite Hsel.
Qed.

(** X12: when such a cancel finds the funds of the order locked (the names
    of the assets fit the variables of the trigger, every row of the user in
    the asset of the lock has at least the amount locked, and something
    remains unfilled), the unlock trigger moves [amount_to_unlock], for a BUY
    price times the remaining quantity rounded to ten decimals, for a SELL
    the remaining quantity, from locked back to free. *)
Theorem cancel_unlocks_the_remaining_funds (w : World) (o : Order.t) (b : Balance.t) :
  NoDup (map Order.id (orders (db w))) ->
  In o (orders (db w)) ->
  Order.status o = OPEN \/ Order.status o = PARTIALLY_FILLED ->
  Schema.valid_quantity o = true ->
  Schema.valid_filled_quantity o = true ->
  Schema.assets_fit (Order.symbol o) = true ->
  Order.filledQuantity o < Order.quantity o ->
  Schema.select_balance (Order.userId o) (Schema.asset_to_unlock o) (db w) = Some b ->
  (forall x, In x (account_balances (db w)) ->
             Schema.balance_is (Order.userId o) (Schema.asset_to_unlock o) x = true ->
             Schema.amount_to_unlock o <= Balance.lockedBalance x
             /\ 0 <= Balance.freeBalance x + Schema.amount_to_unlock o) ->
  exists w' b',
    TradingService.handleCancelOrder (Order.id o) (Order.userId o) w = Returned true w'
    /\ Schema.select_balance (Order.userId o) (Schema.asset_to_unlock o) (db w') = Some b'
    /\ Balance.freeBalance b' = Balance.freeBalance b + Schema.amount_to_unlock o
    /\ Balance.lockedBalance b' = Balance.lockedBalance b - Schema.amount_to_unlock o.
Proof.
  intros Hpk Hin Hst Hv1 Hv2 Hfit Hrem Hsel Hrows.
  destruct (handleCancelOrder_balances w o Hpk Hin Hst Hv1 Hv2) as (w' & E' & Hdb & _).
  exists w', (Schema.touch_balance (now w) (unlock_row o b)).
  split; [exact E'|]. split; [|split; reflexivity].
  unfold Schema.select_balance. rewrite Hdb.
  now apply select_after_unlock.
Qed.

Lemma cancel_unlocks_the_remaining_funds_witness :
  exists w' b',
    TradingService.handleCancelOrder 7 "bob" Scenario.bob_booked_world = Returned true w'
    /\ Schema.select_balance "bob" "BTC" (db w') = Some b'
    /\ Balance.freeBalance b' = 0 + Schema.amount_to_unlock Scenario.bob_open
    /\ Balance.lockedBalance b' = 200 - Schema.amount_to_unlock Scenario.bob_open.
Proof.
  apply (cancel_unlocks_the_remaining_funds Scenario.bob_booked_world Scenario.bob_open
           (Balance.mk 0 "bob" "BTC" 0 200 4)).
  - repeat constructor. simpl. tauto.
  - simpl. now left.
  - now left.
  - reflexivity.
  - reflexivity.
  - reflexivity.
  - reflexivity.
  - reflexivity.
  - simpl. intros x [<-|[]] _. split; discriminate.
Defined.

(** X13: when a row of the user in the asset of the lock has less locked
    than the order would unlock, the CHECK constraint refuses the unlocking
    UPDATE and the trigger swallows the error: the cancel still returns true,
    the order is CANCELLED, and no balance has changed. *)
Theorem cancel_with_funds_missing_unlocks_nothing (w : World) (o : Order.t) (x : Balance.t) :
  NoDup (map Order.id (orders (db w))) ->
  In o (orders (db w)) ->
  Order.status o = OPEN \/ Order.status o = PARTIALLY_FILLED ->
  Schema.valid_quantity o = true ->
  Schema.valid_filled_quantity o = true ->
  In x (account_balances (db w)) ->
  Schema.balance_is (Order.userId o) (Schema.asset_to_unlock o) x = true ->
  Balance.lockedBalance x < Schema.amount_to_unlock o ->
  exists w',
    TradingService.handleCancelOrder (Order.id o) (Order.userId o) w = Returned true w'
    /\ option_map Order.status (stored_order (Order.id o) (db w')) = Some CANCELLED
    /\ account_balances (db w') = account_balances (db w).
Proof.
  intros Hpk Hin Hst Hv1 Hv2 Hx Hmatch Hshort.
  destruct (handleCancelOrder_balances w o Hpk Hin Hst Hv1 Hv2) as (w' & E' & Hdb & Hc).
  exists w'. split; [exact E'|]. split; [exact Hc|].
  rewrite Hdb. unfold balances_after_unlock.
  destruct (negb (Schema.assets_fit _)); [reflexivity|].
  destruct (Qleb _ _); [reflexivity|].
  destruct (forallb _ _) eqn:Eall; [|reflexivity].
  exfalso. rewrite forallb_forall in Eall. specialize (Eall x Hx).
  rewrite Hmatch in Eall. simpl in Eall.
  unfold Schema.valid_balances, Qgeb in Eall. simpl in Eall.
  apply andb_true_iff in Eall. destruct Eall as [_ Hl].
  apply Qle_bool_iff in Hl. lra.
Qed.

Lemma cancel_with_funds_missing_unlocks_nothing_witness :
  exists w',
    TradingService.handleCancelOrder 7 "bob" Scenario.bob_short_world = Returned true w'
    /\ option_map Order.status (stored_order 7 (db w')) = Some CANCELLED
    /\ account_balances (db w') = account_balances (db Scenario.bob_short_world).
Proof.
  apply (cancel_with_funds_missing_unlocks_nothing Scenario.bob_short_world
           Scenario.bob_open (Balance.mk 0 "bob" "BTC" 50 150 4)).
  - repeat constructor. simpl. tauto.
  - simpl. now left.
  - now left.
  - reflexivity.
  - reflexivity.
  - simpl. now left.
  - reflexivity.
  - reflexivity.
Defined.

(** ** Submitting and cancelling *)

Lemma not_in_ids_of_order_exists (i : Uuid) (d : Db) :
  Schema.order_exists i d = false -> ~ In i (map Order.id (orders d)).
Proof.
  unfold Schema.order_exists. intros H Hin.
  apply in_map_iff in Hin. destruct Hin as (x & Hx & Hin).
  assert (existsb (fun o => Order.id o =? i)%nat (orders d) = true).
  { apply existsb_exists. exists x. split; [exact Hin|]. now apply Nat.eqb_eq. }
  congruence.
Qed.

(** X14: submitting and cancelling undo each other on the ledger. When
    [createOrder] has returned an order and the rows of the user in the asset
    of the lock were non-negative before, the owner's cancel of that order
    returns true and leaves the row with the free and locked balances it had
    before the submission. *)
Theorem cancel_after_submit_restores_the_balance
    (orderData : OrderData.t) (w w1 : World) (o : Order.t) (b : Balance.t) :
  NoDup (map Order.id (orders (db w))) ->
  (forall x, In x (account_balances (db w)) ->
             Schema.balance_is (OrderData.userId orderData) (lock_asset orderData) x = true ->
             0 <= Balance.freeBalance x /\ 0 <= Balance.lockedBalance x) ->
  Schema.select_balance (OrderData.userId orderData) (lock_asset orderData) (db w) = Some b ->
  OrderModel.createOrder orderData w = Returned o w1 ->
  exists w2 b2,
    TradingService.handleCancelOrder (Order.id o) (OrderData.userId orderData) w1
    = Returned true w2
    /\ Schema.select_balance (OrderData.userId orderData) (lock_asset orderData) (db w2)
       = Some b2
    /\ Balance.freeBalance b2 == Balance.freeBalance b
    /\ Balance.lockedBalance b2 == Balance.lockedBalance b.
Proof.
  intros Hpk Hvalid Hsel E.
  destruct (createOrder_returned _ _ _ _ E)
    as (Ho & Horders & Hbal & _ & _ & Hnow & _ & _ & Hfresh & _ & Hv1 & Hv2 & Hfit & _).
  assert (Hasset : Schema.asset_to_unlock o = lock_asset orderData)
    by (subst o; reflexivity).
  assert (Huser : Order.userId o = OrderData.userId orderData) by (subst o; reflexivity).
  assert (Hamount : Schema.amount_to_unlock o == lock_amount orderData).
  { subst o. unfold lock_amount, Schema.amount_to_unlock, Schema.amount_to_lock,
      Schema.remaining_quantity.
    cbn [created_row Schema.coerce_order Order.side Order.price Order.quantity
         Order.filledQuantity].
    destruct (OrderData.side orderData); [|ring].
    rewrite (numeric_round_comp _ (numeric_round (OrderData.price orderData)
                                   * numeric_round (OrderData.quantity orderData)));
      [reflexivity|ring]. }
  assert (Hrem : Order.filledQuantity o < Order.quantity o).
  { unfold Schema.valid_quantity, Qgtb in Hv1. subst o.
    cbn [created_row Schema.coerce_order Order.quantity Order.filledQuantity] in *.
    apply Qnot_le_lt. intros Hle. apply Qle_bool_iff in Hle.
    rewrite Hle in Hv1. discriminate. }
  assert (Hsel1 : Schema.select_balance (Order.userId o) (Schema.asset_to_unlock o) (db w1)
                  = Some (Schema.touch_balance (now w) (lock_row orderData b))).
  { rewrite Hasset, Huser. unfold Schema.select_balance in *. rewrite Hbal.
    rewrite (find_rewritten _ (fun x => Schema.touch_balance (now w) (lock_row orderData x)))
      by reflexivity.
    now rewrite Hsel. }
  assert (Hpk1 : NoDup (map Order.id (orders (db w1)))).
  { rewrite Horders, map_app. simpl. apply NoDup_app_remove_l with (l := []).
    simpl. apply Permutation_NoDup with (l := Order.id o :: map Order.id (orders (db w))).
    - apply Permutation_cons_append.
    - constructor; [|exact Hpk]. subst o. simpl.
      now apply not_in_ids_of_order_exists. }
  assert (Hin1 : In o (orders (db w1)))
    by (rewrite Horders; apply in_or_app; right; now left).
  assert (Hst1 : Order.status o = OPEN \/ Order.status o = PARTIALLY_FILLED)
    by (left; subst o; reflexivity).
  assert (Hrows1 : forall x, In x (account_balances (db w1)) ->
            Schema.balance_is (Order.userId o) (Schema.asset_to_unlock o) x = true ->
            Schema.amount_to_unlock o <= Balance.lockedBalance x
            /\ 0 <= Balance.freeBalance x + Schema.amount_to_unlock o).
  { rewrite Hasset, Huser. intros x1 Hx1 Hm1. rewrite Hbal in Hx1.
    apply in_map_iff in Hx1. destruct Hx1 as (x & Hfx & Hx).
    destruct (Schema.balance_is _ _ x) eqn:Em.
    - destruct (Hvalid x Hx Em) as [H0 H1]. subst x1. simpl. split; lra.
    - subst x1. congruence. }
  destruct (handleCancelOrder_balances w1 o Hpk1 Hin1 Hst1 Hv1 Hv2)
    as (w2 & E2 & Hdb & _).
  pose proof (select_after_unlock w1 o _ Hfit Hrem Hsel1 Hrows1) as Hsel2.
  exists w2. eexists. rewrite Huser in E2. rewrite Hasset, Huser in Hsel2.
  split; [exact E2|]. split.
  - unfold Schema.select_balance. rewrite Hdb. exact Hsel2.
  - simpl. split; lra.
Qed.

Lemma cancel_after_submit_restores_the_balance_witness :
  exists o w1 w2 b2,
    OrderModel.createOrder Scenario.carl_buys Scenario.carl_world = Returned o w1
    /\ TradingService.handleCancelOrder (Order.id o) "carl" w1 = Returned true w2
    /\ Schema.select_balance "carl" "BTC" (db w2) = Some b2
    /\ Balance.freeBalance b2 == 30000
    /\ Balance.lockedBalance b2 == 0.
Proof.
  assert (Hv : forall x, In x (account_balances (db Scenario.carl_world)) ->
                         Schema.balance_is "carl" (lock_asset Scenario.carl_buys) x = true ->
                         0 <= Balance.freeBalance x /\ 0 <= Balance.lockedBalance x).
  { simpl. intros x [<-|[<-|[]]] _; split; discriminate. }
  assert (E : OrderModel.createOrder Scenario.carl_buys Scenario.carl_world
              = Returned (created_row Scenario.carl_buys 2 10)
                  (world_of Scenario.carl_world
                     (OrderModel.createOrder Scenario.carl_buys Scenario.carl_world)))
    by (vm_compute; reflexivity).
  destruct (cancel_after_submit_restores_the_balance Scenario.carl_buys Scenario.carl_world
              _ _ (Balance.mk 1 "carl" "BTC" 30000 0 0) (NoDup_nil _) Hv eq_refl E)
    as (w2 & b2 & H).
  exists (created_row Scenario.carl_buys 2 10).
  exists (world_of Scenario.carl_world
            (OrderModel.createOrder Scenario.carl_buys Scenario.carl_world)).
  exists w2, b2. split; [exact E|]. exact H.
Defined.

(** ** The CHECK constraints as invariants *)

#[export] Instance preserves_frame (I : Db -> Prop) : Frame (preserves I).
Proof. split; unfold preserves; auto. Qed.

Lemma valid_balances_spec (b : Balance.t) :
  Schema.valid_balances b = true
  <-> 0 <= Balance.freeBalance b /\ 0 <= Balance.lockedBalance b.
Proof.
  unfold Schema.valid_balances, Qgeb. rewrite andb_true_iff, !Qle_bool_iff. tauto.
Qed.

Lemma valid_order_spec (o : Order.t) :
  Schema.valid_quantity o = true /\ Schema.valid_filled_quantity o = true
  <-> 0 < Order.quantity o
      /\ 0 <= Order.filledQuantity o /\ Order.filledQuantity o <= Order.quantity o.
Proof.
  unfold Schema.valid_quantity, Schema.valid_filled_quantity, Qgtb, Qgeb, Qleb.
  rewrite andb_true_iff, negb_true_iff, !Qle_bool_iff.
  split.
  - intros (Hq & H0 & H1). split; [|tauto].
    apply Qnot_le_lt. intros Hle. apply Qle_bool_iff in Hle. congruence.
  - intros (Hq & H0 & H1). split; [|tauto].
    destruct (Qle_bool _ _) eqn:E; [|reflexivity].
    apply Qle_bool_iff in E. exfalso. lra.
Qed.

(** [d <- get_db ;; put_db (g d) ;;; k] when the write respects [R]. *)
Lemma respects_modify (R : World -> World -> Prop) `{Frame R} {A}
    (g : Db -> Db) (k : M A) :
  (forall w, R w (with_db w (g (db w)))) ->
  respects R k ->
  respects R (d <- get_db ;; put_db (g d) ;;; k).
Proof.
  intros Hg Hk w. unfold bind, get_db, put_db.
  specialize (Hk (with_db w (g (db w)))).
  destruct (k _); auto; eapply frame_trans; eauto.
Qed.

(** *** Balances stay non-negative *)

Lemma preserves_uuidv4 (I : Db -> Prop) : respects (preserves I) uuidv4.
Proof. intros w H. exact H. Qed.

Lemma preserves_emit (I : Db -> Prop) e : respects (preserves I) (emit e).
Proof. intros w H. exact H. Qed.

Lemma preserves_get_orderBook (I : Db -> Prop) s :
  respects (preserves I) (TradingService.get_orderBook s).
Proof. intros w H. exact H. Qed.

Lemma preserves_set_orderBook (I : Db -> Prop) s b :
  respects (preserves I) (TradingService.set_orderBook s b).
Proof. intros w H. exact H. Qed.

Lemma balances_ok_update_account_balances where_ set :
  respects (preserves balances_ok) (Schema.update_account_balances where_ set).
Proof.
  intros w. unfold Schema.update_account_balances, bind, get_db, get_now, put_db, throw.
  destruct (forallb _ _) eqn:E; [|simpl; apply frame_refl].
  unfold preserves, balances_ok. simpl. intros H.
  rewrite forallb_forall in E. rewrite Forall_forall in *.
  intros x Hx. apply in_map_iff in Hx. destruct Hx as (b & Hb & Hin).
  specialize (E b Hin). destruct (where_ b); simpl in E.
  - subst x. now apply valid_balances_spec.
  - subst x. now apply H.
Qed.

Lemma balances_ok_store_account_balance row :
  respects (preserves balances_ok) (Schema.store_account_balance row).
Proof.
  intros w. unfold Schema.store_account_balance, bind, get_db, put_db, throw, ret.
  destruct (negb (varchar_fits 10 _)); [simpl; apply frame_refl|].
  destruct (Schema.valid_balances (Schema.coerce_balance row)) eqn:E;
    cbn [negb]; [|simpl; apply frame_refl].
  destruct (existsb _ _); [simpl; apply frame_refl|].
  destruct (Schema.user_exists _ _); cbn [negb]; [|simpl; apply frame_refl].
  unfold preserves, balances_ok. cbn [db with_db Schema.set_balances account_balances].
  intros H.
  apply Forall_app. split; [exact H|]. constructor; [|constructor].
  now apply valid_balances_spec.
Qed.

Lemma balances_ok_insert_trade row :
  respects (preserves balances_ok) (Schema.insert_trade row).
Proof.
  intros w. unfold Schema.insert_trade, bind, get_db, put_db, throw, ret.
  repeat (match goal with |- context [if ?b then _ else _] => destruct b end;
          [simpl; apply frame_refl|]).
  simpl. intros H. exact H.
Qed.

Lemma balances_ok_insert_account_transaction row :
  respects (preserves balances_ok) (Schema.insert_account_transaction row).
Proof.
  intros w. unfold Schema.insert_account_transaction, bind, get_db, put_db, throw, ret.
  repeat (match goal with |- context [if ?b then _ else _] => destruct b end;
          [simpl; apply frame_refl|]).
  simpl. intros H. exact H.
Qed.

#[export] Hint Resolve preserves_uuidv4 preserves_emit preserves_get_orderBook
  preserves_set_orderBook balances_ok_update_account_balances
  balances_ok_store_account_balance balances_ok_insert_trade
  balances_ok_insert_account_transaction : respects.

Lemma balances_ok_insert_account_balance user a free locked :
  respects (preserves balances_ok) (Schema.insert_account_balance user a free locked).
Proof. unfold Schema.insert_account_balance. respects_auto. Qed.
#[export] Hint Resolve balances_ok_insert_account_balance : respects.

Lemma balances_ok_process_order_fill OLD NEW :
  respects (preserves balances_ok) (Schema.process_order_fill OLD NEW).
Proof. unfold Schema.process_order_fill. respects_auto. Qed.
#[export] Hint Resolve balances_ok_process_order_fill : respects.

Lemma balances_ok_after_update written :
  respects (preserves balances_ok) (Schema.after_update_of_filled_quantity written).
Proof. induction written as [|[OLD NEW] rest IH]; simpl; respects_auto. Qed.

Lemma balances_ok_unlock_order_funds OLD NEW :
  respects (preserves balances_ok) (Schema.unlock_order_funds OLD NEW).
Proof.
  intros w. unfold Schema.unlock_order_funds.
  destruct (_ || _); [simpl; apply frame_refl|].
  destruct (negb (Schema.assets_fit _)); [simpl; apply frame_refl|].
  destruct (Qleb _ _); [simpl; apply frame_refl|].
  match goal with |- context [Schema.update_account_balances ?f ?g w] =>
    pose proof (balances_ok_update_account_balances f g w) as Hk;
    destruct (Schema.update_account_balances f g w) as [[] w1|e w1|]
  end; auto. simpl; apply frame_refl.
Qed.
#[export] Hint Resolve balances_ok_after_update balances_ok_unlock_order_funds : respects.

Lemma balances_ok_update_orders_rows where_ set rows :
  respects (preserves balances_ok) (Schema.update_orders_rows where_ set rows).
Proof. induction rows as [|OLD rest IH]; simpl; respects_auto. Qed.
#[export] Hint Resolve balances_ok_update_orders_rows : respects.

Lemma balances_ok_update_orders b where_ set :
  respects (preserves balances_ok) (Schema.update_orders b where_ set).
Proof.
  unfold Schema.update_orders.
  apply respects_bind; [exact _|apply respects_get_db; exact _|intro d].
  apply respects_bind; [exact _|auto with respects|intro r].
  apply respects_modify with (g := fun d' => Schema.set_orders d' (fst r)); [exact _| |].
  - intros w H. exact H.
  - respects_auto.
Qed.

Lemma balances_ok_insert_order row :
  respects (preserves balances_ok) (Schema.insert_order row).
Proof.
  unfold Schema.insert_order.
  destruct (negb (Schema.client_order_id_fits row)); [apply respects_throw; exact _|].
  destruct (negb (varchar_fits 20 _)); [apply respects_throw; exact _|].
  apply respects_bind; [exact _| |intro NEW].
  - unfold Schema.lock_order_funds. respects_auto.
  - intros w. unfold bind, get_db, put_db, throw, ret.
    repeat (match goal with |- context [if ?b then _ else _] => destruct b end;
            [simpl; apply frame_refl|]).
    simpl. intros H. exact H.
Qed.
#[export] Hint Resolve balances_ok_update_orders balances_ok_insert_order : respects.

(** *** From the statements to the commands

    An invariant of the relational state that every statement preserves is
    preserved by the models, by the service and by every command. *)

Section Invariant.

Variable I : Db -> Prop.
Hypothesis I_update_account_balances : forall where_ set,
  respects (preserves I) (Schema.update_account_balances where_ set).
Hypothesis I_store_account_balance : forall row,
  respects (preserves I) (Schema.store_account_balance row).
Hypothesis I_insert_trade : forall row,
  respects (preserves I) (Schema.insert_trade row).
Hypothesis I_insert_account_transaction : forall row,
  respects (preserves I) (Schema.insert_account_transaction row).
Hypothesis I_insert_order : forall row,
  respects (preserves I) (Schema.insert_order row).
Hypothesis I_update_orders : forall b where_ set,
  respects (preserves I) (Schema.update_orders b where_ set).

#[local] Hint Resolve I_update_account_balances I_store_account_balance I_insert_trade
  I_insert_account_transaction I_insert_order I_update_orders : respects.

Lemma preserves_createOrder orderData :
  respects (preserves I) (OrderModel.createOrder orderData).
Proof. unfold OrderModel.createOrder. respects_auto. Qed.

Lemma preserves_getOrderById orderId userId :
  respects (preserves I) (OrderModel.getOrderById orderId userId).
Proof. unfold OrderModel.getOrderById. respects_auto. Qed.

Lemma preserves_model_cancelOrder orderId userId :
  respects (preserves I) (OrderModel.cancelOrder orderId userId).
Proof. unfold OrderModel.cancelOrder. respects_auto. Qed.

Lemma preserves_updateOrderFilledQuantity orderId filledQuantity :
  respects (preserves I) (OrderModel.updateOrderFilledQuantity orderId filledQuantity).
Proof. unfold OrderModel.updateOrderFilledQuantity. respects_auto. Qed.

Lemma preserves_getOpenOrdersBySymbol symbol limit :
  respects (preserves I) (OrderModel.getOpenOrdersBySymbol symbol limit).
Proof. unfold OrderModel.getOpenOrdersBySymbol. respects_auto. Qed.

Lemma preserves_createTrade tradeData :
  respects (preserves I) (TradeModel.createTrade tradeData).
Proof. unfold TradeModel.createTrade. respects_auto. Qed.

Lemma preserves_insert_account_balance user a free locked :
  respects (preserves I) (Schema.insert_account_balance user a free locked).
Proof. unfold Schema.insert_account_balance. respects_auto. Qed.

#[local] Hint Resolve preserves_createOrder preserves_getOrderById
  preserves_model_cancelOrder preserves_updateOrderFilledQuantity
  preserves_getOpenOrdersBySymbol preserves_createTrade
  preserves_insert_account_balance : respects.

Lemma preserves_getBalance userId asset :
  respects (preserves I) (AccountModel.getBalance userId asset).
Proof. unfold AccountModel.getBalance. respects_auto. Qed.

Lemma preserves_upsert_balance updatesSet values :
  respects (preserves I) (AccountModel.upsert_balance updatesSet values).
Proof. unfold AccountModel.upsert_balance. respects_auto. Qed.
#[local] Hint Resolve preserves_getBalance preserves_upsert_balance : respects.

Lemma preserves_updateBalance userId asset freeBalance lockedBalance :
  respects (preserves I) (AccountModel.updateBalance userId asset freeBalance lockedBalance).
Proof.
  unfold AccountModel.updateBalance.
  destruct freeBalance, lockedBalance; simpl; respects_auto.
Qed.

Lemma preserves_createTransaction transactionData :
  respects (preserves I) (AccountModel.createTransaction transactionData).
Proof. unfold AccountModel.createTransaction. respects_auto. Qed.
#[local] Hint Resolve preserves_updateBalance preserves_createTransaction : respects.

Lemma preserves_updateBalancesForTrade trade :
  respects (preserves I) (TradingService.updateBalancesForTrade trade).
Proof. unfold TradingService.updateBalancesForTrade. respects_auto. Qed.

Lemma preserves_publishTrade trade :
  respects (preserves I) (TradingService.publishTrade trade).
Proof. unfold TradingService.publishTrade. respects_auto. Qed.

Lemma preserves_publishOrderUpdate order :
  respects (preserves I) (TradingService.publishOrderUpdate order).
Proof. unfold TradingService.publishOrderUpdate. respects_auto. Qed.

Lemma preserves_addToOrderBook order :
  respects (preserves I) (TradingService.addToOrderBook order).
Proof. unfold TradingService.addToOrderBook. respects_auto. Qed.
#[local] Hint Resolve preserves_updateBalancesForTrade preserves_publishTrade
  preserves_publishOrderUpdate preserves_addToOrderBook : respects.

Lemma preserves_matchOrders_body symbol bestBid bestAsk :
  respects (preserves I) (TradingService.matchOrders_body symbol bestBid bestAsk).
Proof. unfold TradingService.matchOrders_body. respects_auto. Qed.
#[local] Hint Resolve preserves_matchOrders_body : respects.

Lemma preserves_matchOrders_loop fuel symbol :
  respects (preserves I) (TradingService.matchOrders_loop fuel symbol).
Proof.
  induction fuel as [|fuel IH]; intros w; simpl.
  - destruct (TradingService.Map_get _ _) as [[[|b bs] [|a as_]]|];
      try apply frame_refl.
    cbn [bids asks]. destruct (String_geb _ _); [exact Logic.I|apply frame_refl].
  - destruct (TradingService.Map_get _ _) as [[[|b bs] [|a as_]]|];
      try apply frame_refl.
    cbn [bids asks]. destruct (String_geb _ _); [|apply frame_refl].
    apply (respects_bind (preserves I)); auto with respects.
Qed.
#[local] Hint Resolve preserves_matchOrders_loop : respects.

Lemma preserves_handleNewOrder fuel orderData :
  respects (preserves I) (TradingService.handleNewOrder fuel orderData).
Proof.
  unfold TradingService.handleNewOrder, TradingService.matchOrders. respects_auto.
Qed.

Lemma preserves_handleCancelOrder orderId userId :
  respects (preserves I) (TradingService.handleCancelOrder orderId userId).
Proof. unfold TradingService.handleCancelOrder. respects_auto. Qed.

Lemma preserves_eachMessage fuel message :
  respects (preserves I) (TradingService.eachMessage fuel message).
Proof.
  intros w. unfold TradingService.eachMessage.
  match goal with |- context [match ?h w with _ => _ end] =>
    assert (H : respects (preserves I) h)
      by (destruct message;
          [apply preserves_handleNewOrder
          |apply (respects_bind (preserves I));
           [apply preserves_handleCancelOrder|intro; apply respects_ret; exact _]]);
    specialize (H w); destruct (h w) as [[] w'|e w'|]; auto
  end.
  simpl. intros Hw. exact Hw.
Qed.

Lemma preserves_depositFunds userId asset amount :
  respects (preserves I) (TradingService.depositFunds userId asset amount).
Proof.
  intros w. unfold TradingService.depositFunds.
  match goal with |- context [match ?h w with _ => _ end] =>
    assert (H : respects (preserves I) h) by respects_auto;
    specialize (H w); destruct (h w) as [x w'|e w'|]; auto
  end.
  simpl. intros Hw. exact Hw.
Qed.

Lemma preserves_withdrawFunds userId asset amount address :
  respects (preserves I) (TradingService.withdrawFunds userId asset amount address).
Proof.
  intros w. unfold TradingService.withdrawFunds.
  match goal with |- context [match ?h w with _ => _ end] =>
    assert (H : respects (preserves I) h) by respects_auto;
    specialize (H w); destruct (h w) as [x w'|e w'|]; auto
  end.
  simpl. intros Hw. exact Hw.
Qed.

Lemma later_preserves (w w' : World) : later w w' -> preserves I w w'.
Proof.
  induction 1 as [w|w w1 w2 fuel message _ IH E|w w1 w2 d o _ IH E
                  |w w1 w2 i u b _ IH E|w w1 u a q _ IH].
  - apply frame_refl.
  - eapply frame_trans; [exact IH|].
    eapply (respects_returned (preserves I)); [apply preserves_eachMessage|exact E].
  - eapply frame_trans; [exact IH|].
    unfold TradingService.createOrder, bind, emit, uuidv4, get_now, ret in E.
    inversion E; subst. intros Hw. exact Hw.
  - eapply frame_trans; [exact IH|].
    unfold TradingService.cancelOrder, bind, emit, ret in E.
    inversion E; subst. intros Hw. exact Hw.
  - eapply frame_trans; [exact IH|].
    pose proof (preserves_depositFunds u a q w1) as H.
    destruct (TradingService.depositFunds u a q w1); simpl; auto. apply frame_refl.
Qed.

End Invariant.

(** *** Filled quantities stay within the order *)

Lemma orders_ok_of_keeps_orders {A} (m : M A) :
  respects keeps_orders m -> respects (preserves orders_ok) m.
Proof.
  apply respects_weaken. intros w w' (Ho & _) Hw.
  unfold orders_ok. now rewrite Ho.
Qed.

Lemma update_orders_rows_ok where_ set rows :
  forall w r w',
    Schema.update_orders_rows where_ set rows w = Returned r w' ->
    forall P : Order.t -> Prop,
      (forall o, Schema.valid_quantity o = true ->
                 Schema.valid_filled_quantity o = true -> P o) ->
      Forall P rows -> Forall P (fst r).
Proof.
  induction rows as [|OLD rest IH]; simpl; intros w r w' E P HP Hrows.
  - inversion E; subst. constructor.
  - inversion Hrows as [|? ? HOLD Hrest]; subst.
    destruct (where_ OLD) eqn:Hw.
    + unfold bind at 1 in E. unfold get_now in E.
      unfold bind at 1 in E.
      destruct (unlock_order_funds_returned OLD (set OLD) w) as (w1 & E1 & K1).
      rewrite E1 in E.
      destruct (Schema.valid_quantity _) eqn:V1; [|discriminate].
      destruct (Schema.valid_filled_quantity _) eqn:V2; [|discriminate].
      simpl in E. unfold bind in E.
      destruct (Schema.update_orders_rows where_ set rest w1) as [r1 w2| |] eqn:E2;
        try discriminate.
      inversion E; subst; clear E. cbn [fst].
      constructor; [now apply HP|]. eapply IH; eauto.
    + unfold bind in E.
      destruct (Schema.update_orders_rows where_ set rest w) as [r1 w2| |] eqn:E2;
        try discriminate.
      inversion E; subst; clear E. cbn [fst].
      constructor; [exact HOLD|]. eapply IH; eauto.
Qed.

Lemma orders_ok_update_orders b where_ set :
  respects (preserves orders_ok) (Schema.update_orders b where_ set).
Proof.
  intros w. unfold Schema.update_orders.
  unfold bind at 1. unfold get_db at 1. unfold bind at 1.
  pose proof (keeps_orders_update_orders_rows where_ set (orders (db w)) w) as K1.
  destruct (Schema.update_orders_rows where_ set (orders (db w)) w) as [r w1|e1 w1|] eqn:E1;
    [| |exact Logic.I].
  - pose proof (update_orders_rows_ok _ _ _ _ _ _ E1) as V.
    unfold bind at 1. unfold get_db at 1.
    unfold bind at 1. unfold put_db at 1.
    unfold bind.
    match goal with
    | |- context [(if b then ?m else _) ?w2] =>
        assert (Hm : respects keeps_orders (if b then m else ret tt))
          by (destruct b; respects_auto);
        specialize (Hm w2);
        destruct ((if b then m else ret tt) w2) as [[] w3|e3 w3|]
    end; simpl; auto;
      intros Hw; unfold orders_ok; destruct Hm as (Ho & _); rewrite Ho; simpl;
      (apply V; [|exact Hw]);
      intros o H1 H2; now apply valid_order_spec.
  - intros Hw. unfold orders_ok. destruct K1 as (Ho & _). rewrite Ho. exact Hw.
Qed.

Lemma keeps_orders_lock_order_funds NEW :
  respects keeps_orders (Schema.lock_order_funds NEW).
Proof. unfold Schema.lock_order_funds. respects_auto. Qed.

Lemma orders_ok_insert_order row :
  respects (preserves orders_ok) (Schema.insert_order row).
Proof.
  unfold Schema.insert_order.
  destruct (negb (Schema.client_order_id_fits row)); [apply respects_throw; exact _|].
  destruct (negb (varchar_fits 20 _)); [apply respects_throw; exact _|].
  apply respects_bind; [exact _| |intro NEW].
  - apply orders_ok_of_keeps_orders, keeps_orders_lock_order_funds.
  - intros w. unfold bind, get_db, put_db, throw, ret.
    destruct (Schema.valid_quantity NEW) eqn:V1; simpl; [|apply frame_refl].
    destruct (Schema.valid_filled_quantity NEW) eqn:V2; simpl; [|apply frame_refl].
    repeat (match goal with |- context [if ?b then _ else _] => destruct b end;
            [simpl; apply frame_refl|]).
    simpl. intros Hw. unfold orders_ok. simpl.
    apply Forall_app. split; [exact Hw|]. constructor; [|constructor].
    now apply valid_order_spec.
Qed.

(** X17: the CHECK constraint on balances is an invariant of the service.
    If no balance row has a negative free or locked amount, then none has
    after any sequence of consumed messages, public submissions and cancels,
    and deposits, however each of them ended. *)
Theorem balances_never_go_negative (w w' : World) :
  later w w' -> balances_ok (db w) -> balances_ok (db w').
Proof.
  intros Hl. apply (later_preserves balances_ok); auto with respects.
Qed.

Lemma balances_never_go_negative_witness :
  balances_ok (db Scenario.market_world) /\ balances_ok (db Scenario.resting_world).
Proof.
  assert (H : balances_ok (db Scenario.market_world))
    by (repeat constructor; simpl; discriminate).
  split; [exact H|].
  apply (balances_never_go_negative Scenario.market_world Scenario.resting_world).
  - exact (later_message _ _ _ 0 (NewOrders Scenario.bob_bids)
             (later_now Scenario.market_world) resting_world_reached).
  - exact H.
Defined.

(** X18: the CHECK constraints on orders are an invariant of the service.
    If every stored order has a positive quantity and a filled quantity
    between 0 and its quantity, then so has every stored order after any
    sequence of consumed messages, public submissions and cancels, and
    deposits. *)
Theorem filled_quantity_stays_within_the_order (w w' : World) :
  later w w' -> orders_ok (db w) -> orders_ok (db w').
Proof.
  intros Hl. apply (later_preserves orders_ok); auto.
  - intros. apply orders_ok_of_keeps_orders. auto with respects.
  - intros. apply orders_ok_of_keeps_orders. auto with respects.
  - intros. apply orders_ok_of_keeps_orders. auto with respects.
  - intros. apply orders_ok_of_keeps_orders. auto with respects.
  - apply orders_ok_insert_order.
  - apply orders_ok_update_orders.
Qed.

Lemma filled_quantity_stays_within_the_order_witness :
  orders_ok (db Scenario.market_world) /\ orders_ok (db Scenario.resting_world).
Proof.
  assert (H : orders_ok (db Scenario.market_world)) by constructor.
  split; [exact H|].
  apply (filled_quantity_stays_within_the_order Scenario.market_world Scenario.resting_world).
  - exact (later_message _ _ _ 0 (NewOrders Scenario.bob_bids)
             (later_now Scenario.market_world) resting_world_reached).
  - exact H.
Defined.

(** ** Submissions that do not cross, and the first load of a book *)

Lemma uncrossed_loop_returns (fuel : nat) (symbol : string) (w : World) (book : OrderBook) :
  TradingService.Map_get symbol (orderBooks w) = Some book ->
  uncrossed book ->
  TradingService.matchOrders_loop fuel symbol w = Returned tt w.
Proof.
  intros Hb Hu. unfold uncrossed in Hu.
  destruct fuel; simpl; rewrite Hb;
    destruct (bids book) as [|b bs], (asks book) as [|a as_]; try reflexivity;
    now rewrite Hu.
Qed.

(** X19: a submission that does not cross in the eyes of the loop rests.
    When the order is stored, the book of its symbol is loaded, and after the
    order has joined its side the text of the best bid's price sorts before
    the text of the best ask's (or a side is empty), the message is consumed
    without a pass of the matching loop, whatever the fuel: the relational
    state is the one [createOrder] left, the book is the old one with the
    order sorted in, and one order update is published. So Alice's ask at 99
    rests under Bob's bid at 101, "101.0000000000" sorting before
    "99.0000000000". *)
Theorem uncrossed_submission_rests (fuel : nat) (orderData : OrderData.t)
    (w w1 : World) (o : Order.t) (book : OrderBook) :
  OrderModel.createOrder orderData w = Returned o w1 ->
  TradingService.Map_get (Order.symbol o) (orderBooks w) = Some book ->
  uncrossed (book_with o book) ->
  exists w',
    TradingService.eachMessage fuel (NewOrders orderData) w = Returned tt w'
    /\ db w' = db w1
    /\ orderBooks w'
       = TradingService.Map_set (Order.symbol o) (book_with o book) (orderBooks w)
    /\ emitted w' = emitted w ++ [OrderUpdate o]
    /\ trades (db w') = trades (db w).
Proof.
  intros E Hbook Hu.
  destruct (createOrder_returned _ _ _ _ E)
    as (_ & _ & _ & Htr & _ & _ & Hbooks & Hem & _).
  unfold TradingService.eachMessage, TradingService.handleNewOrder.
  unfold bind at 1. rewrite E.
  unfold bind at 1.
  assert (Ea : TradingService.addToOrderBook o w1
               = Returned tt (with_orderBooks w1
                   (TradingService.Map_set (Order.symbol o) (book_with o book)
                      (orderBooks w)))).
  { unfold TradingService.addToOrderBook, bind, TradingService.get_orderBook,
      TradingService.set_orderBook, ret, book_with.
    repeat (progress (rewrite ?Hbooks, ?Hbook; cbv beta iota)).
    destruct (Order.side o);
      repeat (progress (rewrite ?Hbooks, ?Hbook; cbv beta iota)); reflexivity. }
  rewrite Ea. unfold bind at 1.
  unfold TradingService.matchOrders. unfold bind at 1.
  unfold TradingService.get_orderBook at 1.
  unfold with_orderBooks at 1. cbn [orderBooks]. rewrite Map_get_set.
  rewrite (uncrossed_loop_returns fuel _ _ (book_with o book));
    [|unfold with_orderBooks; cbn [orderBooks]; apply Map_get_set|exact Hu].
  unfold TradingService.publishOrderUpdate, emit, with_orderBooks. cbn.
  eexists. split; [reflexivity|]. cbn.
  repeat split; auto. now rewrite Hem.
Qed.

Lemma uncrossed_submission_rests_witness :
  exists w',
    TradingService.eachMessage 5 (NewOrders Scenario.alice_asks) Scenario.resting_world
    = Returned tt w'
    /\ db w' = db (world_of Scenario.resting_world
                     (OrderModel.createOrder Scenario.alice_asks Scenario.resting_world))
    /\ orderBooks w'
       = TradingService.Map_set "BTCUSDT"
           (book_with (created_row Scenario.alice_asks 3 10)
              (mkBook [Scenario.bob_order; Scenario.bob_order] []))
           (orderBooks Scenario.resting_world)
    /\ emitted w'
       = emitted Scenario.resting_world ++ [OrderUpdate (created_row Scenario.alice_asks 3 10)]
    /\ trades (db w') = [].
Proof.
  apply (uncrossed_submission_rests 5 Scenario.alice_asks Scenario.resting_world
           (world_of Scenario.resting_world
              (OrderModel.createOrder Scenario.alice_asks Scenario.resting_world))
           (created_row Scenario.alice_asks 3 10)
           (mkBook [Scenario.bob_order; Scenario.bob_order] [])).
  - vm_compute. reflexivity.
  - reflexivity.
  - vm_compute. reflexivity.
Defined.

(** The book Alice's ask at 99 is sorted into: the bid on top is priced
    above the ask on top, and the loop takes the book for uncrossed. *)
Lemma resting_ask_below_the_bid :
  Order.price (created_row Scenario.alice_asks 3 10) < Order.price Scenario.bob_order
  /\ uncrossed (book_with (created_row Scenario.alice_asks 3 10)
                  (mkBook [Scenario.bob_order; Scenario.bob_order] [])).
Proof. split; vm_compute; reflexivity. Qed.



(** ** The fill trigger *)

#[export] Instance keeps_trades_frame : Frame keeps_trades.
Proof. split; unfold keeps_trades; intros; congruence. Qed.

#[export] Instance keeps_supply_frame : Frame keeps_supply.
Proof. split; unfold keeps_supply; intros; congruence. Qed.

Lemma keeps_trades_uuidv4 : respects keeps_trades uuidv4.
Proof. intros w. reflexivity. Qed.

Lemma keeps_trades_update_account_balances where_ set :
  respects keeps_trades (Schema.update_account_balances where_ set).
Proof.
  intros w. unfold Schema.update_account_balances, bind, get_db, get_now, put_db, throw.
  destruct (forallb _ _); reflexivity.
Qed.

Lemma keeps_trades_store_account_balance row :
  respects keeps_trades (Schema.store_account_balance row).
Proof.
  intros w. unfold Schema.store_account_balance, bind, get_db, put_db, throw, ret.
  repeat (match goal with |- context [if ?b then _ else _] => destruct b end;
          [reflexivity|]).
  reflexivity.
Qed.
#[export] Hint Resolve keeps_trades_uuidv4 keeps_trades_update_account_balances
  keeps_trades_store_account_balance : respects.

Lemma keeps_trades_insert_account_balance user a free locked :
  respects keeps_trades (Schema.insert_account_balance user a free locked).
Proof. unfold Schema.insert_account_balance. respects_auto. Qed.

Lemma keeps_trades_unlock_order_funds OLD NEW :
  respects keeps_trades (Schema.unlock_order_funds OLD NEW).
Proof.
  intros w. unfold Schema.unlock_order_funds.
  destruct (_ || _); [reflexivity|].
  destruct (negb (Schema.assets_fit _)); [reflexivity|].
  destruct (Qleb _ _); [reflexivity|].
  match goal with |- context [Schema.update_account_balances ?f ?g w] =>
    pose proof (keeps_trades_update_account_balances f g w) as Hk;
    destruct (Schema.update_account_balances f g w) as [[] w1|e w1|]
  end; auto. reflexivity.
Qed.
#[export] Hint Resolve keeps_trades_insert_account_balance
  keeps_trades_unlock_order_funds : respects.

Lemma keeps_trades_update_orders_rows where_ set rows :
  respects keeps_trades (Schema.update_orders_rows where_ set rows).
Proof. induction rows as [|OLD rest IH]; simpl; respects_auto. Qed.

Lemma keeps_supply_update_account_balances where_ set :
  respects keeps_supply (Schema.update_account_balances where_ set).
Proof.
  intros w. unfold Schema.update_account_balances, bind, get_db, get_now, put_db, throw.
  destruct (forallb _ _); reflexivity.
Qed.

Lemma keeps_supply_unlock_order_funds OLD NEW :
  respects keeps_supply (Schema.unlock_order_funds OLD NEW).
Proof.
  intros w. unfold Schema.unlock_order_funds.
  destruct (_ || _); [reflexivity|].
  destruct (negb (Schema.assets_fit _)); [reflexivity|].
  destruct (Qleb _ _); [reflexivity|].
  match goal with |- context [Schema.update_account_balances ?f ?g w] =>
    pose proof (keeps_supply_update_account_balances f g w) as Hk;
    destruct (Schema.update_account_balances f g w) as [[] w1|e w1|]
  end; auto. reflexivity.
Qed.
#[export] Hint Resolve keeps_supply_unlock_order_funds : respects.

Lemma keeps_supply_update_orders_rows where_ set rows :
  respects keeps_supply (Schema.update_orders_rows where_ set rows).
Proof. induction rows as [|OLD rest IH]; simpl; respects_auto. Qed.

Lemma insert_trade_returned (row r : Trade.t) (w w' : World) :
  Schema.insert_trade row w = Returned r w' ->
  trades (db w') = trades (db w) ++ [Schema.coerce_trade row].
Proof.
  unfold Schema.insert_trade, bind, get_db, put_db, throw, ret.
  repeat (match goal with |- context [if ?b then _ else _] => destruct b end;
          [discriminate|]).
  intros E. inversion E; subst. reflexivity.
Qed.

(** The row the fill trigger stores, when it returns. *)
Lemma process_order_fill_returned (OLD NEW o : Order.t) (w w' : World) :
  Qeqb (Order.filledQuantity NEW) (Order.filledQuantity OLD) = false ->
  find (fun x => Order.id x =? Order.id NEW)%nat (orders (db w)) = Some o ->
  Schema.process_order_fill OLD NEW w = Returned tt w' ->
  exists maker,
    trades (db w')
    = trades (db w)
      ++ [Schema.coerce_trade
            (Trade.mk (uuid w) (Order.id NEW) (Order.userId o) (Order.symbol o) (Order.price o)
               (Order.filledQuantity NEW - Order.filledQuantity OLD)
               (numeric_round
                  (numeric_round
                     ((Order.filledQuantity NEW - Order.filledQuantity OLD) * Order.price o)
                   * 0.001))
               (varchar_cut 10 (Schema.quote_asset (Order.symbol o)))
               (OrderSide_eqb (Order.side o) BUY) maker true (now w))].
Proof.
  intros Hne Hfind. unfold Schema.process_order_fill. rewrite Hne.
  unfold bind at 1. unfold get_db at 1.
  unfold bind at 1. unfold get_now at 1.
  rewrite Hfind. cbv zeta.
  destruct (negb (Schema.assets_fit _)); [discriminate|].
  unfold bind at 1. unfold uuidv4 at 1.
  unfold bind at 1.
  match goal with |- context [Schema.insert_trade ?row ?w2] =>
    destruct (Schema.insert_trade row w2) as [t w3|e w3|] eqn:Ei; try discriminate
  end.
  apply insert_trade_returned in Ei. cbn [db trades uuid now] in Ei.
  intros E.
  match type of E with
  | ?m w3 = _ =>
      assert (Hm : respects keeps_trades m) by respects_auto;
      pose proof (respects_returned keeps_trades m _ _ _ Hm E) as Ht
  end.
  eexists. unfold keeps_trades in Ht. rewrite Ht. exact Ei.
Qed.

(** X21: every fill recorded on an order makes the trigger write a trade
    of its own. When [updateOrderFilledQuantity(id, q)] returns for a stored
    order with [q], rounded to ten decimals, above its filled quantity, the
    trades have grown by one row, keyed by the next identifier, naming the
    order and its owner, priced at the order's own limit price (not the price
    of the match), for the quantity newly filled, with a commission of one
    thousandth of the value, value and commission each rounded to ten
    decimals, in the asset named by the first three characters of the
    symbol. *)
Theorem recorded_fill_writes_a_trade_at_the_limit_price
    (w w' : World) (o : Order.t) (filledQuantity : SqlValue) (q : Q)
    (r : option Order.t) :
  NoDup (map Order.id (orders (db w))) ->
  In o (orders (db w)) ->
  as_numeric filledQuantity = Some q ->
  Order.filledQuantity o < numeric_round q ->
  OrderModel.updateOrderFilledQuantity (Order.id o) filledQuantity w = Returned r w' ->
  exists maker,
    trades (db w')
    = trades (db w)
      ++ [Schema.coerce_trade
            (Trade.mk (uuid w) (Order.id o) (Order.userId o) (Order.symbol o) (Order.price o)
               (numeric_round q - Order.filledQuantity o)
               (numeric_round
                  (numeric_round ((numeric_round q - Order.filledQuantity o) * Order.price o)
                   * 0.001))
               (varchar_cut 10 (sql_left (Order.symbol o) 3))
               (OrderSide_eqb (Order.side o) BUY) maker true (now w))].
Proof.
  intros Hpk Hin Hv Hgt E.
  unfold OrderModel.updateOrderFilledQuantity, rethrow_as in E.
  rewrite Hv in E.
  unfold bind at 1 in E. unfold get_now at 1 in E.
  unfold bind in E.
  destruct (Schema.update_orders _ _ _ w) as [rows wf| |] eqn:E1; try discriminate.
  inversion E; subst; clear E.
  unfold Schema.update_orders in E1.
  unfold bind at 1 in E1. unfold get_db at 1 in E1.
  unfold bind at 1 in E1.
  pose proof (keeps_trades_update_orders_rows
                (fun o0 => (Order.id o0 =? Order.id o)%nat)
                (OrderModel.set_filled_quantity q (now w)) (orders (db w)) w) as T1.
  pose proof (keeps_supply_update_orders_rows
                (fun o0 => (Order.id o0 =? Order.id o)%nat)
                (OrderModel.set_filled_quantity q (now w)) (orders (db w)) w) as U1.
  destruct (Schema.update_orders_rows _ _ _ w) as [r1 w1| |] eqn:Er; try discriminate.
  destruct (update_orders_rows_returned _ _ _ _ _ _ Er) as (F & S & K).
  rewrite (filter_primary_key _ _ Hpk Hin) in S. cbn [map] in S.
  unfold bind at 1 in E1. unfold get_db at 1 in E1.
  unfold bind at 1 in E1. unfold put_db at 1 in E1.
  rewrite S in E1. cbn [Schema.after_update_of_filled_quantity snd] in E1.
  cbn [Order.filledQuantity Schema.touch_order OrderModel.set_filled_quantity] in E1.
  assert (Hgtb : Qgtb (numeric_round q) (Order.filledQuantity o) = true).
  { unfold Qgtb. apply negb_true_iff. destruct (Qle_bool _ _) eqn:Eq; [|reflexivity].
    apply Qle_bool_iff in Eq. exfalso. lra. }
  rewrite Hgtb in E1.
  unfold bind at 1 in E1. unfold bind at 1 in E1.
  match type of E1 with
  | context [Schema.process_order_fill ?OLD ?NEW ?w2] =>
      destruct (Schema.process_order_fill OLD NEW w2) as [[] w3| |] eqn:Ep;
        try discriminate;
      apply (process_order_fill_returned OLD NEW (Schema.touch_order (now w)
               (OrderModel.set_filled_quantity q (now w) o))) in Ep
  end.
  - simpl in E1. inversion E1; subst; clear E1.
    destruct Ep as (maker & Ep). exists maker.
    destruct K as (_ & _ & Hnow & _).
    unfold keeps_trades in T1. unfold keeps_supply in U1.
    cbn [db with_db Schema.set_orders trades uuid now Order.filledQuantity Order.userId
         Order.symbol Order.price Order.side Order.id Schema.touch_order
         OrderModel.set_filled_quantity] in Ep.
    rewrite T1, U1, Hnow in Ep. exact Ep.
  - cbn [Order.filledQuantity Schema.touch_order OrderModel.set_filled_quantity].
    unfold Qeqb. destruct (Qeq_bool _ _) eqn:Eq; [|reflexivity].
    apply Qeq_bool_iff in Eq. exfalso. lra.
  - cbn [db with_db Schema.set_orders orders Order.id Schema.touch_order
         OrderModel.set_filled_quantity].
    rewrite F. apply find_updated_order; auto.
Qed.

Lemma recorded_fill_writes_a_trade_at_the_limit_price_witness :
  exists r w',
    OrderModel.updateOrderFilledQuantity 7 (VNumeric 1) Scenario.bob_world = Returned r w'
    /\ exists maker,
         trades (db w')
         = trades (db Scenario.bob_world)
           ++ [Schema.coerce_trade
                 (Trade.mk (uuid Scenario.bob_world) 7 (Order.userId Scenario.bob_open)
                    (Order.symbol Scenario.bob_open) (Order.price Scenario.bob_open)
                    (numeric_round 1 - Order.filledQuantity Scenario.bob_open)
                    (numeric_round
                       (numeric_round
                          ((numeric_round 1 - Order.filledQuantity Scenario.bob_open)
                           * Order.price Scenario.bob_open)
                        * 0.001))
                    (varchar_cut 10 (sql_left (Order.symbol Scenario.bob_open) 3))
                    (OrderSide_eqb (Order.side Scenario.bob_open) BUY) maker true
                    (now Scenario.bob_world))].
Proof.
  eexists. eexists. split.
  - vm_compute. reflexivity.
  - eapply (recorded_fill_writes_a_trade_at_the_limit_price Scenario.bob_world _
              Scenario.bob_open (VNumeric 1) 1).
    + repeat constructor. simpl. tauto.
    + simpl. now left.
    + reflexivity.
    + reflexivity.
    + vm_compute. reflexivity.
Defined.

(** ** Submissions that cross *)

Lemma book_with_holds (o : Order.t) (book : OrderBook) :
  In o (side_of o (book_with o book)).
Proof.
  unfold side_of, book_with.
  destruct (Order.side o); cbn [bids asks];
    apply sort_by_in, in_or_app; right; now left.
Qed.

(** X25: a submission that crosses in the eyes of the loop is undone in the
    tables and stays in the book. When the order is stored, the book of its
    symbol is loaded, and with the order on its side the text of the best
    bid's price does not sort before the text of the best ask's, the loop
    starts a pass and is thrown out of it; the consumer rolls the tables back
    to what they were before the submission and publishes the error, but the
    book keeps the order, of which no row is stored. *)
Theorem crossing_submission_stays_in_the_book
    (fuel : nat) (orderData : OrderData.t) (w w1 : World) (o : Order.t)
    (book : OrderBook) (bestBid bestAsk : Order.t) (restB restA : list Order.t) :
  OrderModel.createOrder orderData w = Returned o w1 ->
  TradingService.Map_get (Order.symbol o) (orderBooks w) = Some book ->
  bids (book_with o book) = bestBid :: restB ->
  asks (book_with o book) = bestAsk :: restA ->
  String_geb (numeric_out (Order.price bestBid)) (numeric_out (Order.price bestAsk)) = true ->
  exists error w',
    TradingService.eachMessage (S fuel) (NewOrders orderData) w = Returned tt w'
    /\ db w' = db w
    /\ stored_order (Order.id o) (db w') = None
    /\ TradingService.Map_get (Order.symbol o) (orderBooks w') = Some (book_with o book)
    /\ In o (side_of o (book_with o book))
    /\ In (TradingError "new-orders" error) (emitted w').
Proof.
  intros E Hbook Hb Ha Hcross.
  destruct (createOrder_returned _ _ _ _ E)
    as (Ho & _ & _ & _ & _ & _ & Hbooks & _ & Hfresh & _).
  unfold TradingService.eachMessage, TradingService.handleNewOrder.
  unfold bind at 1. rewrite E.
  unfold bind at 1.
  assert (Ea : TradingService.addToOrderBook o w1
               = Returned tt (with_orderBooks w1
                   (TradingService.Map_set (Order.symbol o) (book_with o book)
                      (orderBooks w)))).
  { unfold TradingService.addToOrderBook, bind, TradingService.get_orderBook,
      TradingService.set_orderBook, ret, book_with.
    repeat (progress (rewrite ?Hbooks, ?Hbook; cbv beta iota)).
    destruct (Order.side o);
      repeat (progress (rewrite ?Hbooks, ?Hbook; cbv beta iota)); reflexivity. }
  rewrite Ea. unfold bind at 1.
  unfold TradingService.matchOrders. unfold bind at 1.
  unfold TradingService.get_orderBook at 1.
  unfold with_orderBooks at 1. cbn [orderBooks]. rewrite Map_get_set.
  cbn [TradingService.matchOrders_loop].
  unfold with_orderBooks at 1. cbn [orderBooks]. rewrite Map_get_set.
  rewrite Hb, Ha, Hcross.
  unfold bind at 1.
  match goal with |- context [TradingService.matchOrders_body ?s ?b ?a ?w2] =>
    destruct (matchOrders_body_thrown s b a w2) as (error & w3 & -> & K)
  end.
  destruct K as (Kb & _).
  unfold with_orderBooks in Kb. cbn [orderBooks] in Kb.
  exists error. eexists. unfold emit. split; [reflexivity|].
  cbn [db with_db orderBooks emitted].
  split; [reflexivity|].
  split.
  { subst o. cbn [Order.id created_row Schema.coerce_order].
    unfold stored_order. apply find_none_of_existsb. exact Hfresh. }
  split; [rewrite Kb; apply Map_get_set|].
  split; [apply book_with_holds|].
  apply in_or_app. right. now left.
Qed.

Lemma crossing_submission_stays_in_the_book_witness :
  exists error w',
    TradingService.eachMessage 1 (NewOrders Scenario.alice_asks_100) Scenario.resting_world
    = Returned tt w'
    /\ db w' = db Scenario.resting_world
    /\ stored_order 3 (db w') = None
    /\ TradingService.Map_get "BTCUSDT" (orderBooks w')
       = Some (book_with Scenario.alice_order
                 (mkBook [Scenario.bob_order; Scenario.bob_order] []))
    /\ In Scenario.alice_order
         (side_of Scenario.alice_order
            (book_with Scenario.alice_order
               (mkBook [Scenario.bob_order; Scenario.bob_order] [])))
    /\ In (TradingError "new-orders" error) (emitted w').
Proof.
  apply (crossing_submission_stays_in_the_book 0 Scenario.alice_asks_100
           Scenario.resting_world
           (world_of Scenario.resting_world
              (OrderModel.createOrder Scenario.alice_asks_100 Scenario.resting_world))
           Scenario.alice_order
           (mkBook [Scenario.bob_order; Scenario.bob_order] [])
           Scenario.bob_order Scenario.alice_order [Scenario.bob_order] []).
  - vm_compute. reflexivity.
  - reflexivity.
  - reflexivity.
  - reflexivity.
  - vm_compute. reflexivity.
Defined.

(** ** Transactions *)

(** X26: the row [createTransaction] stores is PENDING whatever status it
    was handed; it is appended to the table under the identifier drawn, with
    the asset, the amount and the fee as the columns take them. *)
Theorem transaction_is_stored_as_pending (transactionData : TransactionData.t)
    (w w' : World) (x : Transaction.t) :
  AccountModel.createTransaction transactionData w = Returned x w' ->
  Transaction.status x = TX_PENDING
  /\ Transaction.id x = uuid w
  /\ Transaction.type x = TransactionData.type transactionData
  /\ Transaction.userId x = TransactionData.userId transactionData
  /\ Transaction.asset x = varchar_cut 10 (TransactionData.asset transactionData)
  /\ Transaction.amount x = numeric_round (TransactionData.amount transactionData)
  /\ 0 < Transaction.amount x
  /\ account_transactions (db w') = account_transactions (db w) ++ [x].
Proof.
  unfold AccountModel.createTransaction, rethrow_as, Schema.insert_account_transaction,
    bind, uuidv4, get_now, get_db, put_db, throw, ret.
  cbn [db].
  destruct (negb (varchar_fits 10 _)); [discriminate|].
  destruct (negb (Schema.valid_amount _)) eqn:Ea; [discriminate|].
  destruct (negb (Schema.valid_fee _)); [discriminate|].
  destruct (negb (Schema.user_exists _ _)); [discriminate|].
  intros E; inversion E; subst; clear E.
  cbn [Schema.coerce_transaction Transaction.status Transaction.id Transaction.type
       Transaction.userId Transaction.asset Transaction.amount db with_db
       Schema.set_transactions account_transactions].
  repeat (split; [reflexivity|]).
  split; [|reflexivity].
  apply negb_false_iff in Ea. unfold Schema.valid_amount, Qgtb in Ea.
  cbn [Schema.coerce_transaction Transaction.amount] in Ea.
  apply negb_true_iff in Ea.
  apply Qnot_le_lt. intros Hle. apply Qle_bool_iff in Hle. congruence.
Qed.

Lemma transaction_is_stored_as_pending_witness :
  exists x w',
    AccountModel.createTransaction
      (TransactionData.mk "erin" DEPOSIT "USDT" 20 0 None None TX_COMPLETED)
      Scenario.erin_world
    = Returned x w'
    /\ Transaction.status x = TX_PENDING
    /\ Transaction.id x = uuid Scenario.erin_world
    /\ Transaction.type x = DEPOSIT
    /\ Transaction.userId x = "erin"
    /\ Transaction.asset x = varchar_cut 10 "USDT"
    /\ Transaction.amount x = numeric_round 20
    /\ 0 < Transaction.amount x
    /\ account_transactions (db w') = account_transactions (db Scenario.erin_world) ++ [x].
Proof.
  eexists. eexists. split.
  - vm_compute. reflexivity.
  - eapply (transaction_is_stored_as_pending
              (TransactionData.mk "erin" DEPOSIT "USDT" 20 0 None None TX_COMPLETED)
              Scenario.erin_world).
    vm_compute. reflexivity.
Defined.
